(** * snmpsim variation modules: [delay] and [multiplex]

    A shallow embedding of [snmpsim/variation/delay.py] and
    [snmpsim/variation/multiplex.py], and the properties of the two modules
    that the specification states.

    Conventions of the embedding.
    - Python [float]s (waits, deviations, periods, clock readings) are exact
      rationals [Q]; Python [int]s are [Z].
    - A function that may raise returns a [result]; the exceptions are the
      constructors of [exn].
    - The ambient dictionaries [recordContext] and [moduleContext] are
      records that are passed in and returned.
    - [time.time()] and the random generator are inputs: a call of [variate]
      or [record] is given the readings the clock would return and the raw
      number the generator would produce. *)

From Equations Require Import Equations.
From Stdlib Require Import List Sorted ZArith QArith Qround Qminmax Bool String Lia Lqa.
From Stdlib Require Import Ascii.
From Stdlib Require DecimalString DecimalN.
Import ListNotations.

Set Implicit Arguments.

(* ===================================================================== *)
(** * Python primitives used by the two modules *)
(* ===================================================================== *)

Module Py.

(** Exceptions that the modelled code can raise.  The three snmpsim classes
    come from [snmpsim.error]; [NoDataNotification] and
    [MoreDataNotification] derive from [SnmpsimError]. *)
Inductive exn : Type :=
| KeyError
| TypeError
| ValueError
| IndexError
| ZeroDivisionError
| SnmpsimError
| NoDataNotification
| MoreDataNotification (period : Q).

(** [isinstance(e, error.SnmpsimError)]: what [except error.SnmpsimError]
    catches. *)
Definition is_SnmpsimError (e : exn) : bool :=
  match e with
  | SnmpsimError | NoDataNotification | MoreDataNotification _ => true
  | _ => false
  end.

Inductive result (A : Type) : Type :=
| Ok (a : A)
| Raise (e : exn).
Arguments Ok {A} a.
Arguments Raise {A} e.

Definition bind {A B} (r : result A) (k : A -> result B) : result B :=
  match r with
  | Ok a => k a
  | Raise e => Raise e
  end.

Declare Scope py_scope.
Delimit Scope py_scope with py.
Notation "x <- c ;; k" := (bind c (fun x => k))
  (at level 61, c at next level, right associativity) : py_scope.

(** ** Numbers *)

Definition Qltb (x y : Q) : bool := negb (Qle_bool y x).

(** Truth value of a number: [if x:] holds when [x] is not zero. *)
Definition truthy_Q (x : Q) : bool := negb (Qeq_bool x 0).

(** [int(x)] on a float truncates toward zero. *)
Definition py_int (x : Q) : Z := Z.quot (Qnum x) (Zpos (Qden x)).

(** [x == int(x)]: the float holds a whole number. *)
Definition is_integral (x : Q) : bool := Qeq_bool (inject_Z (py_int x)) x.

(** [x / y] on floats. *)
Definition py_truediv (x y : Q) : result Q :=
  if Qeq_bool y 0 then Raise ZeroDivisionError else Ok (x / y).

(** [x % y] on floats: the result takes the sign of the divisor. *)
Definition py_mod (x y : Q) : result Q :=
  if Qeq_bool y 0 then Raise ZeroDivisionError
  else Ok (x - inject_Z (Qfloor (x / y)) * y).

(** ** Sequences *)

(** [a[i]]: a negative index counts from the end, an index out of range
    raises [IndexError]. *)
Definition py_index {A} (a : list A) (i : Z) : result A :=
  let n := Z.of_nat (List.length a) in
  let j := if (i <? 0)%Z then (i + n)%Z else i in
  if ((0 <=? j) && (j <? n))%Z%bool then
    match nth_error a (Z.to_nat j) with
    | Some x => Ok x
    | None => Raise IndexError
    end
  else Raise IndexError.

(** The loop of [bisect.bisect_right]:
    [while lo < hi: mid = (lo+hi)//2; if x < a[mid]: hi = mid else: lo = mid+1]. *)
Equations? bisect_loop (a : list Z) (x : Z) (lo hi : nat) : nat
  by wf (hi - lo)%nat lt :=
  bisect_loop a x lo hi with lt_dec lo hi => {
    | right _ := lo
    | left _ with Z.ltb x (nth ((lo + hi) / 2) a 0%Z) => {
       | true := bisect_loop a x lo ((lo + hi) / 2)%nat
       | false := bisect_loop a x (S ((lo + hi) / 2)) hi } }.
Proof.
  all: change (fst (Nat.divmod (lo + hi) 1 0 1)) with ((lo + hi) / 2)%nat;
       assert (lo <= (lo + hi) / 2 < hi)%nat
         by (split; [apply Nat.div_le_lower_bound
                    | apply Nat.Div0.div_lt_upper_bound]; lia);
       lia.
Qed.

(** [bisect.bisect(a, x)], that is [bisect_right(a, x, 0, len(a))]. *)
Definition bisect (a : list Z) (x : Z) : nat := bisect_loop a x 0 (List.length a).

(** ** Dictionaries

    A [dict] keeps its keys in insertion order (Python 3.7 and later):
    assigning to a key that is present replaces the value in place, and a new
    key goes to the end. *)
Section Dict.
Context {K V : Type} (eqb : K -> K -> bool).

Definition dict := list (K * V).

(** [d[k]] when [k in d] *)
Fixpoint dict_get (d : dict) (k : K) : option V :=
  match d with
  | [] => None
  | (k', v) :: d' => if eqb k k' then Some v else dict_get d' k
  end.

(** [d[k] = v] *)
Fixpoint dict_set (d : dict) (k : K) (v : V) : dict :=
  match d with
  | [] => [(k, v)]
  | (k', v') :: d' =>
      if eqb k k' then (k', v) :: d' else (k', v') :: dict_set d' k v
  end.

(** [list(d)] *)
Definition dict_keys (d : dict) : list K := map fst d.
End Dict.

(** ** Random numbers

    [random.randrange(start, stop)] as the module calls it, with [float]
    arguments (the Python versions the module was written for accept a float
    that holds a whole number): both bounds must be whole, the range must not
    be empty, and the result is [start + _randbelow(stop - start)].  The
    generator's raw output [r] stands for the random bits: [_randbelow(n)] is
    [r mod n]. *)
Definition randrange (start stop : Q) (r : N) : result Z :=
  if negb (is_integral start) then Raise ValueError
  else if negb (is_integral stop) then Raise ValueError
  else
    let width := (py_int stop - py_int start)%Z in
    if (0 <? width)%Z then Ok (py_int start + Z.of_N r mod width)%Z
    else Raise ValueError.

(** ** Text

    ['%d' % z] *)
Definition decimal (z : Z) : string :=
  DecimalString.NilZero.string_of_int (Z.to_int z).

(** ['0' * n] *)
Fixpoint zeros (n : nat) : string :=
  match n with
  | O => EmptyString
  | S n' => String "0"%char (zeros n')
  end.

(** ['%.5d' % z]: at least five digits, after the sign. *)
Definition decimal5 (z : Z) : string :=
  let digits :=
    DecimalString.NilZero.string_of_uint (N.to_uint (Z.abs_N z)) in
  ((if (z <? 0)%Z then "-" else "")
   ++ zeros (5 - String.length digits) ++ digits)%string.

(** [s.replace(a, b)] for one-character [a] and [b] *)
Fixpoint replace_char (a b : ascii) (s : string) : string :=
  match s with
  | EmptyString => EmptyString
  | String c s' =>
      String (if Ascii.eqb c a then b else c) (replace_char a b s')
  end.

(** ** Dictionaries filled by a loop

    [for x in l: d[key(x)] = val(x)] *)
Definition fill {K V A : Type} (eqb : K -> K -> bool) (key : A -> K)
    (val : A -> V) (l : list A) (d : dict (K:=K) (V:=V)) : dict :=
  fold_left (fun m x => dict_set eqb m (key x) (val x)) l d.

(** ** Reading a number in a text *)

(** [s.endswith(suffix)] *)
Definition endswith (s suffix : string) : bool :=
  (String.length suffix <=? String.length s)%nat &&
  (substring (String.length s - String.length suffix)
             (String.length suffix) s =? suffix)%string.

(** [s[:-k]] for [k >= 1]: the text without its last [k] characters, empty
    when it has no more than [k]. *)
Definition drop_last (k : nat) (s : string) : string :=
  substring 0 (String.length s - k) s.

(** The characters that [str.strip] and [int] skip. *)
Definition is_space (c : ascii) : bool :=
  let n := nat_of_ascii c in
  ((9 <=? n)%nat && (n <=? 13)%nat) || ((28 <=? n)%nat && (n <=? 32)%nat).

Fixpoint lstrip (l : list ascii) : list ascii :=
  match l with
  | [] => []
  | c :: l' => if is_space c then lstrip l' else l
  end.

Definition strip (l : list ascii) : list ascii :=
  rev (lstrip (rev (lstrip l))).

Definition digit_of (c : ascii) : option Z :=
  let n := nat_of_ascii c in
  if ((48 <=? n)%nat && (n <=? 57)%nat)%bool then Some (Z.of_nat (n - 48))
  else None.

(** The digits of a decimal literal: at least one, with single underscores
    allowed between two digits. *)
Fixpoint digits (acc : Z) (after_digit : bool) (l : list ascii) : result Z :=
  match l with
  | [] => if after_digit then Ok acc else Raise ValueError
  | c :: l' =>
      match digit_of c with
      | Some d => digits (10 * acc + d) true l'
      | None =>
          if (Ascii.eqb c "_" && after_digit)%bool then digits acc false l'
          else Raise ValueError
      end
  end.

(** [int(s)] on a text: blanks around, a sign, decimal digits. *)
Definition int_of_str (s : string) : result Z :=
  match strip (list_ascii_of_string s) with
  | [] => Raise ValueError
  | c :: l =>
      if Ascii.eqb c "-" then bind (digits 0 false l) (fun n => Ok (- n)%Z)
      else if Ascii.eqb c "+" then digits 0 false l
      else digits 0 false (c :: l)
  end.

End Py.

(* ===================================================================== *)
(** * [snmpsim/variation/delay.py] *)
(* ===================================================================== *)

Module Delay.
Import Py.
Local Open Scope py_scope.
Local Open Scope Q_scope.

Definition oid := list Z.
Definition tag := string.

(** What the module asks of the SNMP values it compares: [==] (with the
    hash that goes with it, for dictionary keys), [<] and [>]. *)
Class SnmpValue (V : Type) : Type := {
  v_eqb : V -> V -> bool;
  v_ltb : V -> V -> bool;
  v_gtb : V -> V -> bool
}.

#[export] Instance Z_SnmpValue : SnmpValue Z :=
  {| v_eqb := Z.eqb; v_ltb := Z.ltb; v_gtb := Z.gtb |}.

(** The [vlist] and [tlist] tables once parsed: the dictionary under ["eq"]
    and the [(threshold, delay)] pairs under ["lt"] and ["gt"]; a key is
    absent until an entry with that operator is read. *)
Record overrides (K : Type) : Type := {
  ov_eq : option (dict (K:=K) (V:=Z));
  ov_lt : option (K * Z);
  ov_gt : option (K * Z)
}.

Definition no_overrides {K} : overrides K :=
  {| ov_eq := None; ov_lt := None; ov_gt := None |}.

(** One turn of the [while] loops of lines 55-77 and 87-106, on the entry
    [o, v, d] already converted.  An operator other than [eq], [lt], [gt] is
    logged and leaves the three tables as they are. *)
Definition add_override {K} (eqb : K -> K -> bool)
    (t : overrides K) (e : string * K * Z) : overrides K :=
  let '(o, v, d) := e in
  if (o =? "eq")%string then
    {| ov_eq := Some (dict_set eqb
                        (match ov_eq t with Some m => m | None => [] end) v d);
       ov_lt := ov_lt t; ov_gt := ov_gt t |}
  else if (o =? "lt")%string then
    {| ov_eq := ov_eq t; ov_lt := Some (v, d); ov_gt := ov_gt t |}
  else if (o =? "gt")%string then
    {| ov_eq := ov_eq t; ov_lt := ov_lt t; ov_gt := Some (v, d) |}
  else t.

Definition build_overrides {K} (eqb : K -> K -> bool)
    (l : list (string * K * Z)) : overrides K :=
  fold_left (add_override eqb) l no_overrides.

(** The fixed value of a record: the text after [value=], or the bytes of
    [hexvalue=]. *)
Inductive fixed : Type :=
| FixedText (s : string)
| FixedBytes (l : list Z).

Section WithValue.
Context {V : Type} `{SnmpValue V}.

(** The record's value string once split on [,], [=] and [:] and with its
    numbers converted ([snmpsim.utils.split], [float], [int] and the
    grammar's [TAG_MAP] do that, outside this module). *)
Record raw : Type := {
  r_hexvalue : option (list Z);
  r_value : option string;
  r_wait : option Q;
  r_deviation : option Q;
  r_vlist : option (list (string * V * Z));
  r_tlist : option (list (string * Z * Z))
}.

(** [recordContext['settings']] *)
Record settings : Type := {
  value : option fixed;
  wait : Q;
  deviation : Q;
  vlist : option (overrides V);
  tlist : option (overrides Z)
}.

(** Lines 26-108. *)
Definition parse (v : raw) : settings :=
  {| value := match r_hexvalue v with
              | Some l => Some (FixedBytes l)
              | None => option_map FixedText (r_value v)
              end;
     wait := match r_wait v with Some w => w | None => 500 end;
     deviation := match r_deviation v with Some d => d | None => 0 end;
     vlist := option_map (build_overrides v_eqb) (r_vlist v);
     tlist := option_map (build_overrides Z.eqb) (r_tlist v) |}.

Record context : Type := {
  origOid : oid;
  origValue : V;
  errorStatus : V;
  setFlag : bool;
  nextFlag : bool;
  exactMatch : bool
}.

(** What [variate] hands back as the value. *)
Inductive retval : Type :=
| Echo (v : V)
| Fixed (f : fixed).

(** What a call does besides returning. *)
Inductive event : Type :=
| ReadClock
| DrewRandom
| Slept (seconds : Q).

(** The [elif ... 'lt' ...: elif ... 'gt' ...: else:] tail that the two
    blocks share: [below th] is [x < th] and [above th] is [x > th] for the
    value [x] under test. *)
Definition lt_gt_else {K} (t : overrides K) (below above : K -> bool)
    (s : settings) : Q :=
  let tail :=
    match ov_gt t with
    | Some (th, d) => if above th then inject_Z d else wait s
    | None => wait s
    end in
  match ov_lt t with
  | Some (th, d) => if below th then inject_Z d else tail
  | None => tail
  end.

(** Lines 111-124: the block taken when [setFlag] holds and [vlist] is
    configured. *)
Definition select_vlist (s : settings) (vl : overrides V) (v : V) : Q :=
  match (match ov_eq vl with
         | Some m => dict_get v_eqb m v
         | None => None
         end) with
  | Some d => inject_Z d
  | None => lt_gt_else vl (v_ltb v) (v_gtb v) s
  end.

(** [now == tlist['eq']] at line 129 compares an [int] with the dictionary
    itself: neither side knows the other's type, so [==] is [False]. *)
Definition int_eq_dict (n : Z) (m : dict (K:=Z) (V:=Z)) : bool := false.

(** Lines 127-141: the block taken otherwise when [tlist] is configured. *)
Definition select_tlist (s : settings) (tl : overrides Z) (now : Z)
  : result Q :=
  match ov_eq tl with
  | Some m =>
      if int_eq_dict now m then
        match dict_get Z.eqb m now with
        | Some d => Ok (inject_Z d)
        | None => Raise KeyError
        end
      else Ok (lt_gt_else tl (Z.ltb now) (Z.gtb now) s)
  | None => Ok (lt_gt_else tl (Z.ltb now) (Z.gtb now) s)
  end.

(** Lines 110-144.  The clock is read in the [tlist] block only. *)
Definition select_delay (ctx : context) (s : settings) (now : Q)
  : result Q * list event :=
  match (if setFlag ctx then vlist s else None) with
  | Some vl => (Ok (select_vlist s vl (origValue ctx)), [])
  | None =>
      match tlist s with
      | Some tl => (select_tlist s tl (py_int now), [ReadClock])
      | None => (Ok (wait s), [])
      end
  end.
(** A computation of the module: its result, or the exception it raises,
    with what it did on the way. *)
Definition eff (A : Type) : Type := (result A * list event)%type.

Definition eff_bind {A B} (c : eff A) (k : A -> eff B) : eff B :=
  match fst c with
  | Ok a => (fst (k a), snd c ++ snd (k a))
  | Raise e => (Raise e, snd c)
  end.

Notation "x <~ c ;; k" := (eff_bind c (fun x => k))
  (at level 61, c at next level, right associativity).

(** Lines 146-149.  The generator is consulted once [randrange] has
    accepted its bounds. *)
Definition add_jitter (s : settings) (delay : Q) (r : N) : eff Q :=
  if truthy_Q (deviation s) then
    match randrange (- deviation s) (deviation s) r with
    | Ok j => (Ok (delay + inject_Z j), [DrewRandom])
    | Raise e => (Raise e, [])
    end
  else (Ok delay, []).

(** Lines 158-166: sleep, then answer. *)
Definition respond (o : oid) (t : tag) (ctx : context) (s : settings)
    (delay : Q) : eff (oid * tag * retval) :=
  (Ok (o, t,
       match value s with
       | Some f => if setFlag ctx then Echo (origValue ctx) else Fixed f
       | None => Echo (origValue ctx)
       end),
   [Slept (delay / 1000)]).

(** Lines 151-166. *)
Definition finish (o : oid) (t : tag) (ctx : context) (s : settings)
    (delay : Q) : eff (oid * tag * retval) :=
  if Qltb delay 0 then respond o t ctx s 0
  else if Qltb 99999 delay then (Raise NoDataNotification, [])
  else respond o t ctx s delay.

(** The delay once an override is selected and the jitter added
    (lines 110-149). *)
Definition computed_delay (ctx : context) (s : settings) (now : Q) (r : N)
  : eff Q :=
  d <~ select_delay ctx s now ;; add_jitter s d r.

(** Lines 25-108: the settings are parsed on first use and kept. *)
Definition cached (rc : option settings) (v : raw) : settings :=
  match rc with
  | Some s => s
  | None => parse v
  end.

(** [variate(oid, tag, value, **context)], on the record's cached settings
    [rc] ([None] until they are parsed), the reading [now] of the clock
    and the generator's output [r]. *)
Definition variate (o : oid) (t : tag) (v : raw) (ctx : context)
    (now : Q) (r : N) (rc : option settings)
  : result (oid * tag * retval) * option settings * list event :=
  if negb (nextFlag ctx) && negb (exactMatch ctx) then
    (Ok (origOid ctx, t, Echo (errorStatus ctx)), rc, [])
  else
    let s := cached rc v in
    let run := d <~ computed_delay ctx s now r ;; finish o t ctx s d in
    (fst run, Some s, snd run).

(** The delay that is slept: a negative one counts as none (line 151). *)
Definition clamp (delay : Q) : Q := if Qltb delay 0 then 0 else delay.

(** ** Vocabulary of the properties *)

(** ['eq' in t and x in t['eq']], with the delay found there. *)
Definition eq_entry {K} (eqb : K -> K -> bool) (t : overrides K) (x : K)
  : option Z :=
  match ov_eq t with
  | Some m => dict_get eqb m x
  | None => None
  end.

(** ['lt' in t and x < t['lt'][0]] and ['gt' in t and x > t['gt'][0]]. *)
Definition lt_entry {K} (below : K -> bool) (t : overrides K) : option Z :=
  match ov_lt t with
  | Some (th, d) => if below th then Some d else None
  | None => None
  end.

Definition gt_entry {K} (above : K -> bool) (t : overrides K) : option Z :=
  match ov_gt t with
  | Some (th, d) => if above th then Some d else None
  | None => None
  end.

(** The jitters that the outputs [0 .. 2 D - 1] of the generator give. *)
Definition jitters (D : Q) : list (result Z) :=
  map (fun k => randrange (- D) D (N.of_nat k))
      (seq 0 (Z.to_nat (2 * py_int D))).

(** The jitter property in the specification's words, for one request: with
    a deviation [D > 0] the jitter is an integer of [[-D, D)] and the delay
    slept lies in [[max(0, W - D), W + D)], [W] being the base wait. *)
Definition stated_jitter_range (ctx : context) (s : settings) (now : Q)
    (r : N) : Prop :=
  0 < deviation s ->
  exists (d0 : Q) (ev : list event) (j : Z) (d : Q),
    select_delay ctx s now = (Ok d0, ev) /\
    randrange (- deviation s) (deviation s) r = Ok j /\
    fst (add_jitter s d0 r) = Ok d /\
    - deviation s <= inject_Z j /\ inject_Z j < deviation s /\
    Qmax 0 (wait s - deviation s) <= clamp d /\
    clamp d < wait s + deviation s.
End WithValue.

Arguments raw V : clear implicits.
Arguments settings V : clear implicits.
Arguments context V : clear implicits.
Arguments retval V : clear implicits.

(** ** Sample requests and records, with integer values *)

Definition sample_oid : oid := [1; 3; 6; 1; 2; 1; 1; 3; 0]%Z.

Definition read_request : context Z :=
  {| origOid := sample_oid; origValue := 0%Z; errorStatus := (-1)%Z;
     setFlag := false; nextFlag := false; exactMatch := true |}.

Definition write_request (v : Z) : context Z :=
  {| origOid := sample_oid; origValue := v; errorStatus := (-1)%Z;
     setFlag := true; nextFlag := false; exactMatch := true |}.

(** A direct read that the prior lookup did not match exactly. *)
Definition inexact_read_request : context Z :=
  {| origOid := sample_oid; origValue := 0%Z; errorStatus := (-1)%Z;
     setFlag := false; nextFlag := false; exactMatch := false |}.

Definition sample_raw (w d : option Q) (vl tl : option (list (string * Z * Z)))
  : raw Z :=
  {| r_hexvalue := None; r_value := None; r_wait := w; r_deviation := d;
     r_vlist := vl; r_tlist := tl |}.

(** [wait=100000] *)
Definition raw_slow : raw Z := sample_raw (Some 100000) None None None.

(** [vlist=eq:5:100] *)
Definition raw_vlist_eq : raw Z :=
  sample_raw None None (Some [("eq"%string, 5%Z, 100%Z)]) None.

(** [tlist=eq:1000:50] *)
Definition raw_tlist_eq : raw Z :=
  sample_raw None None None (Some [("eq"%string, 1000%Z, 50%Z)]).

(** [deviation=10,tlist=lt:1000000000:50] *)
Definition raw_tlist_lt_jitter : raw Z :=
  sample_raw None (Some 10) None (Some [("lt"%string, 1000000000%Z, 50%Z)]).

(** [wait=-5,deviation=2] *)
Definition raw_negative_wait : raw Z :=
  sample_raw (Some (-5)) (Some 2) None None.

(** [deviation=2.5] *)
Definition raw_fractional_deviation : raw Z :=
  sample_raw None (Some (5 # 2)) None None.

(** [wait=100,deviation=10] *)
Definition raw_jitter : raw Z := sample_raw (Some 100) (Some 10) None None.

(** ** [record], lines 169-185 *)

Record record_context : Type := {
  stopFlag : bool;
  (** [context['hexvalue']] when the key is there *)
  hexvalue : option string;
  reqTime : Q;
  (** [context['options']] when the key is there *)
  options : option string
}.

(** [int((time.time() - context['reqTime']) * 1000)] *)
Definition recorded_wait (now reqTime : Q) : Z :=
  py_int ((now - reqTime) * 1000).

(** [record(oid, tag, value, **context)], [now] being the reading of the
    clock. *)
Definition record (o : oid) (t : tag) (v : string) (ctx : record_context)
    (now : Q) : result (oid * tag * string) :=
  if stopFlag ctx then Raise NoDataNotification
  else
    let text_value :=
      match hexvalue ctx with
      | Some h => ("hexvalue=" ++ h)%string
      | None => ("value=" ++ v)%string
      end in
    let text_value :=
      (text_value ++ ",wait=" ++ decimal (recorded_wait now (reqTime ctx)))%string in
    let text_value :=
      match options ctx with
      | Some x => (text_value ++ "," ++ x)%string
      | None => text_value
      end in
    Ok (o, (t ++ ":delay")%string, text_value).

(** The record of [record] once tokenised, for a value recorded as text:
    [value=...,wait=w]. *)
Definition recorded_raw {V} (v : string) (w : Z) : raw V :=
  {| r_hexvalue := None; r_value := Some v; r_wait := Some (inject_Z w);
     r_deviation := None; r_vlist := None; r_tlist := None |}.

(** ** What a call slept *)

(** The durations, in seconds, of the calls of [time.sleep] among the
    events of a request. *)
Fixpoint slept (ev : list event) : list Q :=
  match ev with
  | [] => []
  | Slept q :: ev' => q :: slept ev'
  | _ :: ev' => slept ev'
  end.

(** The entry [e] of a [vlist] or [tlist] carries the operator [name]. *)
Definition is_op {K} (name : string) (e : string * K * Z) : Prop :=
  fst (fst e) = name.

(** [deviation=-3] and [wait=50,deviation=0,vlist=lt:10:7,tlist=gt:0:9] *)
Definition raw_negative_deviation : raw Z :=
  sample_raw None (Some (-3)) None None.

Definition raw_both_lists : raw Z :=
  sample_raw (Some 50) None (Some [("lt"%string, 10%Z, 7%Z)])
             (Some [("gt"%string, 0%Z, 9%Z)]).

End Delay.

(* ===================================================================== *)
(** * [snmpsim/variation/multiplex.py] *)
(* ===================================================================== *)

Module Multiplex.
Import Py.
Local Open Scope py_scope.
Local Open Scope Q_scope.

(** An [ObjectName] is a tuple of sub-identifiers. *)
Definition oid := list Z.
Definition tag := string.

Fixpoint oid_eqb (a b : oid) : bool :=
  match a, b with
  | [], [] => true
  | x :: a', y :: b' => (x =? y)%Z && oid_eqb a' b'
  | _, _ => false
  end.

(** The collaborators the module calls and does not define: the pysnmp
    values, the record codecs of [RECORD_SET], and the record index with the
    search functions of [snmpsim.record.search]. *)
Class Host : Type := {
  value : Type;
  parser : Type;
  text : Type;
  (** [int(v)] *)
  int_of_value : value -> result Z;
  (** [rfc1902.Integer32(n)] *)
  Integer32 : Z -> value;
  (** [parser.evaluate(line)] *)
  evaluate : parser -> string -> result (oid * value);
  (** [text.seek(offset); get_record(text)]: the line at [offset] (empty at
      the end of the file) and the offset after it *)
  get_record : text -> Z -> string * Z;
  (** [search_record_by_oid(oid, text, parser)] *)
  search_record_by_oid : oid -> text -> parser -> Z;
  (** [RecordIndex(datafile, parser).create()]: the handle on the text and
      the offset that [lookup] finds for an identifier ([None] for its
      [KeyError]) *)
  create : string -> parser -> text * (oid -> option Z)
}.

Section WithHost.
Context `{Host}.

(** An open [RecordIndex]. *)
Record RecordIndex : Type := {
  ri_text : text;
  ri_lookup : oid -> option Z
}.

(** [recordContext['settings']] once converted (lines 127-148). *)
Record settings : Type := {
  dir : string;
  period : Q;
  wrap : bool;
  control : option oid
}.

(** [bool(settings['wrap'])] on the text after [wrap=]: any text but the
    empty one is true; [False] when the key is absent (lines 134-139). *)
Definition wrap_flag (w : option string) : bool :=
  match w with
  | Some txt => negb (txt =? "")%string
  | None => false
  end.

(** Lines 127-132. *)
Definition period_of (p : option Q) : Q :=
  match p with
  | Some x => x
  | None => 60
  end.

(** Lines 127-148, on the texts found after [period=], [wrap=] and
    [control=] ([None] for a key that is absent), the first converted to a
    float and the last to an [ObjectName]. *)
Definition convert (d : string) (p : option Q) (w : option string)
    (c : option oid) : settings :=
  {| dir := d; period := period_of p; wrap := wrap_flag w; control := c |}.

(** [recordContext] once [ready]. *)
Record recordContext : Type := {
  rc_settings : settings;
  dirmap : dict (K:=Z) (V:=string);
  parsermap : dict (K:=string) (V:=parser);
  keys : list Z;
  bounds : Z * Z
}.

(** [min(l)] and [max(l)]: [ValueError] on an empty list. *)
Definition py_min (l : list Z) : result Z :=
  match l with
  | [] => Raise ValueError
  | x :: l' => Ok (fold_left Z.min l' x)
  end.

Definition py_max (l : list Z) : result Z :=
  match l with
  | [] => Raise ValueError
  | x :: l' => Ok (fold_left Z.max l' x)
  end.

(** Lines 110-125, on the files of the directory that end in a known
    extension, in the order [os.listdir] gives them, each with the number
    its name starts with, its path and its codec.  [keys] is [list(dirmap)]:
    the identifiers in the order they were first met. *)
Definition scan (s : settings) (files : list (Z * string * parser))
  : result recordContext :=
  let dm := fold_left (fun m f => dict_set Z.eqb m (fst (fst f)) (snd (fst f)))
                      files [] in
  let pm := fold_left (fun m f => dict_set String.eqb m (snd (fst f)) (snd f))
                      files [] in
  let ks := dict_keys dm in
  lo <- py_min ks ;;
  hi <- py_max ks ;;
  Ok {| rc_settings := s; dirmap := dm; parsermap := pm;
        keys := ks; bounds := (lo, hi) |}.

Record context : Type := {
  origOid : oid;
  origValue : value;
  errorStatus : value;
  setFlag : bool;
  nextFlag : bool
}.

(** [moduleContext[oid]]: the state of one subtree.  A field is [None]
    while its key is absent; line 156 creates the dictionary empty. *)
Record session : Type := {
  fileno : option Z;
  datafile : option string;
  datafileobj : option RecordIndex
}.

Definition empty_session : session :=
  {| fileno := None; datafile := None; datafileobj := None |}.

Definition set_fileno (ms : session) (n : Z) : session :=
  {| fileno := Some n; datafile := datafile ms;
     datafileobj := datafileobj ms |}.

(** ** The write path, lines 158-180 *)

(** What stands to the right of [in] at lines 159-161. *)
Inductive operand : Type :=
| OpSettings (s : settings)
| OpBool (b : bool).

(** A dictionary is true when it is not empty; the settings hold [dir],
    [period] and [wrap] at least. *)
Definition settings_truthy (s : settings) : bool := true.

(** [recordContext['settings'] and
     recordContext['settings']['control'] == context['origOid']]:
    the right operand is evaluated when the left one is true, and
    subscripting an absent key raises [KeyError]. *)
Definition settings_and_control_matches (s : settings) (ctx : context)
  : result operand :=
  if settings_truthy s then
    match control s with
    | Some c => Ok (OpBool (oid_eqb c (origOid ctx)))
    | None => Raise KeyError
    end
  else Ok (OpSettings s).

(** ['control' in x]: membership in a dictionary tests its keys; a [bool]
    is not a container and [in] raises [TypeError]. *)
Definition control_in (x : operand) : result bool :=
  match x with
  | OpSettings s => Ok (match control s with Some _ => true | None => false end)
  | OpBool _ => Raise TypeError
  end.

(** Lines 159-180. *)
Definition write (t : tag) (ctx : context) (rc : recordContext)
    (ms : session) : result (oid * tag * value) * session :=
  match (x <- settings_and_control_matches (rc_settings rc) ctx ;;
         control_in x) with
  | Raise e => (Raise e, ms)
  | Ok false => (Ok (origOid ctx, t, errorStatus ctx), ms)
  | Ok true =>
      match int_of_value (origValue ctx) with
      | Raise e => (Raise e, ms)
      | Ok n =>
          if (n >=? Z.of_nat (List.length (keys rc)))%Z then
            (Ok (origOid ctx, t, errorStatus ctx), ms)
          else
            let ms' := set_fileno ms n in
            (* the log message subscripts [keys] and [dirmap] *)
            match (k <- py_index (keys rc) n ;;
                   match dict_get Z.eqb (dirmap rc) k with
                   | Some f => Ok f
                   | None => Raise KeyError
                   end) with
            | Raise e => (Raise e, ms')
            | Ok _ => (Ok (origOid ctx, t, origValue ctx), ms')
            end
      end
  end.

(** ** Choosing the snapshot, lines 182-206 *)

(** Lines 194-201: the index into [keys] for the reading [now] of the
    clock, [booted] being [moduleContext['booted']]. *)
Definition candidate (rc : recordContext) (now booted : Q) : result Z :=
  let period := period (rc_settings rc) in
  let uptime := now - booted in
  timeslot <- py_mod uptime
                (period * inject_Z (Z.of_nat (List.length (dirmap rc)))) ;;
  q <- py_truediv timeslot period ;;
  let fileslot := (py_int q + fst (bounds rc))%Z in
  Ok (Z.of_nat (bisect (keys rc) fileslot) - 1)%Z.

(** Lines 203-206. *)
Definition update_fileno (wrap : bool) (ms : session) (n : Z) : session :=
  if match fileno ms with
     | None => true
     | Some old => (old <? n)%Z || wrap
     end
  then set_fileno ms n
  else ms.

(** The outcome of lines 182-206: the answer to a read of the control
    identifier, or the session to go on with. *)
Inductive chosen : Type :=
| Answer (v : value)
| GoOn.

Definition choose (ctx : context) (rc : recordContext) (now booted : Q)
    (ms : session) : result chosen * session :=
  match control (rc_settings rc) with
  | Some c =>
      let n := match fileno ms with Some n => n | None => 0%Z end in
      let ms' := match fileno ms with
                 | Some _ => ms
                 | None => set_fileno ms 0
                 end in
      if negb (nextFlag ctx) && oid_eqb c (origOid ctx) then
        (Ok (Answer (Integer32 n)), ms')
      else (Ok GoOn, ms')
  | None =>
      match candidate rc now booted with
      | Raise e => (Raise e, ms)
      | Ok n => (Ok GoOn, update_fileno (wrap (rc_settings rc)) ms n)
      end
  end.

(** ** Opening the snapshot, lines 208-227

    The index of the file that [fileno] designates: the one already open
    when it is the same file, a fresh one otherwise (the previous index is
    closed). *)
Definition subscript {K V} (eqb : K -> K -> bool) (d : dict (K:=K) (V:=V))
    (k : K) : result V :=
  match dict_get eqb d k with
  | Some v => Ok v
  | None => Raise KeyError
  end.

Definition open_datafile (rc : recordContext) (ms : session)
  : result (parser * RecordIndex) * session :=
  match (n <- match fileno ms with
              | Some n => Ok n
              | None => Raise KeyError
              end ;;
         k <- py_index (keys rc) n ;;
         f <- subscript Z.eqb (dirmap rc) k ;;
         p <- subscript String.eqb (parsermap rc) f ;;
         Ok (f, p)) with
  | Raise e => (Raise e, ms)
  | Ok (f, p) =>
      if match datafile ms with
         | Some f' => negb (f' =? f)%string
         | None => true
         end
      then
        let idx := {| ri_text := fst (create f p);
                      ri_lookup := snd (create f p) |} in
        (Ok (p, idx),
         {| fileno := fileno ms; datafile := Some f;
            datafileobj := Some idx |})
      else
        match datafileobj ms with
        | Some idx => (Ok (p, idx), ms)
        | None => (Raise KeyError, ms)
        end
  end.

(** ** Resolving the identifier, lines 229-266 *)

(** Lines 234-243: the offset of the record, and whether the identifier
    itself was found. *)
Definition locate (ctx : context) (p : parser) (idx : RecordIndex)
  : Z * bool :=
  match ri_lookup idx (origOid ctx) with
  | Some offset => (offset, true)
  | None => (search_record_by_oid (origOid ctx) (ri_text idx) p, false)
  end.

(** Lines 257-266. *)
Definition decode (t : tag) (ctx : context) (p : parser) (line : string)
  : result (oid * tag * value) :=
  if (line =? "")%string then Ok (origOid ctx, t, errorStatus ctx)
  else
    match evaluate p line with
    | Ok (o, v) => Ok (o, t, v)
    | Raise e =>
        if is_SnmpsimError e then Ok (origOid ctx, t, errorStatus ctx)
        else Raise e
    end.

(** Lines 245-266. *)
Definition answer (t : tag) (ctx : context) (p : parser)
    (idx : RecordIndex) (offset : Z) (exactMatch : bool)
  : result (oid * tag * value) :=
  let '(line, after) := get_record (ri_text idx) offset in
  if nextFlag ctx then
    if exactMatch then decode t ctx p (fst (get_record (ri_text idx) after))
    else decode t ctx p line
  else
    if negb exactMatch then Ok (origOid ctx, t, errorStatus ctx)
    else decode t ctx p line.

(** ** [variate], lines 152-266

    [rc] is [None] while [recordContext] is not [ready]; [now] is the
    reading of the clock and [booted] is [moduleContext['booted']]. *)
Definition variate (t : tag) (ctx : context) (now booted : Q)
    (rc : option recordContext) (ms : session)
  : result (oid * tag * value) * session :=
  match rc with
  | None => (Ok (origOid ctx, t, errorStatus ctx), ms)
  | Some rc =>
      if setFlag ctx then write t ctx rc ms
      else
        match choose ctx rc now booted ms with
        | (Raise e, ms1) => (Raise e, ms1)
        | (Ok (Answer v), ms1) => (Ok (origOid ctx, t, v), ms1)
        | (Ok GoOn, ms1) =>
            match open_datafile rc ms1 with
            | (Raise e, ms2) => (Raise e, ms2)
            | (Ok (p, idx), ms2) =>
                (answer t ctx p idx (fst (locate ctx p idx))
                        (snd (locate ctx p idx)), ms2)
            end
        end
  end.

(** A request: its context, the tag of the record and the time it is
    served at. *)
Record request : Type := {
  rq_tag : tag;
  rq_ctx : context;
  rq_now : Q
}.

(** The states of a subtree's session after each request of a sequence. *)
Fixpoint run (booted : Q) (rc : option recordContext) (reqs : list request)
    (ms : session) : list session :=
  match reqs with
  | [] => []
  | rq :: rest =>
      let ms' := snd (variate (rq_tag rq) (rq_ctx rq) (rq_now rq) booted rc ms) in
      ms' :: run booted rc rest ms'
  end.

(** The snapshot a session reads: [keys[fileno]]. *)
Definition current_file_id (rc : recordContext) (ms : session)
  : option Z :=
  match fileno ms with
  | Some n => match py_index (keys rc) n with
              | Ok k => Some k
              | Raise _ => None
              end
  | None => None
  end.

(** ** [record] on a stop signal, lines 270-297

    [moduleContext] in recording mode; the open output file is known by
    its path. *)
Record recording : Type := {
  ready : bool;
  started : option Q;
  file : option string;
  filenum : option Z;
  iterations : option Z;
  rec_period : option Q
}.

(** [max(0, x)] *)
Definition max0 (x : Q) : Q := if Qltb 0 x then x else 0.

(** [record(oid, tag, value, **context)] when [context['stopFlag']] is
    set: every path leaves by raising.  [clock k] is the reading of the
    [k]-th call of [time.time()] made; the result carries the exception,
    the state left behind and the files closed. *)
Definition record_stop (clock : nat -> Q) (mc : recording)
  : exn * recording * list string :=
  if negb (ready mc) then (SnmpsimError, mc, [])
  else
    (* lines 273-274 *)
    let k := match started mc with Some _ => 0%nat | None => 1%nat end in
    let started1 := match started mc with
                    | Some t0 => Some t0
                    | None => Some (clock 0%nat)
                    end in
    (* lines 277-282 *)
    let closed := match file mc with Some f => [f] | None => [] end in
    let filenum1 := match file mc with
                    | Some _ => filenum mc
                    | None => Some 0%Z
                    end in
    let mc1 := {| ready := ready mc; started := started1; file := None;
                  filenum := filenum1; iterations := iterations mc;
                  rec_period := rec_period mc |} in
    (* lines 284-297 *)
    match iterations mc with
    | None => (NoDataNotification, mc1, closed)
    | Some n =>
        if (n =? 0)%Z then (NoDataNotification, mc1, closed)
        else
          let mc2 := {| ready := ready mc; started := Some (clock k);
                        file := None; filenum := filenum1;
                        iterations := Some (n - 1)%Z;
                        rec_period := rec_period mc |} in
          match filenum1 with
          | None => (KeyError, mc2, closed)
          | Some fnum =>
              let mc3 := {| ready := ready mc; started := Some (clock k);
                            file := None; filenum := Some (fnum + 1)%Z;
                            iterations := Some (n - 1)%Z;
                            rec_period := rec_period mc |} in
              match rec_period mc with
              | None => (KeyError, mc3, closed)
              | Some p =>
                  (MoreDataNotification
                     (max0 (p - (clock (S k) - clock k))), mc3, closed)
              end
          end
    end.
(** ** Vocabulary of the properties *)

(** The condition of lines 203-205 for [fileno] to be overwritten with the
    candidate [n]. *)
Definition overwrite_allowed (wrap : bool) (ms : session) (n : Z) : Prop :=
  fileno ms = None \/
  (exists old, fileno ms = Some old /\ (old < n)%Z) \/
  wrap = true.

(** The order on the successive values of [fileno]: absent at first, then
    never lower. *)
Definition fileno_le (a b : option Z) : Prop :=
  match a, b with
  | None, _ => True
  | Some x, Some y => (x <= y)%Z
  | Some _, None => False
  end.

(** [recordContext] after the first call: [ready] when the scan went
    through. *)
Definition ready_after (r : result recordContext) : option recordContext :=
  match r with
  | Ok rc => Some rc
  | Raise _ => None
  end.
End WithHost.

(** ** A sample host, sample snapshots and sample requests

    Values are integers; a codec is named by its extension; a data file is
    the list of its lines and an offset is the number of a line. *)

Definition uptime_oid : oid := [1; 3; 6; 1; 2; 1; 1; 3; 0]%Z.
Definition garbled_oid : oid := [1; 3; 6; 1; 2; 1; 1; 4; 0]%Z.
Definition absent_oid : oid := [1; 3; 6; 1; 2; 1; 1; 2; 0]%Z.
Definition control_oid : oid := [1; 3; 6; 1; 4; 1; 20408; 999; 1]%Z.

Definition sample_lines : list string :=
  ["1.3.6.1.2.1.1.3.0|67|100"; "1.3.6.1.2.1.1.4.0|4x|"]%string.

Definition sample_evaluate (p : string) (line : string) : result (oid * Z) :=
  if (line =? "1.3.6.1.2.1.1.3.0|67|100")%string then Ok (uptime_oid, 100%Z)
  else Raise SnmpsimError.

Definition sample_lookup (o : oid) : option Z :=
  if oid_eqb o uptime_oid then Some 0%Z
  else if oid_eqb o garbled_oid then Some 1%Z
  else None.

Definition sample_host : Host :=
  {| value := Z;
     parser := string;
     text := list string;
     int_of_value := fun v => Ok v;
     Integer32 := fun n => n;
     evaluate := sample_evaluate;
     get_record := fun txt offset =>
       (nth (Z.to_nat offset) txt ""%string, (offset + 1)%Z);
     search_record_by_oid := fun o txt p =>
       if oid_eqb o absent_oid then 0%Z else Z.of_nat (List.length txt);
     create := fun f p => (sample_lines, sample_lookup) |}.

(** [dir=snapshots,period=10], with or without [control=...] *)
Definition sample_settings (c : option oid) : @settings :=
  convert "snapshots" (Some 10) None c.

Definition snapshot (n : Z) (name : string) : Z * string * string :=
  (n, name, "snmprec"%string).

(** The directory listed in the order of the file names, and in the reverse
    order. *)
Definition listing_ascending : list (Z * string * string) :=
  [snapshot 0 "snapshots/00000.snmprec"; snapshot 1 "snapshots/00001.snmprec";
   snapshot 2 "snapshots/00002.snmprec"; snapshot 3 "snapshots/00003.snmprec"].

Definition listing_descending : list (Z * string * string) :=
  rev listing_ascending.

(** The same directory listed in the order 1, 2, 3, 0. *)
Definition listing_rotated : list (Z * string * string) :=
  [snapshot 1 "snapshots/00001.snmprec"; snapshot 2 "snapshots/00002.snmprec";
   snapshot 3 "snapshots/00003.snmprec"; snapshot 0 "snapshots/00000.snmprec"].

Definition sample_rc (c : option oid) (files : list (Z * string * string))
  : option (@recordContext sample_host) :=
  ready_after (@scan sample_host (sample_settings c) files).

Definition sample_value (z : Z) : @value sample_host := z.

(** The same, with an empty context standing for a scan that failed. *)
Definition scanned (c : option oid) (files : list (Z * string * string))
  : @recordContext sample_host :=
  match sample_rc c files with
  | Some rc => rc
  | None => {| rc_settings := sample_settings c; dirmap := []; parsermap := [];
               keys := []; bounds := (0%Z, 0%Z) |}
  end.

Definition sample_read (o : oid) : @context sample_host :=
  {| origOid := o; origValue := sample_value 0;
     errorStatus := sample_value (-1);
     setFlag := false; nextFlag := false |}.

Definition sample_write (o : oid) (v : Z) : @context sample_host :=
  {| origOid := o; origValue := sample_value v;
     errorStatus := sample_value (-1);
     setFlag := true; nextFlag := false |}.

Definition sample_request (now : Q) : @request sample_host :=
  {| rq_tag := "67"%string; rq_ctx := sample_read uptime_oid; rq_now := now |}.

Section Invariants.
Context `{Host}.

(** What holds of the session of a subtree between requests: [fileno],
    once set, is an index that [keys] accepts (a negative one counts from
    the end), and an open index goes with the name of its file. *)
Definition session_ok (rc : recordContext) (ms : session) : Prop :=
  (forall n, fileno ms = Some n ->
             (- Z.of_nat (List.length (keys rc)) <= n
              < Z.of_nat (List.length (keys rc)))%Z) /\
  (forall f, datafile ms = Some f -> exists idx, datafileobj ms = Some idx).

(** The exceptions that successive stop signals raise, the [i]-th call of
    [record] reading the clock [nth i clocks]. *)
Fixpoint stop_signals (clocks : list (nat -> Q)) (mc : recording)
  : list exn :=
  match clocks with
  | [] => []
  | c :: rest =>
      fst (fst (record_stop c mc))
      :: stop_signals rest (snd (fst (record_stop c mc)))
  end.

(** The state left by successive stop signals. *)
Fixpoint after_stops (clocks : list (nat -> Q)) (mc : recording)
  : recording :=
  match clocks with
  | [] => mc
  | c :: rest => after_stops rest (snd (fst (record_stop c mc)))
  end.
End Invariants.

(** ** The number in the name of a snapshot file

    Line 117, [int(os.path.basename(fl)[:-len(ext) - 1])], for a name [fl]
    of the listing (it has no directory part, so it is its own base name)
    that line 115 found to end in [ext]. *)
Definition ident (fl ext : string) : result Z :=
  int_of_str (drop_last (String.length ext + 1) fl).

(** ** The listing of the directory, lines 113-119 *)

Section Listing.
Context `{Host}.

(** [RECORD_SET] (lines 31-38), keyed by extension, and [os.path.join]. *)
Variable RECORD_SET : dict (K:=string) (V:=parser).
Variable path_join : string -> string -> string.

(** Lines 114-119, the loop on the extensions for the name [fl] of the
    listing of [d], from the extension [exts] starts with; [files] holds
    the files registered before, each with its number, path and codec. *)
Fixpoint register (d fl : string) (exts : list string)
    (files : list (Z * string * parser))
  : result (list (Z * string * parser)) :=
  match exts with
  | [] => Ok files
  | ext :: rest =>
      if negb (endswith fl ext) then register d fl rest files
      else
        n <- ident fl ext ;;
        p <- subscript String.eqb RECORD_SET ext ;;
        register d fl rest (files ++ [(n, path_join d fl, p)])
  end.

(** Lines 113-119, on the names that [os.listdir(d)] gives. *)
Fixpoint listed (d : string) (names : list string)
    (files : list (Z * string * parser))
  : result (list (Z * string * parser)) :=
  match names with
  | [] => Ok files
  | fl :: rest =>
      files' <- register d fl (dict_keys RECORD_SET) files ;;
      listed d rest files'
  end.

(** Lines 110-125, from the listing of the directory. *)
Definition scan_listing (s : settings) (d : string) (names : list string)
  : result recordContext :=
  files <- listed d names [] ;; scan s files.
End Listing.

(** A recording with one more pass to make, started at time 0. *)
Definition sample_recording : @recording :=
  {| ready := true; started := Some 0; file := Some "out/00000.snmprec"%string;
     filenum := Some 0%Z; iterations := Some 1%Z; rec_period := Some 10 |}.

End Multiplex.

(* ===================================================================== *)
(** * [multiplex.py]: [init] and the capture path of [record] *)
(* ===================================================================== *)

Module Recording.
Import Py Multiplex.
Local Open Scope py_scope.
Local Open Scope Q_scope.

(** What [init] and [record] call and do not define: the codecs of
    [RECORD_SET] (the table is keyed by the [ext] of each codec, lines 31-38,
    so that [RECORD_SET[t].ext] is [t]), the path functions of [os], the
    conversions [int] and [float] of a text, the format ['%.2f'] and
    [snmpsim.utils.split] on ['=']. *)
Class Recorder : Type := {
  rvalue : Type;
  codec : Type;
  RECORD_SET : dict (K:=string) (V:=codec);
  (** [parser.format(oid, value)] *)
  format : codec -> oid -> rvalue -> string;
  (** [os.path.extsep], [os.path.sep], [os.path.join], [os.path.exists] *)
  extsep : string;
  sep : ascii;
  path_join : string -> string -> string;
  path_exists : string -> bool;
  int_of_text : string -> result Z;
  float_of_text : string -> result Q;
  (** ['%.2f' % x] *)
  format_2f : Q -> string;
  (** [split(x, '=')] *)
  split_eq : string -> list string
}.

Section WithRecorder.
Context `{Recorder}.

(** ** [init], lines 41-80 *)

(** [moduleContext] while the options are read: the list under [addon] and
    the texts under the other keys. *)
Record module_options : Type := {
  addon : option (list string);
  texts : dict (K:=string) (V:=string)
}.

Definition no_options : module_options := {| addon := None; texts := [] |}.

(** Lines 45-54, on [split(x, ':')]: unpacking into [k, v] needs two
    items. *)
Definition set_option (st : module_options) (kv : list string)
  : result module_options :=
  match kv with
  | [k; v] =>
      if (k =? "addon")%string then
        Ok {| addon := Some (match addon st with
                             | Some l => l ++ [v]
                             | None => [v]
                             end);
              texts := texts st |}
      else
        Ok {| addon := addon st;
              texts := dict_set String.eqb (texts st) k v |}
  | _ => Raise ValueError
  end.

(** Lines 43-54, on [[split(x, ':') for x in split(options, ',')]] (empty
    when [context['options']] is). *)
Fixpoint set_options (st : module_options) (tokens : list (list string))
  : result module_options :=
  match tokens with
  | [] => Ok st
  | kv :: rest => st' <- set_option st kv ;; set_options st' rest
  end.

(** [moduleContext] after [init]: the options, and what lines 56-80 add or
    convert. *)
Record moduleContext : Type := {
  m_options : module_options;
  m_booted : option Q;
  (** [moduleContext['iterations']] and [moduleContext['period']] once
      converted to numbers *)
  m_iterations : option Z;
  m_period : option Q;
  m_ready : bool
}.

(** [init] from the empty [moduleContext]; the second
    component is the directory created, if one was. *)
Definition init (tokens : list (list string)) (mode : string) (now : Q)
  : result moduleContext * option string :=
  match set_options no_options tokens with
  | Raise e => (Raise e, None)
  | Ok opts =>
      if (mode =? "variating")%string then
        (Ok {| m_options := opts; m_booted := Some now;
               m_iterations := None; m_period := None; m_ready := true |},
         None)
      else if (mode =? "recording")%string then
        match dict_get String.eqb (texts opts) "dir"%string with
        | None => (Raise SnmpsimError, None)
        | Some d =>
            let created := if path_exists d then None else Some d in
            match (it <- match dict_get String.eqb (texts opts)
                                 "iterations"%string with
                         | Some txt =>
                             n <- int_of_text txt ;;
                             Ok (Some (Z.max 0 (n - 1)))
                         | None => Ok None
                         end ;;
                   p <- match dict_get String.eqb (texts opts)
                                "period"%string with
                        | Some txt => float_of_text txt
                        | None => Ok 10
                        end ;;
                   Ok {| m_options := opts; m_booted := None;
                         m_iterations := it; m_period := Some p;
                         m_ready := true |}) with
            | Raise e => (Raise e, created)
            | Ok mc => (Ok mc, created)
            end
        end
      else
        (Ok {| m_options := opts; m_booted := None;
               m_iterations := None; m_period := None; m_ready := true |},
         None)
  end.

(** ** [record], lines 269-340 *)

(** [moduleContext] as [record] uses it: the fields of the stop path, with
    the directory, the type of the records, the [addon] list and the codec
    in use. *)
Record capturing : Type := {
  rec : recording;
  c_dir : option string;
  c_recordtype : option string;
  c_addon : option (list string);
  c_parser : option codec
}.

(** [moduleContext] when [init] hands over to [record], for options that
    name none of the keys that [record] keeps for itself ([ready],
    [started], [file], [filenum], [parser]). *)
Definition handed_over (mc : moduleContext) : capturing :=
  {| rec := {| ready := m_ready mc; started := None; file := None;
               filenum := None; iterations := m_iterations mc;
               rec_period := m_period mc |};
     c_dir := dict_get String.eqb (texts (m_options mc)) "dir"%string;
     c_recordtype :=
       dict_get String.eqb (texts (m_options mc)) "recordtype"%string;
     c_addon := addon (m_options mc);
     c_parser := None |}.

Record context : Type := {
  origOid : oid;
  origValue : rvalue;
  stopFlag : bool;
  (** [context['total']], the count of the records captured before *)
  total : Z;
  (** [str(context['startOID'])] *)
  startOID : string
}.

(** What a call does to the files. *)
Inductive io : Type :=
| Opened (path : string)
| Wrote (path : string) (line : string)
| Closed (path : string).

(** [dict(l)] for a list of lists: each must have two items. *)
Fixpoint pairs_of (l : list (list string)) : result (list (string * string)) :=
  match l with
  | [] => Ok []
  | [k; v] :: rest => r <- pairs_of rest ;; Ok ((k, v) :: r)
  | _ => Raise ValueError
  end.

(** Lines 323-335: the text of the settings. *)
Definition descriptor (st : capturing) : result string :=
  d <- match c_dir st with
       | Some d => Ok d
       | None => Raise KeyError
       end ;;
  let settings := [("dir"%string, replace_char sep "/"%char d)] in
  let settings :=
    match rec_period (rec st) with
    | Some p => dict_set String.eqb settings "period"%string (format_2f p)
    | None => settings
    end in
  settings <-
    match c_addon st with
    | Some l =>
        kvs <- pairs_of (map split_eq l) ;;
        Ok (fill String.eqb fst snd kvs settings)
    | None => Ok settings
    end ;;
  Ok (String.concat ","
        (map (fun kv => (fst kv ++ "=" ++ snd kv)%string) settings)).

(** Lines 305-310: the name and the path of the file numbered [n] for
    records of type [t] in the directory [d]. *)
Definition snmprecFile (t : string) (n : Z) : string :=
  let ext := (extsep ++ t)%string in
  (decimal5 n ++ extsep ++ ext)%string.

Definition snmprecfile (d : string) (t : string) (n : Z) : string :=
  path_join d (snmprecFile t n).

Definition with_rec (st : capturing) (r : recording) : capturing :=
  {| rec := r; c_dir := c_dir st; c_recordtype := c_recordtype st;
     c_addon := c_addon st; c_parser := c_parser st |}.

(** Lines 299-340: the path taken when [context['stopFlag']] is not set,
    once past lines 270-274 ([mc] has [started] set). *)
Definition capture (ctx : context) (st : capturing)
  : result (string * string * string) * capturing * list io :=
  let mc := rec st in
  (* lines 299-315 *)
  let opened :=
    match file mc with
    | Some path =>
        (match c_parser st with Some c => Ok (path, c) | None => Raise KeyError end,
         st, [])
    | None =>
        let n := match filenum mc with Some n => n | None => 0%Z end in
        let mc1 := {| ready := ready mc; started := started mc;
                      file := None; filenum := Some n;
                      iterations := iterations mc;
                      rec_period := rec_period mc |} in
        let t := match c_recordtype st with
                 | Some t => t
                 | None => "snmprec"%string
                 end in
        match dict_get String.eqb RECORD_SET t, c_dir st with
        | None, _ => (Raise KeyError, with_rec st mc1, [])
        | Some _, None => (Raise KeyError, with_rec st mc1, [])
        | Some c, Some d =>
            let path := snmprecfile d t n in
            (Ok (path, c),
             {| rec := {| ready := ready mc; started := started mc;
                          file := Some path; filenum := Some n;
                          iterations := iterations mc;
                          rec_period := rec_period mc |};
                c_dir := c_dir st; c_recordtype := c_recordtype st;
                c_addon := c_addon st; c_parser := Some c |},
             [Opened path])
        end
    end in
  match opened with
  | (Raise e, st1, ev) => (Raise e, st1, ev)
  | (Ok (path, c), st1, ev) =>
      (* lines 317-320 *)
      let ev' := ev ++ [Wrote path (format c (origOid ctx) (origValue ctx))] in
      (* lines 322-340 *)
      if (total ctx =? 0)%Z then
        match descriptor st1 with
        | Ok text => (Ok (startOID ctx, ":multiplex"%string, text), st1, ev')
        | Raise e => (Raise e, st1, ev')
        end
      else (Raise NoDataNotification, st1, ev')
  end.

(** [record(oid, tag, value, **context)]; [clock k] is the reading of the
    [k]-th call of [time.time()] made. *)
Definition record (ctx : context) (clock : nat -> Q) (st : capturing)
  : result (string * string * string) * capturing * list io :=
  if stopFlag ctx then
    (Raise (fst (fst (record_stop clock (rec st)))),
     with_rec st (snd (fst (record_stop clock (rec st)))),
     map Closed (snd (record_stop clock (rec st))))
  else if negb (ready (rec st)) then (Raise SnmpsimError, st, [])
  else
    let mc := rec st in
    capture ctx
      (with_rec st
         {| ready := ready mc;
            started := match started mc with
                       | Some t0 => Some t0
                       | None => Some (clock 0%nat)
                       end;
            file := file mc; filenum := filenum mc;
            iterations := iterations mc; rec_period := rec_period mc |}).

(** The calls of [record] of a capture, one after the other: what they do
    to the files, and the state they leave. *)
Fixpoint records (calls : list (context * (nat -> Q))) (st : capturing)
  : list io * capturing :=
  match calls with
  | [] => ([], st)
  | (ctx, clock) :: rest =>
      let out := record ctx clock st in
      (snd out ++ fst (records rest (snd (fst out))),
       snd (records rest (snd (fst out))))
  end.
(** ** Vocabulary of the properties *)

(** The values of the [addon] options, in the order given. *)
Fixpoint addon_values (tokens : list (list string)) : list string :=
  match tokens with
  | [] => []
  | [k; v] :: rest =>
      if (k =? "addon")%string then v :: addon_values rest
      else addon_values rest
  | _ :: rest => addon_values rest
  end.

(** Each option is a [key:value] pair. *)
Definition well_formed (tokens : list (list string)) : Prop :=
  Forall (fun kv => List.length kv = 2%nat) tokens.

(** The option [kv] sets the key [k]. *)
Definition sets_key (k : string) (kv : list string) : Prop :=
  exists v, kv = [k; v].

(** The records written by the calls of a pass, into the file [path]. *)
Definition writes (c : codec) (path : string)
    (calls : list (context * (nat -> Q))) : list io :=
  map (fun call =>
         Wrote path (format c (origOid (fst call)) (origValue (fst call))))
      calls.

(** The output file [path] is open, written with the codec [c]. *)
Definition open_on (st : capturing) (path : string) (c : codec) : Prop :=
  ready (rec st) = true /\ file (rec st) = Some path /\
  c_parser st = Some c.

(** Two states of a capture with the same directory, record type, file
    number, iterations left and period. *)
Definition same_setup (st st' : capturing) : Prop :=
  c_dir st' = c_dir st /\ c_recordtype st' = c_recordtype st /\
  c_addon st' = c_addon st /\
  iterations (rec st') = iterations (rec st) /\
  rec_period (rec st') = rec_period (rec st).

(** No call of the list carries the stop signal. *)
Definition no_stop (calls : list (context * (nat -> Q))) : Prop :=
  Forall (fun call => stopFlag (fst call) = false) calls.

(** The record type in force: [moduleContext.get('recordtype', 'snmprec')]. *)
Definition record_type (st : capturing) : string :=
  match c_recordtype st with
  | Some t => t
  | None => "snmprec"%string
  end.
End WithRecorder.

(** ** A sample recorder

    Values are integers, a codec is named by its extension, paths are
    POSIX ones, and the texts converted are plain decimal numbers. *)

Definition sample_int_of_text (txt : string) : result Z :=
  match DecimalString.NilZero.int_of_string txt with
  | Some d => Ok (Z.of_int d)
  | None => Raise ValueError
  end.

Definition sample_recorder : Recorder :=
  {| rvalue := Z;
     codec := string;
     RECORD_SET := [("snmprec"%string, "snmprec"%string);
                    ("snmpwalk"%string, "snmpwalk"%string)];
     format := fun c o v =>
       (String.concat "." (map decimal o) ++ "|2|" ++ decimal v)%string;
     extsep := ".";
     sep := "/"%char;
     path_join := fun a b => (a ++ "/" ++ b)%string;
     path_exists := fun _ => true;
     int_of_text := sample_int_of_text;
     float_of_text := fun txt => n <- sample_int_of_text txt ;; Ok (inject_Z n);
     format_2f := fun q => (decimal (Qfloor q) ++ ".00")%string;
     split_eq := fun x => [x] |}.

Definition sample_tokens : list (list string) :=
  [["dir"; "out"]; ["iterations"; "3"]; ["addon"; "a=1"];
   ["period"; "5"]; ["addon"; "b=2"]; ["period"; "7"]]%string.

Definition sample_rvalue (z : Z) : @rvalue sample_recorder := z.

Definition sample_call (v : Z) (n : Z) : @context sample_recorder * (nat -> Q) :=
  ({| origOid := [1; 3; 6; 1; 2; 1; 1; 3; 0]%Z; origValue := sample_rvalue v;
      stopFlag := false; total := n; startOID := "1.3.6" |},
   fun _ => 0).

Definition sample_stop : @context sample_recorder * (nat -> Q) :=
  ({| origOid := []; origValue := sample_rvalue 0;
      stopFlag := true; total := 0%Z; startOID := "1.3.6" |},
   fun _ => 7).

(** A capture about to start in the directory [out], with two more passes
    to make after the first. *)
Definition sample_capturing : @capturing sample_recorder :=
  {| rec := {| ready := true; started := None; file := None;
               filenum := None; iterations := Some 2%Z;
               rec_period := Some 7 |};
     c_dir := Some "out"%string; c_recordtype := None;
     c_addon := None; c_parser := None |}.

End Recording.

(* ===================================================================== *)
(** * Facts about the Python primitives *)
(* ===================================================================== *)

Module PyFacts.
Import Py.
Local Open Scope Q_scope.

Lemma Qltb_lt x y : Qltb x y = true <-> x < y.
Proof.
  unfold Qltb. rewrite negb_true_iff. split; intros H.
  - apply Qnot_le_lt. intros C. apply Qle_bool_iff in C. congruence.
  - destruct (Qle_bool y x) eqn:E; [|reflexivity].
    apply Qle_bool_iff in E. exfalso. apply (Qlt_not_le _ _ H E).
Qed.

Lemma Qltb_ge x y : Qltb x y = false <-> y <= x.
Proof.
  unfold Qltb. rewrite negb_false_iff. apply Qle_bool_iff.
Qed.

Lemma is_integral_eq x : is_integral x = true -> x == inject_Z (py_int x).
Proof.
  unfold is_integral. intros E. apply Qeq_bool_iff in E. symmetry. exact E.
Qed.

Lemma py_int_opp x : py_int (- x) = (- py_int x)%Z.
Proof.
  destruct x as [n d]. unfold py_int. simpl. apply Z.quot_opp_l. discriminate.
Qed.

Lemma py_int_inject z : py_int (inject_Z z) = z.
Proof. unfold py_int. simpl. apply Z.quot_1_r. Qed.

Lemma is_integral_opp x : is_integral x = true -> is_integral (- x) = true.
Proof.
  intros E. unfold is_integral. apply Qeq_bool_iff.
  rewrite py_int_opp, inject_Z_opp. apply is_integral_eq in E.
  rewrite <- E. reflexivity.
Qed.

(** With a whole, positive [D], [randrange(-D, D)] is [-D] plus the
    generator's output reduced modulo [2 D]. *)
Lemma randrange_symmetric (D : Q) (r : N) :
  is_integral D = true -> 0 < D ->
  (0 < py_int D)%Z /\
  randrange (- D) D r = Ok (- py_int D + Z.of_N r mod (2 * py_int D))%Z.
Proof.
  intros I P.
  assert (Dpos : (0 < py_int D)%Z).
  { apply is_integral_eq in I. rewrite I in P.
    rewrite (Zlt_Qlt 0 (py_int D)). exact P. }
  split; [exact Dpos|].
  unfold randrange. rewrite (is_integral_opp _ I), I. simpl.
  rewrite py_int_opp.
  replace (py_int D - - py_int D)%Z with (2 * py_int D)%Z by lia.
  destruct (0 <? 2 * py_int D)%Z eqn:E; [reflexivity|].
  apply Z.ltb_ge in E. lia.
Qed.

Lemma randrange_range (D : Q) (r : N) (j : Z) :
  is_integral D = true -> 0 < D ->
  randrange (- D) D r = Ok j ->
  - D <= inject_Z j /\ inject_Z j < D.
Proof.
  intros I P E. destruct (randrange_symmetric r I P) as [Dpos R].
  pose proof (Z.mod_pos_bound (Z.of_N r) (2 * py_int D) ltac:(lia)) as B.
  pose proof (is_integral_eq _ I) as ED.
  remember (Z.of_N r mod (2 * py_int D))%Z as m eqn:Em.
  remember (py_int D) as n eqn:En.
  rewrite R in E. injection E as <-. rewrite ED. split.
  - rewrite <- inject_Z_opp, <- Zle_Qle. lia.
  - rewrite <- Zlt_Qlt. lia.
Qed.

(** ** Remainder and quotient of floats *)

Lemma py_mod_pos (x m : Q) :
  0 < m -> exists y, py_mod x m = Ok y /\ 0 <= y /\ y < m.
Proof.
  intros P. unfold py_mod.
  destruct (Qeq_bool m 0) eqn:E.
  { apply Qeq_bool_iff in E. rewrite E in P. discriminate P. }
  eexists. split; [reflexivity|].
  assert (Nz : ~ m == 0) by (intros C; rewrite C in P; discriminate P).
  pose proof (Qfloor_le (x / m)) as Lo.
  pose proof (Qlt_floor (x / m)) as Hi.
  set (f := Qfloor (x / m)) in *.
  assert (Ex : x == (x / m) * m) by (field; exact Nz).
  rewrite inject_Z_plus in Hi.
  apply (Qmult_le_compat_r _ _ m) in Lo; [|apply Qlt_le_weak; exact P].
  apply (Qmult_lt_compat_r _ _ m) in Hi; [|exact P].
  rewrite <- Ex in Lo, Hi. clear Ex.
  assert (Hi' : x < inject_Z f * m + m).
  { eapply Qlt_le_trans; [exact Hi|]. apply Qle_lteq. right.
    change (inject_Z 1) with 1. ring. }
  clear Hi. generalize dependent (inject_Z f * m). intros a Lo Hi.
  split; lra.
Qed.

Lemma py_int_nonneg (x : Q) : 0 <= x -> py_int x = Qfloor x.
Proof.
  destruct x as [n d]. unfold Qle, py_int, Qfloor. simpl. intros P.
  apply Z.quot_div_nonneg; lia.
Qed.

(** [int(y / p)] for a remainder [y] of a cycle of [n] periods [p]: the
    floor of the quotient, a number of [0 .. n - 1]. *)
Lemma py_int_of_slot (y p : Q) (n : Z) :
  0 < p -> 0 <= y -> y < p * inject_Z n ->
  py_truediv y p = Ok (y / p) /\
  py_int (y / p) = Qfloor (y / p) /\
  (0 <= py_int (y / p) < n)%Z.
Proof.
  intros P Y B.
  assert (Nz : ~ p == 0) by (intros C; rewrite C in P; discriminate P).
  assert (Q0 : 0 <= y / p).
  { apply Qle_shift_div_l; [exact P|]. lra. }
  assert (Q1 : y / p < inject_Z n).
  { apply Qlt_shift_div_r; [exact P|]. lra. }
  split.
  { unfold py_truediv. destruct (Qeq_bool p 0) eqn:E; [|reflexivity].
    apply Qeq_bool_iff in E. contradiction. }
  rewrite (py_int_nonneg Q0). split; [reflexivity|]. split.
  - change 0%Z with (Qfloor 0). apply Qfloor_resp_le. exact Q0.
  - pose proof (Qfloor_le (y / p)) as F.
    rewrite (Zlt_Qlt (Qfloor (y / p)) n). lra.
Qed.

(** ** Binary search *)

Lemma StronglySorted_nth (a : list Z) :
  StronglySorted Z.le a ->
  forall i j, (i <= j < List.length a)%nat -> (nth i a 0 <= nth j a 0)%Z.
Proof.
  induction 1 as [|x l S IH F]; intros i j B; simpl in B; [lia|].
  destruct j as [|j].
  - assert (i = 0%nat) by lia. subst. lia.
  - destruct i as [|i]; simpl.
    + rewrite Forall_forall in F. apply F. apply nth_In. lia.
    + apply IH. lia.
Qed.

(** On a list in ascending order the loop keeps its invariant: everything
    left of [lo] is at most [x], everything from [hi] on is above [x]. *)
Lemma bisect_loop_sorted (a : list Z) (x : Z) (lo hi : nat) :
  StronglySorted Z.le a ->
  (lo <= hi <= List.length a)%nat ->
  (forall i, (i < lo)%nat -> (nth i a 0 <= x)%Z) ->
  (forall i, (hi <= i < List.length a)%nat -> (x < nth i a 0)%Z) ->
  (lo <= bisect_loop a x lo hi <= hi)%nat /\
  (forall i, (i < bisect_loop a x lo hi)%nat -> (nth i a 0 <= x)%Z) /\
  (forall i, (bisect_loop a x lo hi <= i < List.length a)%nat ->
             (x < nth i a 0)%Z).
Proof.
  intros S. pose proof (StronglySorted_nth S) as Mono.
  funelim (bisect_loop a x lo hi); intros B L R.
  - (* the loop is over *)
    assert (lo = hi) by lia. subst. repeat split; auto; lia.
  - (* x < a[mid] : hi = mid *)
    rename Heq into Lt. apply Z.ltb_lt in Lt.
    assert (M : (lo <= (lo + hi) / 2 < hi)%nat)
      by (split; [apply Nat.div_le_lower_bound
                 | apply Nat.Div0.div_lt_upper_bound]; lia).
    destruct (H S Mono) as (P1 & P2 & P3); try lia; auto.
    { intros i Hi. destruct (Nat.lt_ge_cases i hi) as [Hlt|Hge].
      - eapply Z.lt_le_trans; [exact Lt|]. apply Mono. lia.
      - apply R. lia. }
    repeat split; auto; lia.
  - (* a[mid] <= x : lo = mid + 1 *)
    rename Heq into Ge. apply Z.ltb_ge in Ge.
    assert (M : (lo <= (lo + hi) / 2 < hi)%nat)
      by (split; [apply Nat.div_le_lower_bound
                 | apply Nat.Div0.div_lt_upper_bound]; lia).
    destruct (H S Mono) as (P1 & P2 & P3); try lia; auto.
    { intros i Hi. eapply Z.le_trans; [|exact Ge]. apply Mono. lia. }
    repeat split; auto; lia.
Qed.

Lemma bisect_sorted (a : list Z) (x : Z) :
  StronglySorted Z.le a ->
  (bisect a x <= List.length a)%nat /\
  (forall i, (i < bisect a x)%nat -> (nth i a 0 <= x)%Z) /\
  (forall i, (bisect a x <= i < List.length a)%nat -> (x < nth i a 0)%Z).
Proof.
  intros S. unfold bisect.
  destruct (bisect_loop_sorted (a := a) (x := x) (lo := 0)
              (hi := List.length a) S) as (P1 & P2 & P3); try lia.
  repeat split; auto; lia.
Qed.

Lemma py_index_nth (a : list Z) (i : nat) :
  (i < List.length a)%nat -> py_index a (Z.of_nat i) = Ok (nth i a 0%Z).
Proof.
  intros B. unfold py_index.
  destruct (Z.of_nat i <? 0)%Z eqn:E; [apply Z.ltb_lt in E; lia|].
  replace ((0 <=? Z.of_nat i)%Z && (Z.of_nat i <? Z.of_nat (List.length a))%Z)
    with true.
  - rewrite Nat2Z.id. rewrite (nth_error_nth' a 0%Z B). reflexivity.
  - symmetry. apply andb_true_iff. split; [apply Z.leb_le|apply Z.ltb_lt]; lia.
Qed.

(** [a[bisect(a, x) - 1]] on a list in ascending order with an element at
    most [x]: the greatest such element. *)
Lemma bisect_greatest (a : list Z) (x k0 : Z) :
  StronglySorted Z.le a -> In k0 a -> (k0 <= x)%Z ->
  exists k,
    (0 < bisect a x <= List.length a)%nat /\
    k = nth (bisect a x - 1) a 0%Z /\
    py_index a (Z.of_nat (bisect a x) - 1) = Ok k /\
    In k a /\ (k <= x)%Z /\
    (forall k', In k' a -> (k' <= x)%Z -> (k' <= k)%Z).
Proof.
  intros S I0 L0.
  destruct (bisect_sorted x S) as (P1 & P2 & P3).
  pose proof (StronglySorted_nth S) as Mono.
  assert (Pos : (0 < bisect a x)%nat).
  { destruct (In_nth a k0 0%Z I0) as (i & Hi & Ei).
    destruct (Nat.lt_ge_cases i (bisect a x)) as [|Hge]; [lia|].
    specialize (P3 i ltac:(lia)). lia. }
  exists (nth (bisect a x - 1) a 0%Z).
  replace (Z.of_nat (bisect a x) - 1)%Z with (Z.of_nat (bisect a x - 1)) by lia.
  split; [lia|]. split; [reflexivity|].
  split; [apply py_index_nth; lia|].
  split; [apply nth_In; lia|].
  split; [apply P2; lia|].
  intros k' I' L'. destruct (In_nth a k' 0%Z I') as (i & Hi & Ei).
  subst k'. apply Mono.
  destruct (Nat.lt_ge_cases i (bisect a x)) as [|Hge]; [lia|].
  specialize (P3 i ltac:(lia)). lia.
Qed.

End PyFacts.


(* ===================================================================== *)
(** * Properties of [delay.variate] *)
(* ===================================================================== *)

Module DelayFacts.
Import Py PyFacts Delay.
Local Open Scope Q_scope.

Section WithValue.
Context {V : Type} `{SnmpValue V}.

Lemma clamp_nonneg (d : Q) : 0 <= clamp d.
Proof.
  unfold clamp. destruct (Qltb d 0) eqn:E.
  - apply Qle_refl.
  - apply Qltb_ge in E. exact E.
Qed.

Lemma clamp_ge (d : Q) : d <= clamp d.
Proof.
  unfold clamp. destruct (Qltb d 0) eqn:E.
  - apply Qltb_lt in E. apply Qlt_le_weak. exact E.
  - apply Qle_refl.
Qed.

(** Lines 151-156 in terms of the clamped delay. *)
Lemma finish_clamped (o : oid) (t : tag) (ctx : context V) (s : settings V)
    (d : Q) :
  finish o t ctx s d =
  if Qltb 99999 (clamp d) then (Raise NoDataNotification, [])
  else respond o t ctx s (clamp d).
Proof.
  unfold finish, clamp. destruct (Qltb d 0) eqn:E; reflexivity.
Qed.

Lemma select_delay_base (ctx : context V) (s : settings V) (now : Q) :
  vlist s = None -> tlist s = None ->
  select_delay ctx s now = (Ok (wait s), []).
Proof.
  intros Ev Et. unfold select_delay. rewrite Ev, Et.
  destruct (setFlag ctx); reflexivity.
Qed.

(** The [eq] entries of a [tlist] are never selected: the block always
    falls to its [lt]/[gt]/[else] tail. *)
Lemma select_tlist_skips_eq (s : settings V) (tl : overrides Z) (now : Z) :
  select_tlist s tl now = Ok (lt_gt_else tl (Z.ltb now) (Z.gtb now) s).
Proof.
  unfold select_tlist, int_eq_dict. destruct (ov_eq tl); reflexivity.
Qed.

Lemma lt_gt_else_spec {K} (t : overrides K) (below above : K -> bool)
    (s : settings V) :
  lt_gt_else t below above s =
  match lt_entry below t with
  | Some d => inject_Z d
  | None => match gt_entry above t with
            | Some d => inject_Z d
            | None => wait s
            end
  end.
Proof.
  unfold lt_gt_else, lt_entry, gt_entry.
  destruct (ov_lt t) as [[th d]|]; [destruct (below th)|];
    destruct (ov_gt t) as [[th' d']|]; try destruct (above th'); reflexivity.
Qed.

(** ** C10 *)

(** C10: a direct request (not a next traversal) whose prior lookup was not
    an exact match gets the original identifier and the error status back at
    once: the settings are not parsed (the record's cache is as it was) and
    nothing is read from the clock, drawn from the generator or slept. *)
Theorem C10_inexact_direct_request_passes_through
    (o : oid) (t : tag) (v : raw V) (ctx : context V) (now : Q) (r : N)
    (rc : option (settings V)) :
  nextFlag ctx = false -> exactMatch ctx = false ->
  variate o t v ctx now r rc
  = (Ok (origOid ctx, t, Echo (errorStatus ctx)), rc, []).
Proof.
  intros En Ex. unfold variate. rewrite En, Ex. reflexivity.
Qed.

(** ** C4 *)

(** C4: once the delay of a request is computed (override selected, jitter
    added, negative value clamped to 0), the request is dropped, by raising
    [NoDataNotification] without sleeping, when the delay exceeds 99999; a
    delay of at most 99999 is slept and a value is returned. *)
Theorem C4_drop_exactly_over_limit
    (o : oid) (t : tag) (v : raw V) (ctx : context V) (now : Q) (r : N)
    (rc : option (settings V)) (d : Q) (ev : list event) :
  nextFlag ctx || exactMatch ctx = true ->
  computed_delay ctx (cached rc v) now r = (Ok d, ev) ->
  (99999 < clamp d ->
   variate o t v ctx now r rc
   = (Raise NoDataNotification, Some (cached rc v), ev)) /\
  (clamp d <= 99999 ->
   exists ans,
     variate o t v ctx now r rc
     = (Ok ans, Some (cached rc v), ev ++ [Slept (clamp d / 1000)])).
Proof.
  intros G C. unfold variate.
  replace (negb (nextFlag ctx) && negb (exactMatch ctx)) with false
    by (destruct (nextFlag ctx), (exactMatch ctx); simpl in *; congruence).
  unfold eff_bind at 1. rewrite C. simpl fst. simpl snd.
  rewrite finish_clamped. split; intros L.
  - apply Qltb_lt in L. rewrite L. simpl. rewrite app_nil_r. reflexivity.
  - apply Qltb_ge in L. rewrite L. unfold respond. simpl.
    eexists. reflexivity.
Qed.

(** ** C6 *)

(** C6: for a write request with value overrides configured the delay is
    selected in this order: the delay of the [eq] entry for the written
    value; else the [lt] delay when the value is below the [lt] threshold;
    else the [gt] delay when it is above the [gt] threshold; else the base
    wait.  The selection reads no clock and raises nothing; when nothing
    matches, the request is answered after the base wait like one with no
    override (here without jitter and with a wait of at most 99999). *)
Theorem C6_value_override_priority
    (o : oid) (t : tag) (v : raw V) (ctx : context V) (s : settings V)
    (vl : overrides V) (now : Q) (r : N) :
  setFlag ctx = true -> vlist s = Some vl ->
  let x := origValue ctx in
  exists d : Q,
    select_delay ctx s now = (Ok d, []) /\
    (forall e, eq_entry v_eqb vl x = Some e -> d = inject_Z e) /\
    (forall e, eq_entry v_eqb vl x = None ->
               lt_entry (v_ltb x) vl = Some e -> d = inject_Z e) /\
    (forall e, eq_entry v_eqb vl x = None -> lt_entry (v_ltb x) vl = None ->
               gt_entry (v_gtb x) vl = Some e -> d = inject_Z e) /\
    (eq_entry v_eqb vl x = None -> lt_entry (v_ltb x) vl = None ->
     gt_entry (v_gtb x) vl = None ->
     d = wait s /\
     (nextFlag ctx || exactMatch ctx = true ->
      truthy_Q (deviation s) = false -> wait s <= 99999 ->
      variate o t v ctx now r (Some s)
      = (Ok (o, t, Echo x), Some s, [Slept (clamp (wait s) / 1000)]))).
Proof.
  intros Es Ev x.
  assert (Sel : select_delay ctx s now = (Ok (select_vlist s vl x), [])).
  { unfold select_delay. rewrite Es, Ev. reflexivity. }
  exists (select_vlist s vl x). split; [exact Sel|].
  unfold select_vlist. rewrite lt_gt_else_spec.
  fold (eq_entry v_eqb vl x).
  split; [|split; [|split]].
  - intros e E. rewrite E. reflexivity.
  - intros e E L. rewrite E, L. reflexivity.
  - intros e E L G. rewrite E, L, G. reflexivity.
  - intros E L G. split; [rewrite E, L, G; reflexivity|].
    intros Gd Dv W.
    assert (Sel' : select_delay ctx s now = (Ok (wait s), [])).
    { rewrite Sel. unfold select_vlist. rewrite lt_gt_else_spec.
      fold (eq_entry v_eqb vl x). rewrite E, L, G. reflexivity. }
    unfold variate.
    replace (negb (nextFlag ctx) && negb (exactMatch ctx)) with false
      by (destruct (nextFlag ctx), (exactMatch ctx); simpl in *; congruence).
    unfold cached, computed_delay, eff_bind. rewrite Sel'. simpl.
    unfold add_jitter. rewrite Dv. simpl.
    rewrite finish_clamped.
    assert (L9 : Qltb 99999 (clamp (wait s)) = false).
    { apply Qltb_ge. unfold clamp. destruct (Qltb (wait s) 0); [|exact W].
      discriminate. }
    rewrite L9. unfold respond. simpl. rewrite Es.
    destruct (value s); reflexivity.
Qed.

(** ** C5 *)

Lemma jitters_enumerate (D : Q) :
  is_integral D = true -> 0 < D ->
  jitters D
  = map (fun k => Ok (- py_int D + Z.of_nat k)%Z)
        (seq 0 (Z.to_nat (2 * py_int D))).
Proof.
  intros I P. unfold jitters. apply map_ext_in. intros k Hk.
  apply in_seq in Hk.
  destruct (randrange_symmetric (N.of_nat k) I P) as [Dpos R].
  rewrite R. rewrite nat_N_Z, Z.mod_small by lia. reflexivity.
Qed.

(** C5, as amended: when the deviation [D] is a whole number greater than 0
    and [S] is the delay selected for the request (the base wait when no
    override applies) with [S + D > 0], then for every output of the
    generator the jitter is an integer of [[-D, D)] and the delay slept lies
    in [[max(0, S - D), S + D)]; the [2 D] outputs of the generator give each
    integer of [[-D, D)] once. *)
Theorem C5_jitter_within_deviation
    (ctx : context V) (s : settings V) (now : Q) (r : N) (d0 : Q)
    (ev : list event) :
  select_delay ctx s now = (Ok d0, ev) ->
  is_integral (deviation s) = true ->
  0 < deviation s ->
  0 < d0 + deviation s ->
  (exists j : Z,
     randrange (- deviation s) (deviation s) r = Ok j /\
     computed_delay ctx s now r = (Ok (d0 + inject_Z j), ev ++ [DrewRandom]) /\
     - deviation s <= inject_Z j /\ inject_Z j < deviation s /\
     Qmax 0 (d0 - deviation s) <= clamp (d0 + inject_Z j) /\
     clamp (d0 + inject_Z j) < d0 + deviation s) /\
  jitters (deviation s)
  = map (fun k => Ok (- py_int (deviation s) + Z.of_nat k)%Z)
        (seq 0 (Z.to_nat (2 * py_int (deviation s)))).
Proof.
  intros Sel I P Pos. split; [|apply jitters_enumerate; assumption].
  destruct (randrange_symmetric r I P) as [Dpos R].
  eexists. split; [exact R|].
  destruct (randrange_range _ I P R) as [Lo Hi].
  set (j := (- py_int (deviation s) + Z.of_N r mod (2 * py_int (deviation s)))%Z) in *.
  assert (T : truthy_Q (deviation s) = true).
  { unfold truthy_Q. destruct (Qeq_bool (deviation s) 0) eqn:E; [|reflexivity].
    apply Qeq_bool_iff in E. rewrite E in P. discriminate P. }
  split.
  { unfold computed_delay, eff_bind. rewrite Sel. simpl.
    unfold add_jitter. rewrite T, R. reflexivity. }
  split; [exact Lo|]. split; [exact Hi|]. split.
  - apply Q.max_lub.
    + apply clamp_nonneg.
    + eapply Qle_trans; [|apply clamp_ge]. lra.
  - unfold clamp. destruct (Qltb (d0 + inject_Z j) 0); lra.
Qed.

End WithValue.

Lemma C4_drop_exactly_over_limit_witness :
  variate sample_oid "2"%string raw_slow read_request 0 0%N None
  = (Raise NoDataNotification, Some (parse raw_slow), []).
Proof.
  apply (proj1 (C4_drop_exactly_over_limit sample_oid "2"%string raw_slow
                  read_request 0 0%N None (d := 100000) (ev := [])
                  eq_refl eq_refl)).
  reflexivity.
Defined.

Lemma C10_inexact_direct_request_passes_through_witness :
  variate sample_oid "2"%string raw_slow inexact_read_request 0 0%N None
  = (Ok (sample_oid, "2"%string, Echo (-1)%Z), None, []).
Proof.
  apply (C10_inexact_direct_request_passes_through sample_oid "2"%string
           raw_slow inexact_read_request 0 0%N None eq_refl eq_refl).
Defined.

Lemma C6_value_override_priority_witness :
  select_delay (write_request 5) (parse raw_vlist_eq) 0 = (Ok 100, []) /\
  select_delay (write_request 6) (parse raw_vlist_eq) 0 = (Ok 500, []).
Proof.
  split.
  - destruct (C6_value_override_priority sample_oid "2"%string raw_vlist_eq
                (write_request 5) (parse raw_vlist_eq)
                (vl := build_overrides Z.eqb [("eq"%string, 5%Z, 100%Z)])
                0 0%N eq_refl eq_refl) as (d & Sel & Heq & _).
    rewrite Sel, (Heq 100%Z eq_refl). reflexivity.
  - destruct (C6_value_override_priority sample_oid "2"%string raw_vlist_eq
                (write_request 6) (parse raw_vlist_eq)
                (vl := build_overrides Z.eqb [("eq"%string, 5%Z, 100%Z)])
                0 0%N eq_refl eq_refl) as (d & Sel & _ & _ & _ & Helse).
    rewrite Sel, (proj1 (Helse eq_refl eq_refl eq_refl)). reflexivity.
Defined.

(** C5 as stated fails: with the override [tlist=lt:1000000000:50] in force
    the delay is taken around 50 and not around the base wait 500; with
    [wait=-5,deviation=2] the delay slept is 0, outside the empty interval
    [[0, -3)]; with [deviation=2.5] [randrange] refuses its bounds and no
    jitter is drawn. *)
Lemma C5_stated_jitter_range_counterexample :
  ~ stated_jitter_range read_request (parse raw_tlist_lt_jitter)
      999999999 0%N /\
  ~ stated_jitter_range read_request (parse raw_negative_wait) 0 0%N /\
  ~ stated_jitter_range read_request (parse raw_fractional_deviation) 0 0%N.
Proof.
  split; [|split]; intros C;
    destruct (C eq_refl) as (d0 & ev & j & d & Sel & R & J & _ & _ & Lo & Hi).
  - vm_compute in Sel. injection Sel as <- <-.
    vm_compute in J. injection J as <-.
    apply Qle_bool_iff in Lo. vm_compute in Lo. discriminate Lo.
  - vm_compute in Sel. injection Sel as <- <-.
    vm_compute in J. injection J as <-.
    apply Qltb_lt in Hi. vm_compute in Hi. discriminate Hi.
  - vm_compute in R. discriminate R.
Qed.

Lemma C5_jitter_within_deviation_witness :
  exists j : Z,
    randrange (- (10)) 10 3%N = Ok j /\
    Qmax 0 (100 - 10) <= clamp (100 + inject_Z j) /\
    clamp (100 + inject_Z j) < 100 + 10.
Proof.
  destruct (C5_jitter_within_deviation read_request (parse raw_jitter) 0 3%N
              (d0 := 100) (ev := []) eq_refl eq_refl eq_refl eq_refl)
    as [(j & R & _ & _ & _ & Lo & Hi) _].
  exists j. split; [exact R|]. split; [exact Lo|exact Hi].
Defined.

(** The specification's example for [tlist]: [tlist=lt:1000000000:50] gives
    the delay 50 one second before the threshold and the base wait one
    second after it. *)
Example tlist_lt_example :
  let s := parse (sample_raw None None None
                    (Some [("lt"%string, 1000000000%Z, 50%Z)])) in
  select_delay read_request s 999999999 = (Ok 50, [ReadClock]) /\
  select_delay read_request s 1000000001 = (Ok 500, [ReadClock]).
Proof. split; reflexivity. Qed.

(** ** C7 *)

(** C7: the code at the record [tlist=eq:1000:50] read at second 1000.  The
    table holds the delay 50 for that second, yet the delay selected is the
    base wait 500, and 0.5 s is slept: line 129 compares the time with the
    dictionary of the [eq] entries instead of looking it up there, as
    line 112 does for [vlist]. *)
Theorem C7_tlist_eq_entry_is_ignored :
  eq_entry Z.eqb (build_overrides Z.eqb [("eq"%string, 1000%Z, 50%Z)])
           1000%Z = Some 50%Z /\
  select_delay read_request (parse raw_tlist_eq) 1000
  = (Ok 500, [ReadClock]) /\
  variate sample_oid "2"%string raw_tlist_eq read_request 1000 0%N None
  = (Ok (sample_oid, "2"%string, Echo 0%Z), Some (parse raw_tlist_eq),
     [ReadClock; Slept (500 / 1000)]).
Proof.
  split; [reflexivity|]. split; reflexivity.
Qed.

End DelayFacts.

(* ===================================================================== *)
(** * Properties of [multiplex.variate] and [multiplex.record] *)
(* ===================================================================== *)

Module MultiplexFacts.
Import Py PyFacts Multiplex.
Local Open Scope Q_scope.

Section WithHost.
Context `{Host}.

(** ** The write path *)

(** No write is ever answered: the test of lines 159-161 raises [KeyError]
    when no control identifier is configured and [TypeError] when one is,
    and the session is left as it was. *)
Lemma write_always_raises (t : tag) (ctx : context) (rc : recordContext)
    (ms : session) :
  write t ctx rc ms = (Raise TypeError, ms) \/
  write t ctx rc ms = (Raise KeyError, ms).
Proof.
  unfold write, settings_and_control_matches, settings_truthy.
  destruct (control (rc_settings rc)); simpl; auto.
Qed.

(** ** The session through a request *)

Lemma open_datafile_fileno (rc : recordContext) (ms : session) :
  fileno (snd (open_datafile rc ms)) = fileno ms.
Proof.
  unfold open_datafile.
  destruct (bind _ _) as [[f p]|e]; [|reflexivity].
  destruct (match datafile ms with Some _ => _ | None => _ end);
    [reflexivity|].
  destruct (datafileobj ms); reflexivity.
Qed.

Lemma update_fileno_spec (w : bool) (ms : session) (n : Z) :
  (overwrite_allowed w ms n -> update_fileno w ms n = set_fileno ms n) /\
  (~ overwrite_allowed w ms n -> update_fileno w ms n = ms).
Proof.
  unfold overwrite_allowed, update_fileno.
  destruct (fileno ms) as [old|] eqn:E.
  - destruct (old <? n)%Z eqn:L; simpl.
    + split; [reflexivity|]. intros N. exfalso. apply N. right. left.
      exists old. apply Z.ltb_lt in L. auto.
    + destruct w; simpl.
      * split; [reflexivity|]. intros N. exfalso. apply N. auto.
      * split; [|reflexivity]. apply Z.ltb_ge in L.
        intros [C|[(o & Eo & Lo)|C]]; try discriminate.
        injection Eo as <-. lia.
  - split; [reflexivity|]. intros N. exfalso. apply N. auto.
Qed.

(** In periodic mode a read request leaves in [fileno] what lines 203-206
    put there. *)
Lemma variate_periodic_read_fileno (t : tag) (ctx : context) (now booted : Q)
    (rc : recordContext) (ms : session) (n : Z) :
  control (rc_settings rc) = None -> setFlag ctx = false ->
  candidate rc now booted = Ok n ->
  fileno (snd (variate t ctx now booted (Some rc) ms))
  = fileno (update_fileno (wrap (rc_settings rc)) ms n).
Proof.
  intros C S Cand. unfold variate, choose. rewrite S, C, Cand.
  set (ms1 := update_fileno _ ms n).
  pose proof (open_datafile_fileno rc ms1) as O.
  destruct (open_datafile rc ms1) as [[[p idx]|e] ms2]; simpl in *; exact O.
Qed.

(** In periodic mode any request either leaves [fileno] alone or updates it
    by lines 203-206. *)
Lemma variate_periodic_fileno (t : tag) (ctx : context) (now booted : Q)
    (rc : recordContext) (ms : session) :
  control (rc_settings rc) = None ->
  fileno (snd (variate t ctx now booted (Some rc) ms)) = fileno ms \/
  exists n,
    candidate rc now booted = Ok n /\
    fileno (snd (variate t ctx now booted (Some rc) ms))
    = fileno (update_fileno (wrap (rc_settings rc)) ms n).
Proof.
  intros C. destruct (setFlag ctx) eqn:S.
  - left. unfold variate. rewrite S.
    destruct (write_always_raises t ctx rc ms) as [E|E]; rewrite E;
      reflexivity.
  - destruct (candidate rc now booted) as [n|e] eqn:Cand.
    + right. exists n. split; [reflexivity|].
      apply variate_periodic_read_fileno; assumption.
    + left. unfold variate, choose. rewrite S, C, Cand. reflexivity.
Qed.

Lemma fileno_le_refl (a : option Z) : fileno_le a a.
Proof. destruct a; simpl; [lia|exact I]. Qed.

Lemma fileno_le_trans (a b c : option Z) :
  fileno_le a b -> fileno_le b c -> fileno_le a c.
Proof.
  destruct a, b, c; simpl; try tauto; lia.
Qed.

Lemma update_fileno_le (ms : session) (n : Z) :
  fileno_le (fileno ms) (fileno (update_fileno false ms n)).
Proof.
  unfold update_fileno. destruct (fileno ms) as [old|] eqn:E; simpl.
  - rewrite orb_false_r. destruct (old <? n)%Z eqn:L; simpl.
    + apply Z.ltb_lt in L. lia.
    + rewrite E. simpl. lia.
  - exact I.
Qed.

Lemma run_fileno_sorted (booted : Q) (rc : recordContext)
    (reqs : list request) :
  control (rc_settings rc) = None -> wrap (rc_settings rc) = false ->
  forall ms,
    Sorted fileno_le (fileno ms :: map fileno (run booted (Some rc) reqs ms)).
Proof.
  intros C W. induction reqs as [|rq rest IH]; intros ms; cbn [run map].
  - repeat constructor.
  - constructor; [apply IH|]. constructor.
    destruct (@variate_periodic_fileno (rq_tag rq) (rq_ctx rq) (rq_now rq)
                booted rc ms C) as [E|(n & _ & E)]; rewrite E.
    + apply fileno_le_refl.
    + rewrite W. apply update_fileno_le.
Qed.

(** ** The index [fileno] *)

(** In periodic mode (no control identifier) a read request for which
    the candidate [n] is computed overwrites the session's [fileno] with [n]
    when it was unset, or was lower than [n], or the wrap flag is on, and
    leaves it as it was otherwise; so, with the wrap flag off, the values
    that the index [fileno] takes over any sequence of requests never
    decrease.  The snapshot read is [keys[fileno]]: its number follows the
    index only when [keys] is in ascending order. *)
Lemma fileno_overwrite_rule_and_monotone
    (booted : Q) (rc : recordContext) :
  control (rc_settings rc) = None ->
  (forall t ctx now ms n,
     setFlag ctx = false -> candidate rc now booted = Ok n ->
     let ms' := snd (variate t ctx now booted (Some rc) ms) in
     (overwrite_allowed (wrap (rc_settings rc)) ms n -> fileno ms' = Some n) /\
     (~ overwrite_allowed (wrap (rc_settings rc)) ms n ->
      fileno ms' = fileno ms)) /\
  (wrap (rc_settings rc) = false ->
   forall reqs ms,
     StronglySorted fileno_le
       (fileno ms :: map fileno (run booted (Some rc) reqs ms))).
Proof.
  intros C. split.
  - intros t ctx now ms n S Cand ms'. subst ms'.
    rewrite (@variate_periodic_read_fileno t ctx now booted rc ms n C S Cand).
    destruct (update_fileno_spec (wrap (rc_settings rc)) ms n) as [Y N].
    split; intros O; [rewrite (Y O)|rewrite (N O)]; reflexivity.
  - intros W reqs ms. apply Sorted_StronglySorted.
    + intros a b c. apply fileno_le_trans.
    + apply run_fileno_sorted; assumption.
Qed.

(** ** Periodic selection over keys in ascending order

    What lines 194-201 compute when [keys] happens to be in ascending order
    (the code does not sort it) and the period is positive. *)
Lemma candidate_on_sorted_keys (rc : recordContext) (now booted : Q) :
  StronglySorted Z.le (keys rc) ->
  keys rc = dict_keys (dirmap rc) ->
  In (fst (bounds rc)) (keys rc) ->
  0 < period (rc_settings rc) ->
  exists (timeslot : Q) (n k : Z),
    py_mod (now - booted)
           (period (rc_settings rc)
            * inject_Z (Z.of_nat (List.length (keys rc)))) = Ok timeslot /\
    candidate rc now booted = Ok n /\
    (0 <= n < Z.of_nat (List.length (keys rc)))%Z /\
    k = nth (Z.to_nat n) (keys rc) 0%Z /\
    py_index (keys rc) n = Ok k /\
    let target :=
      (fst (bounds rc) + Qfloor (timeslot / period (rc_settings rc)))%Z in
    In k (keys rc) /\ (k <= target)%Z /\
    (forall k', In k' (keys rc) -> (k' <= target)%Z -> (k' <= k)%Z).
Proof.
  intros S K M P.
  assert (Len : List.length (dirmap rc) = List.length (keys rc)).
  { rewrite K. unfold dict_keys. rewrite length_map. reflexivity. }
  assert (Lpos : (0 < List.length (keys rc))%nat).
  { destruct (keys rc); [contradiction|simpl; lia]. }
  set (p := period (rc_settings rc)) in *.
  set (L := Z.of_nat (List.length (keys rc))).
  assert (Cpos : 0 < p * inject_Z L).
  { apply Qmult_lt_0_compat; [exact P|].
    change 0 with (inject_Z 0). rewrite <- (Zlt_Qlt 0 L). unfold L. lia. }
  destruct (py_mod_pos (now - booted) Cpos) as (y & Ey & Y0 & Y1).
  destruct (py_int_of_slot P Y0 Y1) as (Ed & Ef & Bf).
  destruct (@bisect_greatest (keys rc) (py_int (y / p) + fst (bounds rc))%Z
              (fst (bounds rc)) S M ltac:(lia))
    as (k & Bk & Ek & Ik & Mk & Lk & Gk).
  exists y, (Z.of_nat (bisect (keys rc) (py_int (y / p) + fst (bounds rc))%Z) - 1)%Z, k.
  split; [exact Ey|]. split.
  { unfold candidate. fold p. rewrite Len. fold L. rewrite Ey. simpl.
    rewrite Ed. reflexivity. }
  split; [unfold L; lia|].
  split.
  { rewrite Ek. f_equal. lia. }
  split; [exact Ik|].
  rewrite <- Ef. rewrite (Z.add_comm (fst (bounds rc))).
  split; [exact Mk|]. split; [exact Lk|exact Gk].
Qed.

(** With the wrap flag off, over keys in ascending order, the snapshot that
    the session reads never goes back either. *)
Lemma run_file_id_sorted (booted : Q) (rc : recordContext)
    (reqs : list request) :
  control (rc_settings rc) = None -> wrap (rc_settings rc) = false ->
  StronglySorted Z.le (keys rc) ->
  keys rc = dict_keys (dirmap rc) ->
  In (fst (bounds rc)) (keys rc) ->
  0 < period (rc_settings rc) ->
  forall ms,
    (forall n, fileno ms = Some n ->
               (0 <= n < Z.of_nat (List.length (keys rc)))%Z) ->
    Sorted fileno_le
      (current_file_id rc ms
       :: map (current_file_id rc) (run booted (Some rc) reqs ms)).
Proof.
  intros C W S K M P.
  pose proof (StronglySorted_nth S) as Mono.
  assert (Id : forall ms n,
             fileno ms = Some n ->
             (0 <= n < Z.of_nat (List.length (keys rc)))%Z ->
             current_file_id rc ms = Some (nth (Z.to_nat n) (keys rc) 0%Z)).
  { intros ms n E B. unfold current_file_id. rewrite E.
    rewrite <- (Z2Nat.id n) at 1 by lia. rewrite py_index_nth by lia.
    reflexivity. }
  induction reqs as [|rq rest IH]; intros ms R; cbn [run map].
  - repeat constructor.
  - set (ms' := snd (variate (rq_tag rq) (rq_ctx rq) (rq_now rq) booted
                       (Some rc) ms)).
    assert (Step : fileno_le (current_file_id rc ms) (current_file_id rc ms')
                   /\ (forall n, fileno ms' = Some n ->
                          (0 <= n < Z.of_nat (List.length (keys rc)))%Z)).
    { destruct (@variate_periodic_fileno (rq_tag rq) (rq_ctx rq) (rq_now rq)
                  booted rc ms C) as [E|(n & Cand & E)]; fold ms' in E.
      - split.
        + unfold current_file_id. rewrite E. apply fileno_le_refl.
        + intros n En. apply R. congruence.
      - destruct (@candidate_on_sorted_keys rc (rq_now rq) booted S K M P)
          as (y & n' & k & _ & Cand' & Bn & _).
        assert (n' = n) by congruence. subst n'.
        rewrite W in E. unfold update_fileno in E.
        destruct (fileno ms) as [old|] eqn:Eo.
        + rewrite orb_false_r in E. specialize (R old eq_refl).
          destruct (old <? n)%Z eqn:Lt; simpl in E.
          * apply Z.ltb_lt in Lt. split.
            -- rewrite (Id ms old Eo R), (Id ms' n E Bn). simpl.
               apply Mono. lia.
            -- intros m Em. congruence.
          * rewrite Eo in E. split.
            -- rewrite (Id ms old Eo R), (Id ms' old E R). simpl. lia.
            -- intros m Em. congruence.
        + simpl in E. split.
          * unfold current_file_id at 1. rewrite Eo. exact I.
          * intros m Em. congruence. }
    destruct Step as [Le R'].
    constructor; [apply IH; exact R'|]. constructor. exact Le.
Qed.

(** ** C8 *)

(** C8: a direct read (not a next traversal) that reaches the snapshot
    index gets the original identifier and the error status back when the
    identifier is not in the index, the neighbouring record found by the
    search being left alone, and also when the codec fails to decode the
    line found ([SnmpsimError]): the exception does not reach the caller. *)
Theorem C8_direct_read_without_data
    (t : tag) (ctx : context) (now booted : Q) (rc : recordContext)
    (ms ms1 ms2 : session) (p : parser) (idx : RecordIndex) :
  setFlag ctx = false -> nextFlag ctx = false ->
  choose ctx rc now booted ms = (Ok GoOn, ms1) ->
  open_datafile rc ms1 = (Ok (p, idx), ms2) ->
  (ri_lookup idx (origOid ctx) = None ->
   variate t ctx now booted (Some rc) ms
   = (Ok (origOid ctx, t, errorStatus ctx), ms2)) /\
  (forall offset e,
     ri_lookup idx (origOid ctx) = Some offset ->
     evaluate p (fst (get_record (ri_text idx) offset)) = Raise e ->
     is_SnmpsimError e = true ->
     variate t ctx now booted (Some rc) ms
     = (Ok (origOid ctx, t, errorStatus ctx), ms2)).
Proof.
  intros S N C O. unfold variate. rewrite S, C, O. split.
  - intros L. unfold locate, answer. rewrite L. simpl.
    destruct (get_record _ _). rewrite N. reflexivity.
  - intros offset e L E I. unfold locate, answer. rewrite L. simpl.
    destruct (get_record (ri_text idx) offset) as [line after]. simpl in E.
    rewrite N. simpl. unfold decode.
    destruct (line =? "")%string; [reflexivity|].
    rewrite E, I. reflexivity.
Qed.

(** ** The stop signal *)

(** When another pass is due, the wait handed to the caller is computed from
    two successive readings of the clock: line 288 has just overwritten
    [started] with the first of them. *)
Lemma record_stop_wait (clock : nat -> Q) (mc : recording) (n fnum : Z)
    (p : Q) :
  ready mc = true -> iterations mc = Some n -> n <> 0%Z ->
  rec_period mc = Some p ->
  (match file mc with Some _ => filenum mc | None => Some 0%Z end)
  = Some fnum ->
  let k := match started mc with Some _ => 0%nat | None => 1%nat end in
  fst (fst (record_stop clock mc))
  = MoreDataNotification (max0 (p - (clock (S k) - clock k))).
Proof.
  intros R I Nz P F k. unfold record_stop. rewrite R, I, P, F. simpl.
  destruct (n =? 0)%Z eqn:E; [apply Z.eqb_eq in E; contradiction|].
  reflexivity.
Qed.

End WithHost.

(** ** C1 *)

(** C1: the code at a write of the value 2 to the control identifier, with
    the snapshots 0, 1, 2, 3 registered.  The request is not answered: the
    test of lines 159-161 applies [in] to the outcome of the comparison and
    raises [TypeError]; [fileno] is not set, and a direct read of the control
    identifier that follows answers 0. *)
Theorem C1_control_write_raises_TypeError :
  @variate sample_host "2"%string (sample_write control_oid 2) 0 0
     (sample_rc (Some control_oid) listing_ascending) empty_session
  = (Raise TypeError, empty_session) /\
  fst (@variate sample_host "2"%string (sample_read control_oid) 1 0
         (sample_rc (Some control_oid) listing_ascending) empty_session)
  = Ok (control_oid, "2"%string, sample_value 0).
Proof. split; reflexivity. Qed.

(** ** C2 *)

(** C2: the code at period 10 and uptime 25 with the snapshots 0, 1, 2, 3,
    the directory being listed in descending order.  [keys] is then
    [3, 2, 1, 0]; the binary search for the target 2 ends at index 3, and
    the snapshot read is number 0.  Listed in ascending order, the same
    directory gives index 2 and snapshot 2. *)
Theorem C2_descending_listing_selects_snapshot_0 :
  sample_rc None listing_descending = Some (scanned None listing_descending) /\
  keys (scanned None listing_descending) = [3; 2; 1; 0]%Z /\
  candidate (scanned None listing_descending) 25 0 = Ok 3%Z /\
  current_file_id (scanned None listing_descending)
    (snd (@variate sample_host "67"%string (sample_read uptime_oid) 25 0
            (sample_rc None listing_descending) empty_session))
  = Some 0%Z /\
  current_file_id (scanned None listing_ascending)
    (snd (@variate sample_host "67"%string (sample_read uptime_oid) 25 0
            (sample_rc None listing_ascending) empty_session))
  = Some 2%Z.
Proof. repeat split; reflexivity. Qed.

Lemma fileno_monotone_example :
  StronglySorted fileno_le
    (None :: map fileno
               (@run sample_host 0 (Some (scanned None listing_ascending))
                  (map sample_request [5; 25; 12; 41; 39]) empty_session)).
Proof.
  exact (proj2 (@fileno_overwrite_rule_and_monotone sample_host 0
                  (scanned None listing_ascending) eq_refl) eq_refl
               (map sample_request [5; 25; 12; 41; 39]) empty_session).
Defined.

(** ** C3 *)

(** C3: the code at period 10, with the wrap flag off, on the snapshots
    0, 1, 2, 3, the directory being listed in the order 1, 2, 3, 0, for reads
    at the uptimes 5, 15, 25 and 35.  [keys] is [1, 2, 3, 0]; the index
    [fileno] that the session stores takes the values -1, 0, 1, 3, each
    higher than the one before, as lines 203-206 have it; the snapshots read,
    [keys[fileno]], are 0, 1, 2 and then 0 again: the file read goes back
    from 2 to 0 with the wrap flag off.  Listed in ascending order, the same
    directory gives the snapshots 0, 1, 2, 3. *)
Theorem C3_unsorted_listing_serves_an_earlier_snapshot :
  sample_rc None listing_rotated = Some (scanned None listing_rotated) /\
  keys (scanned None listing_rotated) = [1; 2; 3; 0]%Z /\
  control (rc_settings (scanned None listing_rotated)) = None /\
  wrap (rc_settings (scanned None listing_rotated)) = false /\
  map fileno
    (@run sample_host 0 (sample_rc None listing_rotated)
       (map sample_request [5; 15; 25; 35]) empty_session)
  = [Some (-1); Some 0; Some 1; Some 3]%Z /\
  map (current_file_id (scanned None listing_rotated))
    (@run sample_host 0 (sample_rc None listing_rotated)
       (map sample_request [5; 15; 25; 35]) empty_session)
  = [Some 0; Some 1; Some 2; Some 0]%Z /\
  ~ fileno_le (Some 2%Z) (Some 0%Z) /\
  map (current_file_id (scanned None listing_ascending))
    (@run sample_host 0 (sample_rc None listing_ascending)
       (map sample_request [5; 15; 25; 35]) empty_session)
  = [Some 0; Some 1; Some 2; Some 3]%Z.
Proof.
  repeat (split; [reflexivity|]). split; [|reflexivity].
  simpl. lia.
Qed.

Lemma C8_direct_read_without_data_witness :
  fst (@variate sample_host "67"%string (sample_read absent_oid) 25 0
         (Some (scanned None listing_ascending)) empty_session)
  = Ok (absent_oid, "67"%string, sample_value (-1)) /\
  fst (@variate sample_host "67"%string (sample_read garbled_oid) 25 0
         (Some (scanned None listing_ascending)) empty_session)
  = Ok (garbled_oid, "67"%string, sample_value (-1)).
Proof.
  split.
  - edestruct (@C8_direct_read_without_data sample_host "67"%string
                 (sample_read absent_oid) 25 0
                 (scanned None listing_ascending) empty_session)
      as [A _]; [reflexivity | reflexivity | reflexivity | reflexivity |].
    rewrite (A eq_refl). reflexivity.
  - edestruct (@C8_direct_read_without_data sample_host "67"%string
                 (sample_read garbled_oid) 25 0
                 (scanned None listing_ascending) empty_session)
      as [_ B]; [reflexivity | reflexivity | reflexivity | reflexivity |].
    rewrite (B 1%Z SnmpsimError eq_refl eq_refl eq_refl). reflexivity.
Defined.

(** ** C9 *)

(** C9: the code at a stop signal 7 s after the pass started (at time 0),
    with a period of 10 s and one more pass to make.  The file is closed,
    the count goes from 1 to 0 and the file number from 0 to 1, and
    [MoreDataNotification] carries a wait of 10 s, not the 10 - 7 = 3 s that
    the period less the time since the pass started comes to: [started] is
    set to the present time before the elapsed time is taken. *)
Theorem C9_stop_wait_is_the_whole_period :
  started sample_recording = Some 0 /\
  record_stop (fun _ => 7) sample_recording
  = (MoreDataNotification 10,
     {| ready := true; started := Some 7; file := None;
        filenum := Some 1%Z; iterations := Some 0%Z;
        rec_period := Some 10 |},
     ["out/00000.snmprec"%string]) /\
  max0 (10 - (7 - 0)) == 3 /\
  ~ 10 == 3.
Proof.
  split; [reflexivity|]. split; [reflexivity|].
  split; [reflexivity|]. intros C. discriminate C.
Qed.

End MultiplexFacts.

(* ===================================================================== *)
(** * More facts about the Python primitives *)
(* ===================================================================== *)

Module PyExtra.
Import Py PyFacts.

Section DictFacts.
Context {K V : Type} (eqb : K -> K -> bool).
Hypothesis eqb_eq : forall a b, eqb a b = true <-> a = b.

Lemma eqb_refl' (a : K) : eqb a a = true.
Proof. apply eqb_eq. reflexivity. Qed.

Lemma eqb_neq (a b : K) : a <> b -> eqb a b = false.
Proof.
  intros N. destruct (eqb a b) eqn:E; [|reflexivity].
  apply eqb_eq in E. contradiction.
Qed.

Lemma dict_get_set_same (d : dict) (k : K) (v : V) :
  dict_get eqb (dict_set eqb d k v) k = Some v.
Proof.
  induction d as [|[k' v'] d IH]; simpl.
  - rewrite eqb_refl'. reflexivity.
  - destruct (eqb k k') eqn:E; simpl; rewrite E; [reflexivity|exact IH].
Qed.

Lemma dict_get_set_other (d : dict) (k k' : K) (v : V) :
  k <> k' -> dict_get eqb (dict_set eqb d k v) k' = dict_get eqb d k'.
Proof.
  intros N. induction d as [|[k0 v0] d IH]; simpl.
  - rewrite (eqb_neq (a := k') (b := k)); [reflexivity|congruence].
  - destruct (eqb k k0) eqn:E; simpl.
    + apply eqb_eq in E. subst k0.
      rewrite (eqb_neq (a := k') (b := k)); [reflexivity|congruence].
    + destruct (eqb k' k0); [reflexivity|exact IH].
Qed.

Lemma dict_get_keys (d : dict (K:=K) (V:=V)) (k : K) :
  In k (dict_keys d) <-> exists v, dict_get eqb d k = Some v.
Proof.
  unfold dict_keys. induction d as [|[k0 v0] d IH]; simpl.
  - split; [tauto|]. intros [v E]. discriminate.
  - destruct (eqb k k0) eqn:E.
    + apply eqb_eq in E. subst. split; eauto.
    + split.
      * intros [E'|I]; [subst; rewrite eqb_refl' in E; discriminate|].
        apply IH. exact I.
      * intros X. right. apply IH. exact X.
Qed.

(** Assigning to a key that is present keeps the keys and their order; a
    new key goes to the end. *)
Lemma dict_keys_set (d : dict) (k : K) (v : V) :
  dict_keys (dict_set eqb d k v)
  = match dict_get eqb d k with
    | Some _ => dict_keys d
    | None => dict_keys d ++ [k]
    end.
Proof.
  unfold dict_keys. induction d as [|[k0 v0] d IH]; simpl; [reflexivity|].
  destruct (eqb k k0) eqn:E; simpl; [reflexivity|].
  rewrite IH. destruct (dict_get eqb d k); reflexivity.
Qed.

Lemma dict_keys_set_NoDup (d : dict) (k : K) (v : V) :
  NoDup (dict_keys d) -> NoDup (dict_keys (dict_set eqb d k v)).
Proof.
  intros N. rewrite dict_keys_set.
  destruct (dict_get eqb d k) eqn:E; [exact N|].
  apply NoDup_app; [exact N|repeat constructor; intros []|].
  intros x Ix [Ex|[]]. subst x.
  apply dict_get_keys in Ix. destruct Ix as [v' E']. congruence.
Qed.

(** ** A dictionary filled by a loop of assignments *)

Section Fill.
Context {A : Type} (key : A -> K) (val : A -> V).

#[local] Abbreviation fill := (fill eqb key val).

Lemma fill_NoDup (l : list A) (d : dict) :
  NoDup (dict_keys d) -> NoDup (dict_keys (fill l d)).
Proof.
  revert d. induction l as [|x l IH]; intros d N; simpl; [exact N|].
  apply IH. apply dict_keys_set_NoDup. exact N.
Qed.

Lemma fill_keys (l : list A) (d : dict) (k : K) :
  In k (dict_keys (fill l d))
  <-> In k (dict_keys d) \/ exists x, In x l /\ key x = k.
Proof.
  revert d. induction l as [|x l IH]; intros d; simpl.
  - split; [tauto|]. intros [I|(x & [] & _)]. exact I.
  - rewrite IH. rewrite dict_keys_set. split.
    + intros [I|(y & Iy & Ey)].
      * destruct (dict_get eqb d (key x)); [tauto|].
        apply in_app_or in I. destruct I as [I|[E|[]]]; [tauto|].
        right. exists x. auto.
      * right. exists y. auto.
    + intros [I|(y & [E|Iy] & Ey)].
      * left. destruct (dict_get eqb d (key x)); [exact I|].
        apply in_or_app. auto.
      * subst y. left. destruct (dict_get eqb d (key x)) eqn:G.
        -- apply dict_get_keys. subst k. eauto.
        -- apply in_or_app. right. left. exact Ey.
      * right. exists y. auto.
Qed.

Lemma fill_get_untouched (l : list A) (d : dict) (k : K) :
  (forall x, In x l -> key x <> k) ->
  dict_get eqb (fill l d) k = dict_get eqb d k.
Proof.
  revert d. induction l as [|x l IH]; intros d N; simpl; [reflexivity|].
  rewrite IH by (intros y Iy; apply N; right; exact Iy).
  apply dict_get_set_other. apply N. left. reflexivity.
Qed.

(** The last assignment to a key is the one that stays. *)
Lemma fill_get_last (l1 l2 : list A) (x : A) (d : dict) :
  (forall y, In y l2 -> key y <> key x) ->
  dict_get eqb (fill (l1 ++ x :: l2) d) (key x) = Some (val x).
Proof.
  intros N. unfold fill. rewrite fold_left_app. simpl.
  fold (fill l2 (dict_set eqb (fold_left
          (fun m y => dict_set eqb m (key y) (val y)) l1 d) (key x) (val x))).
  rewrite fill_get_untouched by exact N.
  apply dict_get_set_same.
Qed.
End Fill.
End DictFacts.

Lemma is_integral_zero (x : Q) : (x == 0)%Q -> is_integral x = true.
Proof.
  intros E. unfold is_integral. apply Qeq_bool_iff.
  destruct x as [n d]. unfold Qeq in E. simpl in E.
  assert (n = 0%Z) by lia. subst n. reflexivity.
Qed.

(** ** Bounds of the binary search, on any list *)

Lemma bisect_loop_bounds (a : list Z) (x : Z) (lo hi : nat) :
  (lo <= hi)%nat -> (lo <= bisect_loop a x lo hi <= hi)%nat.
Proof.
  funelim (bisect_loop a x lo hi); intros B.
  - lia.
  - assert (M : (lo <= (lo + hi) / 2 < hi)%nat)
      by (split; [apply Nat.div_le_lower_bound
                 | apply Nat.Div0.div_lt_upper_bound]; lia).
    specialize (H ltac:(lia)). lia.
  - assert (M : (lo <= (lo + hi) / 2 < hi)%nat)
      by (split; [apply Nat.div_le_lower_bound
                 | apply Nat.Div0.div_lt_upper_bound]; lia).
    specialize (H ltac:(lia)). lia.
Qed.

Lemma bisect_bounds (a : list Z) (x : Z) :
  (bisect a x <= List.length a)%nat.
Proof.
  unfold bisect. pose proof (@bisect_loop_bounds a x 0 (List.length a)). lia.
Qed.

(** [a[i]] is defined for the indices from [-len(a)] to [len(a) - 1]. *)
Lemma py_index_in_range {A} (a : list A) (i : Z) :
  (- Z.of_nat (List.length a) <= i < Z.of_nat (List.length a))%Z ->
  exists x, py_index a i = Ok x /\ In x a.
Proof.
  intros B. unfold py_index.
  set (n := Z.of_nat (List.length a)) in *.
  set (j := if (i <? 0)%Z then (i + n)%Z else i).
  assert (J : (0 <= j < n)%Z).
  { unfold j. destruct (i <? 0)%Z eqn:E;
      [apply Z.ltb_lt in E|apply Z.ltb_ge in E]; lia. }
  replace ((0 <=? j)%Z && (j <? n)%Z) with true
    by (symmetry; apply andb_true_iff; split;
        [apply Z.leb_le|apply Z.ltb_lt]; lia).
  destruct (nth_error a (Z.to_nat j)) as [x|] eqn:E.
  - exists x. split; [reflexivity|]. eapply nth_error_In. exact E.
  - apply nth_error_None in E. unfold n in J. lia.
Qed.

Lemma py_index_out_of_range {A} (a : list A) (i : Z) :
  (i < - Z.of_nat (List.length a) \/ Z.of_nat (List.length a) <= i)%Z ->
  py_index a i = Raise IndexError.
Proof.
  intros B. unfold py_index.
  set (n := Z.of_nat (List.length a)) in *.
  destruct (i <? 0)%Z eqn:E;
    [apply Z.ltb_lt in E|apply Z.ltb_ge in E].
  - replace ((0 <=? i + n)%Z && (i + n <? n)%Z) with false; [reflexivity|].
    symmetry. apply andb_false_iff. left. apply Z.leb_gt. lia.
  - replace ((0 <=? i)%Z && (i <? n)%Z) with false; [reflexivity|].
    symmetry. apply andb_false_iff. right. apply Z.ltb_ge. lia.
Qed.

(** ** Texts *)

Lemma str_length_app (a b : string) :
  String.length (a ++ b) = (String.length a + String.length b)%nat.
Proof. induction a as [|c a IH]; simpl; [reflexivity|]. rewrite IH. reflexivity. Qed.

Lemma app_assoc_str (a b c : string) :
  ((a ++ b) ++ c = a ++ (b ++ c))%string.
Proof. induction a as [|x a IH]; simpl; [reflexivity|]. rewrite IH. reflexivity. Qed.

Lemma substring_all (b : string) : substring 0 (String.length b) b = b.
Proof. induction b as [|c b IH]; simpl; [reflexivity|]. rewrite IH. reflexivity. Qed.

Lemma substring_prefix (a b : string) :
  substring 0 (String.length a) (a ++ b) = a.
Proof.
  induction a as [|c a IH]; simpl.
  - destruct b; reflexivity.
  - rewrite IH. reflexivity.
Qed.

Lemma substring_suffix (a b : string) :
  substring (String.length a) (String.length b) (a ++ b) = b.
Proof.
  induction a as [|c a IH]; simpl; [apply substring_all|exact IH].
Qed.

Lemma endswith_app (a b : string) : endswith (a ++ b) b = true.
Proof.
  unfold endswith. rewrite str_length_app.
  replace (String.length a + String.length b - String.length b)%nat
    with (String.length a) by lia.
  rewrite substring_suffix, String.eqb_refl, andb_true_r.
  apply Nat.leb_le. lia.
Qed.

Lemma drop_last_app (a b : string) :
  drop_last (String.length b) (a ++ b) = a.
Proof.
  unfold drop_last. rewrite str_length_app.
  replace (String.length a + String.length b - String.length b)%nat
    with (String.length a) by lia.
  apply substring_prefix.
Qed.

Lemma list_ascii_app (a b : string) :
  list_ascii_of_string (a ++ b)
  = (list_ascii_of_string a ++ list_ascii_of_string b)%list.
Proof. induction a as [|c a IH]; simpl; [reflexivity|]. rewrite IH. reflexivity. Qed.

Lemma In_lstrip (c : ascii) (l : list ascii) :
  In c l -> is_space c = false -> In c (lstrip l).
Proof.
  intros I S. induction l as [|x l IH]; [contradiction|].
  simpl. destruct (is_space x) eqn:E; [|exact I].
  destruct I as [->|I]; [congruence|]. apply IH, I.
Qed.

Lemma In_strip (c : ascii) (l : list ascii) :
  In c l -> is_space c = false -> In c (strip l).
Proof.
  intros I S. unfold strip. apply in_rev. rewrite rev_involutive.
  apply In_lstrip; [|exact S]. apply -> in_rev. apply In_lstrip; assumption.
Qed.

Lemma digits_rejects (c : ascii) (l : list ascii) (acc : Z) (b : bool) :
  In c l -> digit_of c = None -> c <> "_"%char ->
  digits acc b l = Raise ValueError.
Proof.
  intros I D U. revert acc b. induction l as [|x l IH]; [contradiction|].
  intros acc b. simpl. destruct (digit_of x) eqn:Dx.
  - destruct I as [->|I]; [congruence|]. apply IH, I.
  - destruct (Ascii.eqb x "_" && b)%bool eqn:E; [|reflexivity].
    apply andb_true_iff in E. destruct E as [E _].
    apply Ascii.eqb_eq in E. subst x.
    destruct I as [<-|I]; [congruence|]. apply IH, I.
Qed.

(** A text holding a character that is neither a blank, nor a digit, nor a
    sign, nor an underscore is no number for [int]. *)
Lemma int_of_str_rejects (c : ascii) (s : string) :
  In c (list_ascii_of_string s) -> is_space c = false ->
  digit_of c = None -> c <> "_"%char -> c <> "-"%char -> c <> "+"%char ->
  int_of_str s = Raise ValueError.
Proof.
  intros I S D U M P. unfold int_of_str.
  pose proof (@In_strip c _ I S) as I'.
  destruct (strip (list_ascii_of_string s)) as [|x l]; [reflexivity|].
  destruct (Ascii.eqb x "-") eqn:E1.
  { apply Ascii.eqb_eq in E1. subst x.
    destruct I' as [<-|I']; [congruence|].
    rewrite (@digits_rejects c _ 0%Z false I' D U). reflexivity. }
  destruct (Ascii.eqb x "+") eqn:E2.
  { apply Ascii.eqb_eq in E2. subst x.
    destruct I' as [<-|I']; [congruence|].
    apply (@digits_rejects c _ 0%Z false I' D U). }
  apply (@digits_rejects c _ 0%Z false I' D U).
Qed.

Lemma digit_not_space (c : ascii) :
  digit_of c <> None -> is_space c = false.
Proof.
  unfold digit_of, is_space. intros D.
  destruct (48 <=? nat_of_ascii c)%nat eqn:A; [|elim D; reflexivity].
  destruct (nat_of_ascii c <=? 57)%nat eqn:B; [|elim D; reflexivity].
  apply Nat.leb_le in A.
  replace (nat_of_ascii c <=? 13)%nat with false
    by (symmetry; apply Nat.leb_gt; lia).
  replace (nat_of_ascii c <=? 32)%nat with false
    by (symmetry; apply Nat.leb_gt; lia).
  rewrite !andb_false_r. reflexivity.
Qed.

Lemma lstrip_id (l : list ascii) :
  Forall (fun c => is_space c = false) l -> lstrip l = l.
Proof. intros F. destruct F as [|c l E F]; simpl; [reflexivity|]. rewrite E. reflexivity. Qed.

Lemma strip_id (l : list ascii) :
  Forall (fun c => is_space c = false) l -> strip l = l.
Proof.
  intros F. unfold strip. rewrite (lstrip_id F).
  rewrite lstrip_id by (apply Forall_rev, F). apply rev_involutive.
Qed.

(** [int] on a text made of digits, and on one with a minus sign before
    them. *)
Lemma int_of_str_digits (s : string) :
  Forall (fun c => digit_of c <> None) (list_ascii_of_string s) ->
  int_of_str s = digits 0 false (list_ascii_of_string s).
Proof.
  intros F. unfold int_of_str. rewrite strip_id.
  2:{ eapply Forall_impl; [|exact F]. apply digit_not_space. }
  destruct F as [|x l D F]; [reflexivity|].
  destruct (Ascii.eqb x "-") eqn:E1.
  { apply Ascii.eqb_eq in E1. subst x. elim D. reflexivity. }
  destruct (Ascii.eqb x "+") eqn:E2.
  { apply Ascii.eqb_eq in E2. subst x. elim D. reflexivity. }
  reflexivity.
Qed.

Lemma int_of_str_minus (s : string) :
  Forall (fun c => digit_of c <> None) (list_ascii_of_string s) ->
  int_of_str (String "-" s)
  = bind (digits 0 false (list_ascii_of_string s)) (fun n => Ok (- n)%Z).
Proof.
  intros F. unfold int_of_str. rewrite strip_id; [reflexivity|].
  simpl. constructor; [reflexivity|].
  eapply Forall_impl; [|exact F]. apply digit_not_space.
Qed.

Lemma digits_zeros (k : nat) (b : bool) (r : list ascii) :
  digits 0 b (list_ascii_of_string (zeros k) ++ r)
  = digits 0 (b || negb (k =? 0)%nat) r.
Proof.
  revert b. induction k as [|k IH]; intros b; simpl.
  - rewrite orb_false_r. reflexivity.
  - change (digit_of "0") with (Some 0%Z). cbv iota. rewrite IH.
    rewrite orb_true_r. reflexivity.
Qed.

Lemma digits_uint_acc (u : Decimal.uint) (acc : positive) (r : list ascii) :
  digits (Zpos acc) true
    (list_ascii_of_string (DecimalString.NilEmpty.string_of_uint u) ++ r)
  = digits (Zpos (Pos.of_uint_acc u acc)) true r.
Proof.
  revert acc. induction u as [|u IH|u IH|u IH|u IH|u IH|u IH|u IH|u IH|u IH|u IH];
    intros acc; [reflexivity|..];
    cbn [DecimalString.NilEmpty.string_of_uint list_ascii_of_string app digits];
    match goal with
    | |- context [digit_of ?c] =>
        let d := eval vm_compute in (digit_of c) in
        change (digit_of c) with d
    end;
    cbv iota; cbn [Pos.of_uint_acc]; rewrite <- IH; f_equal; lia.
Qed.

Lemma digits_uint (u : Decimal.uint) (r : list ascii) :
  digits 0 true
    (list_ascii_of_string (DecimalString.NilEmpty.string_of_uint u) ++ r)
  = digits (Z.of_N (Pos.of_uint u)) true r.
Proof.
  induction u as [|u IH|u IH|u IH|u IH|u IH|u IH|u IH|u IH|u IH|u IH];
    [reflexivity|..];
    cbn [DecimalString.NilEmpty.string_of_uint list_ascii_of_string app digits];
    match goal with
    | |- context [digit_of ?c] =>
        let d := eval vm_compute in (digit_of c) in
        change (digit_of c) with d
    end;
    cbv iota; cbn [Pos.of_uint]; [exact IH|..];
    cbn [Z.mul Z.add Z.of_N]; apply digits_uint_acc.
Qed.

Lemma uint_chars_digits (u : Decimal.uint) :
  Forall (fun c => digit_of c <> None)
    (list_ascii_of_string (DecimalString.NilEmpty.string_of_uint u)).
Proof.
  induction u; simpl; constructor; try assumption; discriminate.
Qed.

Lemma zeros_digits (k : nat) :
  Forall (fun c => digit_of c <> None) (list_ascii_of_string (zeros k)).
Proof. induction k; simpl; constructor; [discriminate|assumption]. Qed.

(** The digits that ['%.5d'] writes for a number that is not negative are
    read back as that number. *)
Lemma padded_digits (m : N) :
  let ds := DecimalString.NilZero.string_of_uint (N.to_uint m) in
  let s := (zeros (5 - String.length ds) ++ ds)%string in
  Forall (fun c => digit_of c <> None) (list_ascii_of_string s) /\
  digits 0 false (list_ascii_of_string s) = Ok (Z.of_N m).
Proof.
  intros ds s. subst s. rewrite list_ascii_app. split.
  - apply Forall_app. split; [apply zeros_digits|].
    subst ds. unfold DecimalString.NilZero.string_of_uint.
    destruct (N.to_uint m); try apply uint_chars_digits.
    simpl. constructor; [discriminate|constructor].
  - rewrite digits_zeros. simpl orb.
    assert (G : forall b,
               digits 0 b (list_ascii_of_string ds) = Ok (Z.of_N m)).
    { intros b. subst ds. rewrite <- (DecimalN.Unsigned.of_to m) at 2.
      unfold N.of_uint.
      unfold DecimalString.NilZero.string_of_uint.
      destruct (N.to_uint m) as [|u|u|u|u|u|u|u|u|u|u] eqn:E;
        [reflexivity|..];
        rewrite <- (app_nil_r (list_ascii_of_string _));
        cbn [DecimalString.NilEmpty.string_of_uint list_ascii_of_string app digits];
        match goal with
        | |- context [digit_of ?c] =>
            let d := eval vm_compute in (digit_of c) in
            change (digit_of c) with d
        end;
        cbv iota; cbn [Pos.of_uint Z.mul Z.add];
        [rewrite digits_uint; reflexivity|..];
        rewrite digits_uint_acc; reflexivity. }
    apply G.
Qed.

Lemma int_of_str_decimal5 (n : Z) : int_of_str (decimal5 n) = Ok n.
Proof.
  unfold decimal5. destruct (padded_digits (Z.abs_N n)) as [F D].
  cbv zeta in F, D.
  destruct (n <? 0)%Z eqn:S.
  - apply Z.ltb_lt in S. change ("-" ++ ?x)%string with (String "-" x).
    rewrite (int_of_str_minus _ F), D. simpl. f_equal.
    rewrite N2Z.inj_abs_N. lia.
  - apply Z.ltb_ge in S. change ("" ++ ?x)%string with x.
    rewrite (int_of_str_digits _ F), D. f_equal.
    rewrite N2Z.inj_abs_N. lia.
Qed.

Lemma substring_past (a b : string) (k : nat) :
  (String.length a <= k)%nat ->
  substring 0 k (a ++ b) = (a ++ substring 0 (k - String.length a) b)%string.
Proof.
  revert k. induction a as [|c a IH]; intros k L; simpl in *.
  - rewrite Nat.sub_0_r. reflexivity.
  - destruct k as [|k]; [lia|]. simpl. rewrite IH by lia. reflexivity.
Qed.

(** The text left of an extension no longer than [t], in a name that has a
    separator before [t] and another one before that, is no number. *)
Lemma int_of_str_rejects_dot (a t : string) (k : nat) :
  (k <= String.length t + 1)%nat ->
  int_of_str (drop_last k ((a ++ ".") ++ "." ++ t)) = Raise ValueError.
Proof.
  intros L. unfold drop_last. rewrite substring_past.
  2:{ rewrite !str_length_app. simpl. lia. }
  apply (@int_of_str_rejects "."%char _); try reflexivity; try discriminate.
  rewrite !list_ascii_app. apply in_or_app. left. apply in_or_app. right.
  left. reflexivity.
Qed.

Lemma digits_exn (acc : Z) (b : bool) (l : list ascii) (e : exn) :
  digits acc b l = Raise e -> e = ValueError.
Proof.
  revert acc b. induction l as [|c l IH]; intros acc b; simpl.
  - destruct b; congruence.
  - destruct (digit_of c); [apply IH|].
    destruct (Ascii.eqb c "_" && b)%bool; [apply IH|congruence].
Qed.

(** [int] raises nothing but [ValueError]. *)
Lemma int_of_str_exn (s : string) (e : exn) :
  int_of_str s = Raise e -> e = ValueError.
Proof.
  unfold int_of_str. destruct (strip _) as [|c l]; [congruence|].
  destruct (Ascii.eqb c "-").
  { destruct (digits 0 false l) as [n|e'] eqn:D; simpl; [discriminate|].
    intros E. injection E as <-. apply (digits_exn _ _ _ D). }
  destruct (Ascii.eqb c "+"); apply digits_exn.
Qed.

Section FillFresh.
Context {K V A : Type} (eqb : K -> K -> bool).
Hypothesis eqb_eq : forall a b, eqb a b = true <-> a = b.
Variables (key : A -> K) (val : A -> V).

(** Filled with keys that are new and all different, a dictionary lists
    them after its own, in the order they came. *)
Lemma fill_keys_fresh (l : list A) (d : dict (K:=K) (V:=V)) :
  NoDup (map key l) ->
  (forall x, In x l -> ~ In (key x) (dict_keys d)) ->
  dict_keys (fill eqb key val l d) = dict_keys d ++ map key l.
Proof.
  revert d. induction l as [|x l IH]; intros d N F; simpl.
  { rewrite app_nil_r. reflexivity. }
  inversion N as [|? ? Nx N']; subst.
  assert (G : dict_get eqb d (key x) = None).
  { destruct (dict_get eqb d (key x)) eqn:E; [|reflexivity].
    elim (F x (or_introl eq_refl)).
    apply (dict_get_keys eqb eqb_eq). eauto. }
  change (fold_left (fun m y => dict_set eqb m (key y) (val y)) l
            (dict_set eqb d (key x) (val x)))
    with (fill eqb key val l (dict_set eqb d (key x) (val x))).
  rewrite IH.
  - rewrite dict_keys_set, G, <- app_assoc. reflexivity.
  - exact N'.
  - intros y Iy. rewrite dict_keys_set, G. intros C.
    apply in_app_or in C. destruct C as [C|[C|[]]].
    + apply (F y (or_intror Iy) C).
    + apply Nx. rewrite C. apply in_map. exact Iy.
Qed.
End FillFresh.

End PyExtra.

(* ===================================================================== *)
(** * More properties of [multiplex.variate] *)
(* ===================================================================== *)

Module MultiplexExtra.
Import Py PyFacts PyExtra Multiplex MultiplexFacts.
Local Open Scope Q_scope.

Lemma fold_min_spec (l : list Z) (x : Z) :
  In (fold_left Z.min l x) (x :: l) /\
  (forall y, In y (x :: l) -> (fold_left Z.min l x <= y)%Z).
Proof.
  revert x. induction l as [|a l IH]; intros x; simpl.
  - split; [auto|]. intros y [E|[]]. lia.
  - destruct (IH (Z.min x a)) as [I L]. split.
    + destruct I as [E|I]; [|auto].
      rewrite <- E. destruct (Z.min_spec x a) as [[_ M]|[_ M]]; rewrite M; auto.
    + intros y [E|[E|Iy]].
      * subst y. specialize (L (Z.min x a) (or_introl eq_refl)). lia.
      * subst y. specialize (L (Z.min x a) (or_introl eq_refl)). lia.
      * apply L. right. exact Iy.
Qed.

Lemma fold_max_spec (l : list Z) (x : Z) :
  In (fold_left Z.max l x) (x :: l) /\
  (forall y, In y (x :: l) -> (y <= fold_left Z.max l x)%Z).
Proof.
  revert x. induction l as [|a l IH]; intros x; simpl.
  - split; [auto|]. intros y [E|[]]. lia.
  - destruct (IH (Z.max x a)) as [I L]. split.
    + destruct I as [E|I]; [|auto].
      rewrite <- E. destruct (Z.max_spec x a) as [[_ M]|[_ M]]; rewrite M; auto.
    + intros y [E|[E|Iy]].
      * subst y. specialize (L (Z.max x a) (or_introl eq_refl)). lia.
      * subst y. specialize (L (Z.max x a) (or_introl eq_refl)). lia.
      * apply L. right. exact Iy.
Qed.

Section WithHost.
Context `{Host}.

(** ** The scan of the directory *)

(** What a scan that went through has built. *)
Lemma scan_inv (s : settings) (files : list (Z * string * parser))
    (rc : recordContext) :
  scan s files = Ok rc ->
  rc_settings rc = s /\
  dirmap rc = fill Z.eqb (fun f => fst (fst f)) (fun f => snd (fst f)) files [] /\
  parsermap rc
  = fill String.eqb (fun f => snd (fst f)) (fun f => snd f) files [] /\
  keys rc = dict_keys (dirmap rc) /\
  py_min (keys rc) = Ok (fst (bounds rc)) /\
  py_max (keys rc) = Ok (snd (bounds rc)).
Proof.
  unfold scan, fill. intros E.
  destruct (py_min _) as [lo|e] eqn:Emin; simpl in E; [|discriminate].
  destruct (py_max _) as [hi|e] eqn:Emax; simpl in E; [|discriminate].
  injection E as <-. simpl. repeat split; assumption.
Qed.

(** X1: a scan registers every snapshot number found in the directory
    exactly once, in [keys]; when several files carry the same number, the
    file listed last is the one served for it. *)
Theorem X1_scan_registers_each_number_once
    (s : settings) (files : list (Z * string * parser))
    (rc : recordContext) :
  scan s files = Ok rc ->
  NoDup (keys rc) /\
  (forall k, In k (keys rc) <-> exists f p, In (k, f, p) files) /\
  (forall l1 l2 k f p,
     files = l1 ++ (k, f, p) :: l2 ->
     (forall e, In e l2 -> fst (fst e) <> k) ->
     subscript Z.eqb (dirmap rc) k = Ok f).
Proof.
  intros E. destruct (scan_inv _ _ E) as (_ & Ed & _ & Ek & _).
  rewrite Ek, Ed. split; [|split].
  - apply (fill_NoDup Z.eqb Z.eqb_eq). constructor.
  - intros k. rewrite (fill_keys Z.eqb Z.eqb_eq). simpl. split.
    + intros [[]|([[k' f] p] & I & Ek')]. simpl in Ek'. subst k'. eauto.
    + intros (f & p & I). right. exists (k, f, p). auto.
  - intros l1 l2 k f p El N. unfold subscript. rewrite El.
    pose proof (fill_get_last Z.eqb Z.eqb_eq (fun f => fst (fst f))
                  (fun f => snd (fst f)) l1 l2 (k, f, p) [] N) as G.
    simpl in G. rewrite G. reflexivity.
Qed.

(** On the files registered by the listing, lines 122-125 fail, with
    [ValueError], exactly when there is none; otherwise [bounds] holds the
    least and the greatest registered number. *)
Lemma scan_bounds (s : settings) (files : list (Z * string * parser)) :
  (files = [] -> scan s files = Raise ValueError) /\
  (files <> [] ->
   exists rc,
     scan s files = Ok rc /\
     In (fst (bounds rc)) (keys rc) /\ In (snd (bounds rc)) (keys rc) /\
     (forall k, In k (keys rc) ->
                (fst (bounds rc) <= k <= snd (bounds rc))%Z)).
Proof.
  split.
  - intros ->. reflexivity.
  - intros N.
    pose (dm := fill Z.eqb (fun f : Z * string * parser => fst (fst f))
                     (fun f => snd (fst f)) files []).
    unfold scan.
    change (fold_left
              (fun m (f : Z * string * parser) =>
                 dict_set Z.eqb m (fst (fst f)) (snd (fst f))) files [])
      with dm.
    assert (Kne : dict_keys dm <> []).
    { destruct files as [|[[k f] p] rest]; [contradiction|].
      assert (I : In k (dict_keys dm)).
      { unfold dm.
        apply (fill_keys Z.eqb Z.eqb_eq (fun f => fst (fst f))
                 (fun f => snd (fst f)) ((k, f, p) :: rest) [] k).
        right. exists (k, f, p). simpl. auto. }
      intros C. rewrite C in I. destruct I. }
    destruct (dict_keys dm) as [|x l] eqn:Ek; [contradiction|].
    simpl. eexists. split; [reflexivity|]. simpl.
    destruct (fold_min_spec l x) as [Imin Lmin].
    destruct (fold_max_spec l x) as [Imax Lmax].
    split; [exact Imin|]. split; [exact Imax|].
    intros k Ik. split; [apply Lmin|apply Lmax]; exact Ik.
Qed.

Lemma registered_file_and_codec
    (s : settings) (files : list (Z * string * parser))
    (rc : recordContext) (k : Z) :
  scan s files = Ok rc -> In k (keys rc) ->
  exists f p,
    subscript Z.eqb (dirmap rc) k = Ok f /\
    subscript String.eqb (parsermap rc) f = Ok p.
Proof.
  intros E Ik. destruct (scan_inv _ _ E) as (_ & Ed & Ep & Ek & _).
  rewrite Ek in Ik. apply (dict_get_keys Z.eqb Z.eqb_eq) in Ik.
  destruct Ik as [f Ef]. exists f.
  assert (If : exists k' p', In (k', f, p') files).
  { (* the file comes from the listing *)
    clear - Ed Ef. rewrite Ed in Ef. clear Ed.
    assert (G : forall d,
               dict_get Z.eqb
                 (fill Z.eqb (fun f => fst (fst f)) (fun f => snd (fst f))
                       files d) k = Some f ->
               dict_get Z.eqb d k = Some f \/
               exists k' p', In (k', f, p') files).
    { clear Ef.
      induction files as [|[[k0 f0] p0] rest IH]; intros d G; simpl in G.
      - auto.
      - apply IH in G. destruct G as [G|(k' & p' & I)].
        + destruct (Z.eq_dec k0 k) as [->|Nk].
          * rewrite (dict_get_set_same Z.eqb Z.eqb_eq) in G. injection G as <-.
            right. exists k, p0. left. reflexivity.
          * rewrite (dict_get_set_other Z.eqb Z.eqb_eq) in G by exact Nk. auto.
        + right. exists k', p'. right. exact I. }
    destruct (G [] Ef) as [C|X]; [discriminate|exact X]. }
  destruct If as (k' & p' & If).
  assert (Ip : In f (dict_keys (parsermap rc))).
  { rewrite Ep.
    apply (fill_keys String.eqb String.eqb_eq (fun f => snd (fst f)) (fun f => snd f)).
    right. exists (k', f, p'). auto. }
  apply (dict_get_keys String.eqb String.eqb_eq) in Ip. destruct Ip as [p Ep'].
  exists p. unfold subscript. rewrite Ef, Ep'. auto.
Qed.

(** X3: every registered number leads to a data file and to the codec of
    that file: the subscripts of lines 208-211 do not raise [KeyError]. *)
Theorem X3_registered_numbers_have_file_and_codec
    (s : settings) (files : list (Z * string * parser))
    (rc : recordContext) (k : Z) :
  scan s files = Ok rc -> In k (keys rc) ->
  exists f p,
    subscript Z.eqb (dirmap rc) k = Ok f /\
    subscript String.eqb (parsermap rc) f = Ok p.
Proof. apply registered_file_and_codec. Qed.

(** ** The index that the clock designates *)

Lemma candidate_Ok_inv (rc : recordContext) (now booted : Q) (n : Z) :
  candidate rc now booted = Ok n ->
  exists x, n = (Z.of_nat (bisect (keys rc) x) - 1)%Z.
Proof.
  unfold candidate.
  destruct (py_mod _ _) as [y|e]; simpl; [|discriminate].
  destruct (py_truediv _ _) as [q|e]; simpl; [|discriminate].
  intros E. injection E as <-. eauto.
Qed.

Lemma candidate_index (rc : recordContext) (now booted : Q) (n : Z) :
  keys rc <> [] -> candidate rc now booted = Ok n ->
  (-1 <= n < Z.of_nat (List.length (keys rc)))%Z /\
  exists k, py_index (keys rc) n = Ok k /\ In k (keys rc).
Proof.
  intros Ne C. destruct (candidate_Ok_inv _ _ _ C) as [x ->].
  pose proof (bisect_bounds (keys rc) x) as B.
  assert (L : (0 < List.length (keys rc))%nat)
    by (destruct (keys rc); [contradiction|simpl; lia]).
  split; [lia|]. apply py_index_in_range. lia.
Qed.

(** X4: whatever the order of [keys], the index that lines 194-201 compute
    lies between -1 and [len(keys) - 1], so that [keys[fileno]] at line 209
    does not raise [IndexError]; -1 designates the last key. *)
Theorem X4_candidate_is_an_index_of_keys
    (rc : recordContext) (now booted : Q) (n : Z) :
  keys rc <> [] -> candidate rc now booted = Ok n ->
  (-1 <= n < Z.of_nat (List.length (keys rc)))%Z /\
  exists k, py_index (keys rc) n = Ok k /\ In k (keys rc).
Proof. apply candidate_index. Qed.

(** X9: with a period of 0 every read of a subtree in periodic mode raises
    [ZeroDivisionError] (line 197) and leaves the session as it was. *)
Theorem X9_zero_period_raises
    (t : tag) (ctx : context) (now booted : Q) (rc : recordContext)
    (ms : session) :
  control (rc_settings rc) = None -> setFlag ctx = false ->
  period (rc_settings rc) == 0 ->
  variate t ctx now booted (Some rc) ms = (Raise ZeroDivisionError, ms).
Proof.
  intros C S P. unfold variate, choose, candidate, py_mod.
  rewrite S, C.
  replace (Qeq_bool _ 0) with true; [reflexivity|].
  symmetry. apply Qeq_bool_iff. rewrite P. ring.
Qed.

Lemma candidate_defined (rc : recordContext) (now booted : Q) :
  keys rc = dict_keys (dirmap rc) -> keys rc <> [] ->
  ~ period (rc_settings rc) == 0 ->
  exists n, candidate rc now booted = Ok n.
Proof.
  intros K Ne P. unfold candidate, py_mod, py_truediv.
  assert (L : (0 < List.length (dirmap rc))%nat).
  { rewrite K in Ne. unfold dict_keys in Ne.
    destruct (dirmap rc); [contradiction|simpl; lia]. }
  destruct (Qeq_bool (period (rc_settings rc) * _) 0) eqn:E.
  { apply Qeq_bool_iff in E. apply Qmult_integral in E.
    destruct E as [E|E]; [contradiction|].
    exfalso. revert E. unfold Qeq. simpl. lia. }
  simpl. destruct (Qeq_bool (period (rc_settings rc)) 0) eqn:E'.
  { apply Qeq_bool_iff in E'. contradiction. }
  simpl. eauto.
Qed.

(** ** The session stays well formed *)

Lemma update_fileno_cases (w : bool) (ms : session) (n : Z) :
  update_fileno w ms n = ms \/ update_fileno w ms n = set_fileno ms n.
Proof.
  unfold update_fileno.
  destruct (match fileno ms with Some _ => _ | None => _ end); auto.
Qed.

Lemma set_fileno_ok (rc : recordContext) (ms : session) (n : Z) :
  session_ok rc ms ->
  (- Z.of_nat (List.length (keys rc)) <= n
   < Z.of_nat (List.length (keys rc)))%Z ->
  session_ok rc (set_fileno ms n).
Proof.
  intros [F D] B. split; simpl.
  - intros m E. injection E as <-. exact B.
  - exact D.
Qed.

Lemma choose_ok (ctx : context) (rc : recordContext) (now booted : Q)
    (ms : session) :
  keys rc <> [] -> session_ok rc ms ->
  session_ok rc (snd (choose ctx rc now booted ms)).
Proof.
  intros Ne Ok. unfold choose.
  assert (L : (0 < List.length (keys rc))%nat)
    by (destruct (keys rc); [contradiction|simpl; lia]).
  destruct (control (rc_settings rc)) as [c|].
  - assert (Ok' : session_ok rc match fileno ms with
                               | Some _ => ms
                               | None => set_fileno ms 0
                               end).
    { destruct (fileno ms); [exact Ok|]. apply set_fileno_ok; [exact Ok|lia]. }
    destruct (negb (nextFlag ctx) && oid_eqb c (origOid ctx)); exact Ok'.
  - destruct (candidate rc now booted) as [n|e] eqn:C; simpl; [|exact Ok].
    destruct (update_fileno_cases (wrap (rc_settings rc)) ms n) as [E|E];
      rewrite E; [exact Ok|].
    apply set_fileno_ok; [exact Ok|].
    destruct (candidate_index _ _ _ Ne C) as [B _]. lia.
Qed.

Lemma open_datafile_ok (rc : recordContext) (ms : session) :
  session_ok rc ms -> session_ok rc (snd (open_datafile rc ms)).
Proof.
  intros Ok. pose proof Ok as [F D]. unfold open_datafile.
  destruct (bind _ _) as [[f p]|e]; simpl; [|exact Ok].
  destruct (match datafile ms with Some _ => _ | None => _ end); simpl.
  - split; simpl; [exact F|]. intros f' _. eauto.
  - destruct (datafileobj ms); exact Ok.
Qed.

Lemma variate_ok (t : tag) (ctx : context) (now booted : Q)
    (rc : recordContext) (ms : session) :
  keys rc <> [] -> session_ok rc ms ->
  session_ok rc (snd (variate t ctx now booted (Some rc) ms)).
Proof.
  intros Ne Ok. unfold variate. destruct (setFlag ctx).
  - destruct (write_always_raises t ctx rc ms) as [E|E]; rewrite E; exact Ok.
  - pose proof (choose_ok ctx now booted Ne Ok) as C.
    destruct (choose ctx rc now booted ms) as [[[v|]|e] ms1]; simpl in *;
      try exact C.
    pose proof (open_datafile_ok C) as O.
    destruct (open_datafile rc ms1) as [[[p idx]|e] ms2]; simpl in *; exact O.
Qed.

Lemma scan_keys_nonempty (s : settings) (files : list (Z * string * parser))
    (rc : recordContext) :
  scan s files = Ok rc -> keys rc <> [].
Proof.
  intros E. destruct (scan_inv _ _ E) as (_ & _ & _ & _ & M & _).
  intros C. rewrite C in M. discriminate M.
Qed.

(** X6: over any sequence of requests served from a fresh session of a
    scanned directory, [fileno], once set, stays an index that [keys]
    accepts, and a data file name is kept in the session only with its open
    index. *)
Theorem X6_sessions_stay_well_formed
    (s : settings) (files : list (Z * string * parser)) (rc : recordContext)
    (booted : Q) (reqs : list request) :
  scan s files = Ok rc ->
  Forall (session_ok rc) (run booted (Some rc) reqs empty_session).
Proof.
  intros E. pose proof (scan_keys_nonempty _ _ E) as Ne.
  assert (G : forall ms, session_ok rc ms ->
                         Forall (session_ok rc) (run booted (Some rc) reqs ms)).
  { induction reqs as [|rq rest IH]; intros ms Ok; cbn [run].
    - constructor.
    - pose proof (variate_ok (rq_tag rq) (rq_ctx rq) (rq_now rq) booted
                    Ne Ok) as Ok'.
      constructor; [exact Ok'|apply IH; exact Ok']. }
  apply G. split; simpl; intros; discriminate.
Qed.

(** ** What a read can raise *)

Lemma decode_raises (t : tag) (ctx : context) (p : parser) (line : string)
    (e : exn) :
  decode t ctx p line = Raise e ->
  is_SnmpsimError e = false /\ evaluate p line = Raise e.
Proof.
  unfold decode. destruct (line =? "")%string; [discriminate|].
  destruct (evaluate p line) as [[o v]|e'] eqn:E; [discriminate|].
  destruct (is_SnmpsimError e') eqn:I; [discriminate|].
  intros X. injection X as <-. auto.
Qed.

Lemma answer_raises (t : tag) (ctx : context) (p : parser)
    (idx : RecordIndex) (offset : Z) (exact : bool) (e : exn) :
  answer t ctx p idx offset exact = Raise e ->
  is_SnmpsimError e = false /\ exists line, evaluate p line = Raise e.
Proof.
  unfold answer. destruct (get_record (ri_text idx) offset) as [line after].
  destruct (nextFlag ctx); [destruct exact|destruct (negb exact)];
    try discriminate; intros X; apply decode_raises in X;
    destruct X as [I E]; eauto.
Qed.

Lemma open_datafile_defined (s : settings)
    (files : list (Z * string * parser)) (rc : recordContext)
    (ms : session) (n : Z) :
  scan s files = Ok rc -> session_ok rc ms -> fileno ms = Some n ->
  exists p idx ms', open_datafile rc ms = (Ok (p, idx), ms').
Proof.
  intros E [F D] En. unfold open_datafile. rewrite En. simpl.
  destruct (py_index_in_range (keys rc) (F n En)) as (k & Ek & Ik).
  rewrite Ek. simpl.
  destruct (registered_file_and_codec _ _ k E Ik)
    as (f & p & Ef & Ep).
  rewrite Ef. simpl. rewrite Ep. simpl.
  destruct (datafile ms) as [f'|] eqn:Ed.
  - destruct (negb (f' =? f)%string); [eauto|].
    destruct (D f' eq_refl) as [idx Ei]. rewrite Ei. eauto.
  - eauto.
Qed.

(** X5: a read of a subtree whose directory was scanned, from a well-formed
    session and with a period that is not 0 in periodic mode, raises neither
    [KeyError] nor [IndexError] nor [ZeroDivisionError]: it is answered,
    unless the codec raises an exception that is not a [SnmpsimError], which
    is passed on. *)
Theorem X5_read_raises_only_what_the_codec_raises
    (s : settings) (files : list (Z * string * parser)) (rc : recordContext)
    (t : tag) (ctx : context) (now booted : Q) (ms : session) :
  scan s files = Ok rc -> session_ok rc ms -> setFlag ctx = false ->
  (control (rc_settings rc) = None -> ~ period (rc_settings rc) == 0) ->
  match fst (variate t ctx now booted (Some rc) ms) with
  | Ok _ => True
  | Raise e =>
      is_SnmpsimError e = false /\ exists p line, evaluate p line = Raise e
  end.
Proof.
  intros E Hok S P. pose proof (scan_keys_nonempty _ _ E) as Ne.
  destruct (scan_inv _ _ E) as (_ & _ & _ & K & _).
  unfold variate. rewrite S.
  pose proof (choose_ok ctx now booted Ne Hok) as Ok1.
  assert (C : (exists v ms1, choose ctx rc now booted ms = (Ok (Answer v), ms1))
              \/ exists ms1 n, choose ctx rc now booted ms = (Ok GoOn, ms1)
                               /\ fileno ms1 = Some n).
  { unfold choose. destruct (control (rc_settings rc)) as [c|].
    - destruct (negb (nextFlag ctx) && oid_eqb c (origOid ctx)); [eauto|].
      right. destruct (fileno ms) as [n|] eqn:En; [eauto|].
      eexists _, 0%Z. split; reflexivity.
    - destruct (@candidate_defined rc now booted K Ne (P eq_refl)) as [n Cn].
      rewrite Cn. right.
      assert (exists m, fileno (update_fileno (wrap (rc_settings rc)) ms n)
                        = Some m) as [m Em].
      { unfold update_fileno.
        destruct (fileno ms) as [old|] eqn:Eo; simpl; [|eauto].
        destruct ((old <? n)%Z || wrap (rc_settings rc)); simpl; eauto. }
      eexists _, m. split; [reflexivity|exact Em]. }
  destruct C as [(v & ms1 & C)|(ms1 & n & C & En)]; rewrite C in *;
    simpl in *; [exact I|].
  destruct (@open_datafile_defined s files rc ms1 n E Ok1 En)
    as (p & idx & ms2 & O).
  rewrite O. simpl.
  destruct (answer t ctx p idx _ _) as [r|e] eqn:A; [exact I|].
  apply answer_raises in A. destruct A as [Ie [line El]]. eauto.
Qed.

(** ** Serving a request again *)

Lemma set_fileno_same (ms : session) (n : Z) :
  fileno ms = Some n -> set_fileno ms n = ms.
Proof. destruct ms; simpl. intros ->. reflexivity. Qed.

Lemma open_datafile_again (rc : recordContext) (ms : session) :
  open_datafile rc (snd (open_datafile rc ms)) = open_datafile rc ms.
Proof.
  unfold open_datafile at 2 3.
  destruct (bind _ _) as [[f p]|e] eqn:B.
  - destruct (match datafile ms with Some _ => _ | None => _ end) eqn:M.
    + unfold open_datafile. cbn [snd fileno datafile datafileobj].
      rewrite B. rewrite String.eqb_refl. reflexivity.
    + destruct (datafileobj ms) eqn:O; cbn [snd];
        unfold open_datafile; rewrite B, M, O; reflexivity.
  - cbn [snd]. unfold open_datafile. rewrite B. reflexivity.
Qed.

(** X7: a request served a second time at the same moment gets the same
    outcome and leaves the session as the first time left it. *)
Theorem X7_same_request_again
    (t : tag) (ctx : context) (now booted : Q) (rc : option recordContext)
    (ms : session) :
  variate t ctx now booted rc (snd (variate t ctx now booted rc ms))
  = variate t ctx now booted rc ms.
Proof.
  destruct rc as [rc|]; [|reflexivity].
  (* what [choose] does depends on [fileno] alone *)
  assert (Ch : forall ms1 r,
             choose ctx rc now booted ms = (r, ms1) ->
             forall ms2, fileno ms2 = fileno ms1 ->
                         choose ctx rc now booted ms2 = (r, ms2)).
  { intros ms1 r C ms2 F. unfold choose in *.
    destruct (control (rc_settings rc)) as [c|].
    - assert (exists n, fileno ms1 = Some n
                        /\ n = match fileno ms with Some n => n | None => 0%Z end)
        as (n & En & Dn).
      { destruct (negb (nextFlag ctx) && oid_eqb c (origOid ctx));
          injection C as <- <-; destruct (fileno ms) eqn:Eo; simpl; eauto. }
      cbv zeta in *. rewrite F, En. rewrite <- Dn in C.
      destruct (negb (nextFlag ctx) && oid_eqb c (origOid ctx));
        injection C as <- _; reflexivity.
    - destruct (candidate rc now booted) as [n|e].
      + injection C as <- <-. f_equal.
        unfold update_fileno in *.
        destruct (fileno ms) as [old|] eqn:Eo; cbn [fileno set_fileno] in *.
        * destruct ((old <? n)%Z || wrap (rc_settings rc)) eqn:Cd;
            cbn [fileno set_fileno] in F; rewrite F.
          -- rewrite Z.ltb_irrefl. simpl.
             destruct (wrap (rc_settings rc)); [|reflexivity].
             apply set_fileno_same. exact F.
          -- rewrite Eo, Cd. reflexivity.
        * rewrite F. rewrite Z.ltb_irrefl. simpl.
          destruct (wrap (rc_settings rc)); [|reflexivity].
          apply set_fileno_same. exact F.
      + injection C as <- <-. reflexivity. }
  unfold variate. destruct (setFlag ctx) eqn:S.
  { destruct (write_always_raises t ctx rc ms) as [E|E]; rewrite E;
      cbn [snd]; exact E. }
  destruct (choose ctx rc now booted ms) as [r ms1] eqn:C.
  destruct r as [[v|]|e].
  - cbn [snd]. rewrite (Ch ms1 _ eq_refl ms1 eq_refl). reflexivity.
  - pose proof (open_datafile_fileno rc ms1) as Fo.
    pose proof (open_datafile_again rc ms1) as Oa.
    destruct (open_datafile rc ms1) as [[[p idx]|e] ms2] eqn:O;
      cbn [snd] in *; rewrite (Ch ms1 _ eq_refl ms2 Fo), Oa; reflexivity.
  - cbn [snd]. rewrite (Ch ms1 _ eq_refl ms1 eq_refl). reflexivity.
Qed.

(** ** Control mode *)

(** X8: with a control identifier configured, the clock plays no part in
    serving a request, and over any sequence of requests served from a
    fresh session [fileno] is never anything but 0: the first registered
    snapshot is the one served. *)
Theorem X8_control_mode_serves_the_first_snapshot
    (rc : recordContext) (c : oid) :
  control (rc_settings rc) = Some c ->
  (forall t ctx now booted now' booted' ms,
     variate t ctx now booted (Some rc) ms
     = variate t ctx now' booted' (Some rc) ms) /\
  (forall booted reqs,
     Forall (fun ms => fileno ms = None \/ fileno ms = Some 0%Z)
            (run booted (Some rc) reqs empty_session)).
Proof.
  intros C. split.
  - intros. unfold variate, choose. rewrite C. reflexivity.
  - intros booted reqs.
    assert (G : forall ms, (fileno ms = None \/ fileno ms = Some 0%Z) ->
                Forall (fun ms => fileno ms = None \/ fileno ms = Some 0%Z)
                       (run booted (Some rc) reqs ms)).
    { induction reqs as [|rq rest IH]; intros ms F; cbn [run].
      - constructor.
      - assert (F' : fileno (snd (variate (rq_tag rq) (rq_ctx rq) (rq_now rq)
                                    booted (Some rc) ms)) = None \/
                     fileno (snd (variate (rq_tag rq) (rq_ctx rq) (rq_now rq)
                                    booted (Some rc) ms)) = Some 0%Z).
        { unfold variate. destruct (setFlag (rq_ctx rq)).
          - destruct (write_always_raises (rq_tag rq) (rq_ctx rq) rc ms)
              as [E|E]; rewrite E; exact F.
          - unfold choose. rewrite C.
            set (ms1 := match fileno ms with
                        | Some _ => ms
                        | None => set_fileno ms 0
                        end).
            assert (F1 : fileno ms1 = Some 0%Z).
            { unfold ms1. destruct F as [F|F]; rewrite F; [reflexivity|exact F]. }
            destruct (negb (nextFlag (rq_ctx rq)) && oid_eqb c _); simpl;
              [auto|].
            pose proof (open_datafile_fileno rc ms1) as O.
            destruct (open_datafile rc ms1) as [[[p idx]|e] ms2]; simpl in *;
              rewrite O; auto. }
        constructor; [exact F'|apply IH; exact F']. }
    apply G. left. reflexivity.
Qed.

(** ** The wrap flag *)

(** X10: any text after [wrap=] but the empty one turns the wrap flag on,
    [wrap=false] and [wrap=0] too: in periodic mode every read then sets
    [fileno] to the index the clock designates, lower than before or not. *)
Theorem X10_any_wrap_text_turns_wrap_on
    (d : string) (p : option Q) (w : string)
    (t : tag) (ctx : context) (now booted : Q) (rc : recordContext)
    (ms : session) (n : Z) :
  w <> ""%string ->
  rc_settings rc = convert d p (Some w) None ->
  setFlag ctx = false -> candidate rc now booted = Ok n ->
  fileno (snd (variate t ctx now booted (Some rc) ms)) = Some n.
Proof.
  intros W E S C.
  assert (Ec : control (rc_settings rc) = None) by (rewrite E; reflexivity).
  assert (Ew : wrap (rc_settings rc) = true).
  { rewrite E. simpl. destruct (w =? "")%string eqn:X; [|reflexivity].
    apply String.eqb_eq in X. contradiction. }
  rewrite (@variate_periodic_read_fileno _ t ctx now booted rc ms n Ec S C).
  rewrite Ew. unfold update_fileno.
  destruct (fileno ms); simpl; [rewrite orb_true_r|]; reflexivity.
Qed.

End WithHost.

(** ** Stop signals *)

(** One stop signal on a recording that is ready, with its period set and
    a file number whenever a file is open. *)
Lemma record_stop_step (clock : nat -> Q) (mc : recording) (n : Z) (p : Q) :
  ready mc = true -> iterations mc = Some n -> rec_period mc = Some p ->
  (file mc <> None -> filenum mc <> None) ->
  let mc' := snd (fst (record_stop clock mc)) in
  ready mc' = true /\ rec_period mc' = Some p /\ file mc' = None /\
  (n = 0%Z ->
   fst (fst (record_stop clock mc)) = NoDataNotification /\
   iterations mc' = Some 0%Z) /\
  (n <> 0%Z ->
   (exists w, fst (fst (record_stop clock mc)) = MoreDataNotification w) /\
   iterations mc' = Some (n - 1)%Z /\
   filenum mc' = match file mc with
                 | Some _ => option_map Z.succ (filenum mc)
                 | None => Some 1%Z
                 end).
Proof.
  intros R I P F. unfold record_stop. rewrite R, I, P. cbn [negb].
  destruct (n =? 0)%Z eqn:E.
  - apply Z.eqb_eq in E. subst n. cbn.
    split; [reflexivity|]. split; [reflexivity|]. split; [reflexivity|].
    split; [intros _; split; reflexivity|].
    intros C. exfalso. apply C. reflexivity.
  - apply Z.eqb_neq in E.
    destruct (file mc) as [f|] eqn:Ef.
    + destruct (filenum mc) as [k|] eqn:Ek; [|exfalso; apply F; congruence].
      cbn.
      split; [reflexivity|]. split; [reflexivity|]. split; [reflexivity|].
      split; [intros C; contradiction|]. intros _.
      split; [eauto|]. split; reflexivity.
    + cbn.
      split; [reflexivity|]. split; [reflexivity|]. split; [reflexivity|].
      split; [intros C; contradiction|]. intros _.
      split; [eauto|]. split; reflexivity.
Qed.

Lemma stop_signals_count
    (clocks : list (nat -> Q)) (mc : recording) (n : nat) (p : Q) :
  ready mc = true -> iterations mc = Some (Z.of_nat n) ->
  rec_period mc = Some p ->
  (file mc <> None -> filenum mc <> None) ->
  forall i, (i < List.length clocks)%nat ->
    ((i < n)%nat ->
     exists w, nth_error (stop_signals clocks mc) i
               = Some (MoreDataNotification w)) /\
    ((n <= i)%nat ->
     nth_error (stop_signals clocks mc) i = Some NoDataNotification).
Proof.
  revert mc n. induction clocks as [|c rest IH]; intros mc n R I P F i L;
    simpl in L; [lia|].
  destruct (record_stop_step c mc R I P F) as (R' & P' & F' & Z0 & Zn).
  cbn [stop_signals].
  destruct n as [|n].
  - destruct (Z0 eq_refl) as [E I']. split; [lia|]. intros _.
    destruct i as [|i]; simpl; [rewrite E; reflexivity|].
    apply (IH _ 0%nat R' I' P'); [rewrite F'; congruence|lia|lia].
  - destruct (Zn ltac:(lia)) as ([w E] & I' & _).
    replace (Z.of_nat (S n) - 1)%Z with (Z.of_nat n) in I' by lia.
    destruct i as [|i]; simpl.
    + split; [|lia]. intros _. rewrite E. eauto.
    + destruct (IH _ n R' I' P' ltac:(rewrite F'; congruence) i ltac:(lia))
        as [A B].
      split; intros; [apply A|apply B]; lia.
Qed.

(** X11: on a recording with [n] iterations remaining, the first [n] stop
    signals each raise [MoreDataNotification] and every later one raises
    [NoDataNotification]. *)
Theorem X11_stop_signals_count_the_iterations
    (clocks : list (nat -> Q)) (mc : recording) (n : nat) (p : Q) :
  ready mc = true -> iterations mc = Some (Z.of_nat n) ->
  rec_period mc = Some p ->
  (file mc <> None -> filenum mc <> None) ->
  forall i, (i < List.length clocks)%nat ->
    ((i < n)%nat ->
     exists w, nth_error (stop_signals clocks mc) i
               = Some (MoreDataNotification w)) /\
    ((n <= i)%nat ->
     nth_error (stop_signals clocks mc) i = Some NoDataNotification).
Proof. apply stop_signals_count. Qed.

(** X12: stop signals that come while no file is open restart the
    numbering of the files: after one or more of them, with iterations
    remaining for each, the file number is 1 whatever it was. *)
Theorem X12_stops_without_file_restart_the_numbering
    (clocks : list (nat -> Q)) (mc : recording) (n : nat) (p : Q) :
  ready mc = true -> iterations mc = Some (Z.of_nat n) ->
  rec_period mc = Some p -> file mc = None ->
  clocks <> [] -> (List.length clocks <= n)%nat ->
  filenum (after_stops clocks mc) = Some 1%Z.
Proof.
  revert mc n. induction clocks as [|c rest IH]; intros mc n R I P F Ne L;
    [contradiction|].
  simpl in L. cbn [after_stops].
  destruct (record_stop_step c mc R I P ltac:(rewrite F; congruence))
    as (R' & P' & F' & _ & Zn).
  destruct (Zn ltac:(lia)) as (_ & I' & Fn). rewrite F in Fn.
  destruct rest as [|c' rest'].
  - exact Fn.
  - replace (Z.of_nat n - 1)%Z with (Z.of_nat (n - 1)) in I' by lia.
    apply (IH _ (n - 1)%nat R' I' P' F'); [discriminate|simpl in *; lia].
Qed.

(** X13: the wait that a stop signal hands to the caller lies between 0 and
    the period when the clock does not go back, whenever the pass began. *)
Theorem X13_stop_wait_within_the_period
    (clock : nat -> Q) (mc mc' : recording) (closed : list string)
    (w p : Q) :
  record_stop clock mc = (MoreDataNotification w, mc', closed) ->
  rec_period mc = Some p ->
  (forall k, clock k <= clock (S k)) ->
  0 <= w /\ (0 <= p -> w <= p).
Proof.
  unfold record_stop. intros E P M. rewrite P in E.
  destruct (negb (ready mc)); [discriminate|].
  destruct (iterations mc) as [n|]; [|discriminate].
  destruct (n =? 0)%Z; [discriminate|].
  destruct (match file mc with Some _ => filenum mc | None => Some 0%Z end);
    [|discriminate].
  injection E as <- _ _.
  set (k := match started mc with Some _ => 0%nat | None => 1%nat end).
  specialize (M k). unfold max0.
  destruct (Qltb 0 (p - (clock (S k) - clock k))) eqn:L.
  - apply Qltb_lt in L. split; [lra|]. intros _. lra.
  - split; [lra|]. intros P0. exact P0.
Qed.

(** ** The listing of the directory *)

Section Listing.
Context `{Host}.
Variable RECORD_SET : dict (K:=string) (V:=parser).
Variable path_join : string -> string -> string.

Lemma register_raises (d fl : string) (exts : list string)
    (files : list (Z * string * parser)) :
  (exists e, In e exts /\ endswith fl e = true) ->
  (forall e, In e exts -> endswith fl e = true ->
             ident fl e = Raise ValueError) ->
  register RECORD_SET path_join d fl exts files = Raise ValueError.
Proof.
  revert files. induction exts as [|x exts IH]; intros files (e & I & E) R.
  { contradiction. }
  simpl. destruct (endswith fl x) eqn:Ex; simpl.
  - rewrite (R x (or_introl eq_refl) Ex). reflexivity.
  - apply IH.
    + destruct I as [->|I]; [congruence|]. exists e. auto.
    + intros e' I'. apply R. right. exact I'.
Qed.

Lemma register_skips (d fl : string) (exts : list string)
    (files : list (Z * string * parser)) :
  (forall e, In e exts -> endswith fl e = false) ->
  register RECORD_SET path_join d fl exts files = Ok files.
Proof.
  revert files. induction exts as [|x exts IH]; intros files N; simpl.
  { reflexivity. }
  rewrite (N x (or_introl eq_refl)). simpl. apply IH.
  intros e I. apply N. right. exact I.
Qed.

Lemma register_one (d fl t : string) (n : Z) (p : parser)
    (exts : list string) (files : list (Z * string * parser)) :
  NoDup exts -> In t exts ->
  (forall e, In e exts -> e <> t -> endswith fl e = false) ->
  endswith fl t = true -> ident fl t = Ok n ->
  dict_get String.eqb RECORD_SET t = Some p ->
  register RECORD_SET path_join d fl exts files
  = Ok (files ++ [(n, path_join d fl, p)]).
Proof.
  intros Nd I O E Id G. revert files.
  induction exts as [|x exts IH]; intros files; [contradiction|].
  inversion Nd as [|? ? Nx Nd']; subst. simpl.
  destruct I as [->|I].
  - rewrite E, Id. unfold subscript. rewrite G. simpl.
    apply register_skips. intros e Ie. apply O; [right; exact Ie|].
    intros ->. contradiction.
  - rewrite (O x (or_introl eq_refl)) by (intros ->; contradiction).
    simpl. apply IH; [exact Nd'|exact I|].
    intros e Ie. apply O. right. exact Ie.
Qed.

Lemma register_exn (d fl : string) (exts : list string)
    (files : list (Z * string * parser)) (e : exn) :
  (forall x, In x exts -> In x (dict_keys RECORD_SET)) ->
  register RECORD_SET path_join d fl exts files = Raise e -> e = ValueError.
Proof.
  revert files. induction exts as [|x exts IH]; intros files S; simpl.
  { discriminate. }
  assert (S' : forall y, In y exts -> In y (dict_keys RECORD_SET))
    by (intros y Iy; apply S; right; exact Iy).
  destruct (endswith fl x); simpl; [|apply IH, S'].
  destruct (ident fl x) as [n|e'] eqn:Id; simpl.
  - destruct (proj1 (dict_get_keys String.eqb String.eqb_eq RECORD_SET x)
                (S x (or_introl eq_refl))) as [p G].
    unfold subscript. rewrite G. simpl. apply IH, S'.
  - intros E. injection E as <-. apply (int_of_str_exn _ Id).
Qed.

(** The listing raises nothing but [ValueError]. *)
Lemma listed_exn (d : string) (names : list string)
    (files : list (Z * string * parser)) (e : exn) :
  listed RECORD_SET path_join d names files = Raise e -> e = ValueError.
Proof.
  revert files. induction names as [|fl names IH]; intros files; simpl.
  { discriminate. }
  destruct (register _ _ _ _ _ _) as [f|e'] eqn:R; simpl; [apply IH|].
  intros E. injection E as <-.
  apply (register_exn _ _ _ _ (fun x I => I) R).
Qed.

Lemma listed_app (d : string) (l1 l2 : list string)
    (files : list (Z * string * parser)) :
  listed RECORD_SET path_join d (l1 ++ l2) files
  = bind (listed RECORD_SET path_join d l1 files)
         (listed RECORD_SET path_join d l2).
Proof.
  revert files. induction l1 as [|x l1 IH]; intros files; simpl.
  { reflexivity. }
  destruct (register _ _ _ _ _ _) as [f|e]; simpl; [apply IH|reflexivity].
Qed.

Lemma listed_numbered (d t : string) (p : parser) (ns : list Z)
    (files : list (Z * string * parser)) :
  NoDup (dict_keys RECORD_SET) ->
  dict_get String.eqb RECORD_SET t = Some p ->
  (forall n e, In n ns -> In e (dict_keys RECORD_SET) -> e <> t ->
               endswith (decimal5 n ++ "." ++ t) e = false) ->
  listed RECORD_SET path_join d
    (map (fun n => (decimal5 n ++ "." ++ t)%string) ns) files
  = Ok (files
        ++ map (fun n => (n, path_join d (decimal5 n ++ "." ++ t)%string, p))
               ns).
Proof.
  intros Nd G O. revert files.
  induction ns as [|n ns IH]; intros files; cbn [map listed].
  { rewrite app_nil_r. reflexivity. }
  assert (It : In t (dict_keys RECORD_SET)).
  { apply (dict_get_keys String.eqb String.eqb_eq). eauto. }
  rewrite (@register_one d _ t n p (dict_keys RECORD_SET) files Nd It).
  - cbn [bind]. rewrite IH.
    + rewrite <- app_assoc. reflexivity.
    + intros m e Im. apply O. right. exact Im.
  - intros e Ie Ne. apply (O n e (or_introl eq_refl) Ie Ne).
  - rewrite <- app_assoc_str. apply endswith_app.
  - unfold ident.
    replace (String.length t + 1)%nat with (String.length ("." ++ t))
      by (simpl; lia).
    rewrite drop_last_app. apply int_of_str_decimal5.
  - exact G.
Qed.

(** X2: the scan of a directory raises nothing but [ValueError].  It
    raises it when the number of a name that ends in a known extension cannot
    be read (line 117), and when the listing registers no file ([min] of an
    empty list, line 124); when the listing registers a file or more, the
    scan goes through and [bounds] holds the least and the greatest
    registered number, both in [keys]. *)
Theorem X2_scan_bounds (s : settings) (d : string) (names : list string) :
  (forall e, scan_listing RECORD_SET path_join s d names = Raise e ->
             e = ValueError) /\
  (forall e, listed RECORD_SET path_join d names [] = Raise e ->
             scan_listing RECORD_SET path_join s d names = Raise ValueError) /\
  (listed RECORD_SET path_join d names [] = Ok [] ->
   scan_listing RECORD_SET path_join s d names = Raise ValueError) /\
  (forall files,
     listed RECORD_SET path_join d names [] = Ok files -> files <> [] ->
     exists rc,
       scan_listing RECORD_SET path_join s d names = Ok rc /\
       In (fst (bounds rc)) (keys rc) /\ In (snd (bounds rc)) (keys rc) /\
       (forall k, In k (keys rc) ->
                  (fst (bounds rc) <= k <= snd (bounds rc))%Z)).
Proof.
  unfold scan_listing.
  destruct (listed RECORD_SET path_join d names []) as [files|e0] eqn:L;
    cbn [bind].
  - destruct (scan_bounds s files) as [Empty Full].
    split; [|split; [discriminate|split]].
    + intros e E. destruct files as [|f files].
      * rewrite (Empty eq_refl) in E. congruence.
      * destruct Full as (rc & Erc & _); [discriminate|]. congruence.
    + intros E. injection E as ->. apply Empty. reflexivity.
    + intros files' E N. injection E as <-. apply Full, N.
  - pose proof (@listed_exn _ _ _ _ L) as ->.
    split; [congruence|]. split; [reflexivity|]. split; discriminate.
Qed.

(** X30: for a directory whose files are named [NNNNN.ext], each with its
    own number, [keys] holds the numbers in the order of the listing, not
    sorted, and each number leads to the file that carries it. *)
Theorem X30_keys_follow_the_listing
    (s : settings) (d t : string) (p : parser) (ns : list Z) :
  NoDup (dict_keys RECORD_SET) ->
  dict_get String.eqb RECORD_SET t = Some p ->
  (forall n e, In n ns -> In e (dict_keys RECORD_SET) -> e <> t ->
               endswith (decimal5 n ++ "." ++ t) e = false) ->
  NoDup ns -> ns <> [] ->
  exists rc,
    scan_listing RECORD_SET path_join s d
      (map (fun n => (decimal5 n ++ "." ++ t)%string) ns) = Ok rc /\
    keys rc = ns /\
    forall n, In n ns ->
      subscript Z.eqb (dirmap rc) n
      = Ok (path_join d (decimal5 n ++ "." ++ t)%string).
Proof.
  intros Nd G O Nn Ne. unfold scan_listing.
  rewrite (listed_numbered d ns [] Nd G O). cbn [bind app].
  set (files := map (fun n => (n, path_join d (decimal5 n ++ "." ++ t)%string,
                               p)) ns).
  assert (Mk : map (fun f : Z * string * parser => fst (fst f)) files = ns).
  { unfold files. rewrite map_map. simpl. apply map_id. }
  pose (dm := fill Z.eqb (fun f : Z * string * parser => fst (fst f))
                   (fun f => snd (fst f)) files []).
  assert (Kd : dict_keys dm = ns).
  { unfold dm. rewrite (fill_keys_fresh Z.eqb Z.eqb_eq).
    - simpl. exact Mk.
    - rewrite Mk. exact Nn.
    - intros x _ []. }
  unfold scan.
  change (fold_left
            (fun m (f : Z * string * parser) =>
               dict_set Z.eqb m (fst (fst f)) (snd (fst f))) files [])
    with dm.
  rewrite Kd. destruct ns as [|n0 ns']; [contradiction|].
  cbn [py_min py_max bind]. eexists. split; [reflexivity|].
  cbn [keys dirmap]. split; [reflexivity|].
  intros n In_. apply in_split in In_. destruct In_ as (a & b & Eab).
  unfold subscript, dm.
  assert (Ef : files
               = map (fun n => (n, path_join d (decimal5 n ++ "." ++ t)%string,
                                p)) a
                 ++ (n, path_join d (decimal5 n ++ "." ++ t)%string, p)
                 :: map (fun n => (n, path_join d (decimal5 n ++ "." ++ t)%string,
                                   p)) b).
  { unfold files. rewrite Eab, map_app. reflexivity. }
  rewrite Ef.
  pose proof (fill_get_last Z.eqb Z.eqb_eq
                (fun f : Z * string * parser => fst (fst f))
                (fun f => snd (fst f))
                (map (fun n => (n, path_join d (decimal5 n ++ "." ++ t)%string,
                                p)) a)
                (map (fun n => (n, path_join d (decimal5 n ++ "." ++ t)%string,
                                p)) b)
                (n, path_join d (decimal5 n ++ "." ++ t)%string, p) []) as L.
  cbn [fst snd] in L. rewrite L; [reflexivity|].
  intros y Iy. apply in_map_iff in Iy. destruct Iy as (m & <- & Im).
  cbn [fst]. intros ->. rewrite Eab in Nn.
  apply NoDup_remove_2 in Nn. apply Nn. apply in_or_app. right. exact Im.
Qed.

End Listing.

(** ** The properties on the sample inputs *)

Lemma X1_scan_registers_each_number_once_witness :
  NoDup (keys (scanned None (listing_ascending
                             ++ [snapshot 1%Z "snapshots/00001.snmpwalk"%string]))) /\
  subscript Z.eqb
    (dirmap (scanned None (listing_ascending
                           ++ [snapshot 1%Z "snapshots/00001.snmpwalk"%string])))
    1%Z
  = Ok "snapshots/00001.snmpwalk"%string.
Proof.
  destruct (@X1_scan_registers_each_number_once sample_host
              (sample_settings None)
              (listing_ascending ++ [snapshot 1%Z "snapshots/00001.snmpwalk"%string])
              (scanned None (listing_ascending
                             ++ [snapshot 1%Z "snapshots/00001.snmpwalk"%string]))
              eq_refl) as (A & _ & B).
  split; [exact A|].
  apply (B listing_ascending [] 1%Z "snapshots/00001.snmpwalk"%string
           "snmprec"%string eq_refl).
  intros e [].
Defined.

Lemma X2_scan_bounds_witness :
  (exists rc,
     @scan_listing sample_host
       [("snmprec", "snmprec"); ("snmpwalk", "snmpwalk")]%string
       (fun a b => (a ++ "/" ++ b)%string) (sample_settings None)
       "snapshots"%string ["00003.snmprec"; "notes.txt"; "00001.snmprec"]%string
     = Ok rc /\
     bounds rc = (1%Z, 3%Z)) /\
  @scan_listing sample_host
    [("snmprec", "snmprec"); ("snmpwalk", "snmpwalk")]%string
    (fun a b => (a ++ "/" ++ b)%string) (sample_settings None)
    "snapshots"%string ["notes.txt"]%string
  = Raise ValueError /\
  @scan_listing sample_host
    [("snmprec", "snmprec"); ("snmpwalk", "snmpwalk")]%string
    (fun a b => (a ++ "/" ++ b)%string) (sample_settings None)
    "snapshots"%string ["00000.snmprec"; "x.snmprec"]%string
  = Raise ValueError.
Proof.
  split; [|split].
  - destruct (proj2 (proj2 (proj2
                (@X2_scan_bounds sample_host
                   [("snmprec", "snmprec"); ("snmpwalk", "snmpwalk")]%string
                   (fun a b => (a ++ "/" ++ b)%string) (sample_settings None)
                   "snapshots"%string
                   ["00003.snmprec"; "notes.txt"; "00001.snmprec"]%string)))
                [(3%Z, "snapshots/00003.snmprec"%string, "snmprec"%string);
                 (1%Z, "snapshots/00001.snmprec"%string, "snmprec"%string)]
                eq_refl ltac:(discriminate)) as (rc & E & _).
    exists rc. split; [exact E|].
    vm_compute in E. injection E as <-. reflexivity.
  - apply (proj1 (proj2 (proj2
             (@X2_scan_bounds sample_host
                [("snmprec", "snmprec"); ("snmpwalk", "snmpwalk")]%string
                (fun a b => (a ++ "/" ++ b)%string) (sample_settings None)
                "snapshots"%string ["notes.txt"]%string)))).
    reflexivity.
  - apply (proj1 (proj2
             (@X2_scan_bounds sample_host
                [("snmprec", "snmprec"); ("snmpwalk", "snmpwalk")]%string
                (fun a b => (a ++ "/" ++ b)%string) (sample_settings None)
                "snapshots"%string ["00000.snmprec"; "x.snmprec"]%string))
             ValueError).
    reflexivity.
Defined.

Lemma X3_registered_numbers_have_file_and_codec_witness :
  exists f p,
    subscript Z.eqb (dirmap (scanned None listing_ascending)) 2%Z = Ok f /\
    subscript String.eqb (parsermap (scanned None listing_ascending)) f
    = Ok p.
Proof.
  apply (@X3_registered_numbers_have_file_and_codec sample_host
           (sample_settings None) listing_ascending
           (scanned None listing_ascending) 2%Z eq_refl).
  right. right. left. reflexivity.
Defined.

Lemma X4_candidate_is_an_index_of_keys_witness :
  (-1 <= 2 < Z.of_nat (List.length (keys (scanned None listing_ascending))))%Z /\
  exists k, py_index (keys (scanned None listing_ascending)) 2%Z = Ok k /\
            In k (keys (scanned None listing_ascending)).
Proof.
  apply (@X4_candidate_is_an_index_of_keys sample_host
           (scanned None listing_ascending) 25 0 2%Z).
  - discriminate.
  - reflexivity.
Defined.

Lemma X9_zero_period_raises_witness :
  exists rc,
    @scan sample_host (convert "snapshots"%string (Some 0) None None)
      listing_ascending = Ok rc /\
    @variate sample_host "67"%string (sample_read uptime_oid) 25 0 (Some rc)
      empty_session
    = (Raise ZeroDivisionError, empty_session).
Proof.
  exists {| rc_settings := convert "snapshots"%string (Some 0) None None;
            dirmap := dirmap (scanned None listing_ascending);
            parsermap := parsermap (scanned None listing_ascending);
            keys := [0; 1; 2; 3]%Z; bounds := (0%Z, 3%Z) |}.
  split; [reflexivity|].
  apply (@X9_zero_period_raises sample_host); reflexivity.
Defined.

Lemma X6_sessions_stay_well_formed_witness :
  Forall (session_ok (scanned None listing_descending))
    (@run sample_host 0 (Some (scanned None listing_descending))
       (map sample_request [5; 25; 12; 41; 39]) empty_session).
Proof.
  exact (@X6_sessions_stay_well_formed sample_host (sample_settings None)
           listing_descending (scanned None listing_descending) 0
           (map sample_request [5; 25; 12; 41; 39]) eq_refl).
Defined.

Lemma X5_read_raises_only_what_the_codec_raises_witness :
  match fst (@variate sample_host "67"%string (sample_read garbled_oid) 25 0
               (Some (scanned None listing_descending)) empty_session) with
  | Ok _ => True
  | Raise e =>
      is_SnmpsimError e = false /\
      exists p line, @evaluate sample_host p line = Raise e
  end.
Proof.
  apply (@X5_read_raises_only_what_the_codec_raises sample_host
           (sample_settings None) listing_descending
           (scanned None listing_descending) "67"%string
           (sample_read garbled_oid) 25 0 empty_session eq_refl).
  - split; intros ? E; discriminate E.
  - reflexivity.
  - intros _ C. discriminate C.
Defined.

Lemma X8_control_mode_serves_the_first_snapshot_witness :
  Forall (fun ms => fileno ms = None \/ fileno ms = Some 0%Z)
    (@run sample_host 0 (Some (scanned (Some control_oid) listing_ascending))
       (map sample_request [5; 25; 12; 41; 39]) empty_session).
Proof.
  exact (proj2 (@X8_control_mode_serves_the_first_snapshot sample_host
                  (scanned (Some control_oid) listing_ascending)
                  control_oid eq_refl)
               0 (map sample_request [5; 25; 12; 41; 39])).
Defined.

Lemma X10_any_wrap_text_turns_wrap_on_witness :
  fileno (snd (@variate sample_host "67"%string (sample_read uptime_oid) 25 0
                 (Some {| rc_settings :=
                            convert "snapshots"%string (Some 10)
                                    (Some "false"%string) None;
                          dirmap := dirmap (scanned None listing_ascending);
                          parsermap :=
                            parsermap (scanned None listing_ascending);
                          keys := [0; 1; 2; 3]%Z; bounds := (0%Z, 3%Z) |})
                 {| fileno := Some 3%Z; datafile := None;
                    datafileobj := None |}))
  = Some 2%Z.
Proof.
  apply (@X10_any_wrap_text_turns_wrap_on sample_host "snapshots"%string
           (Some 10) "false"%string).
  - discriminate.
  - reflexivity.
  - reflexivity.
  - reflexivity.
Defined.

Lemma X11_stop_signals_count_the_iterations_witness :
  (exists w, nth_error (stop_signals [fun _ => 3; fun _ => 15]
                          sample_recording) 0
             = Some (MoreDataNotification w)) /\
  nth_error (stop_signals [fun _ => 3; fun _ => 15] sample_recording) 1
  = Some NoDataNotification.
Proof.
  split.
  - apply (@X11_stop_signals_count_the_iterations
             [fun _ => 3; fun _ => 15] sample_recording 1%nat 10
             eq_refl eq_refl eq_refl ltac:(discriminate) 0%nat); simpl; lia.
  - apply (@X11_stop_signals_count_the_iterations
             [fun _ => 3; fun _ => 15] sample_recording 1%nat 10
             eq_refl eq_refl eq_refl ltac:(discriminate) 1%nat); simpl; lia.
Defined.

Lemma X12_stops_without_file_restart_the_numbering_witness :
  filenum (after_stops [fun _ => 3; fun _ => 15]
             {| ready := true; started := Some 0; file := None;
                filenum := Some 7%Z; iterations := Some 2%Z;
                rec_period := Some 10 |})
  = Some 1%Z.
Proof.
  apply (@X12_stops_without_file_restart_the_numbering
           [fun _ => 3; fun _ => 15] _ 2%nat 10);
    try reflexivity; discriminate.
Defined.

Lemma X13_stop_wait_within_the_period_witness :
  fst (fst (record_stop (fun _ => 3) sample_recording))
  = MoreDataNotification 10 /\ 0 <= 10 /\ (0 <= 10 -> 10 <= 10).
Proof.
  split; [reflexivity|].
  apply (@X13_stop_wait_within_the_period (fun _ => 3) sample_recording
           (snd (fst (record_stop (fun _ => 3) sample_recording)))
           (snd (record_stop (fun _ => 3) sample_recording))
           10 10 eq_refl eq_refl).
  intros k. apply Qle_refl.
Defined.

Lemma X30_keys_follow_the_listing_witness :
  exists rc,
    @scan_listing sample_host
      [("snmprec", "snmprec"); ("snmpwalk", "snmpwalk")]%string
      (fun a b => (a ++ "/" ++ b)%string) (sample_settings None)
      "snapshots"%string
      ["00003.snmprec"; "00001.snmprec"; "00002.snmprec"]%string = Ok rc /\
    keys rc = [3; 1; 2]%Z.
Proof.
  destruct (@X30_keys_follow_the_listing sample_host
              [("snmprec", "snmprec"); ("snmpwalk", "snmpwalk")]%string
              (fun a b => (a ++ "/" ++ b)%string) (sample_settings None)
              "snapshots"%string "snmprec"%string "snmprec"%string
              [3; 1; 2]%Z) as (rc & E & K & _).
  - repeat constructor; simpl; intuition discriminate.
  - reflexivity.
  - intros n e In_ Ie Ne. simpl in In_, Ie.
    destruct Ie as [<-|[<-|[]]]; [congruence|].
    destruct In_ as [<-|[<-|[<-|[]]]]; reflexivity.
  - repeat constructor; simpl; intuition discriminate.
  - discriminate.
  - exists rc. split; [exact E|exact K].
Defined.

(** X28: the scan reads the number of a file named with one separator
    between the number and the extension, [NNNNN.ext]: the name ends in the
    extension and line 117 gives the number back, for any number written
    with ['%.5d']. *)
Theorem X28_single_separator_names_are_read (t : string) (n : Z) :
  endswith (decimal5 n ++ "." ++ t) t = true /\
  ident (decimal5 n ++ "." ++ t) t = Ok n.
Proof.
  split.
  - rewrite <- app_assoc_str. apply endswith_app.
  - unfold ident.
    replace (String.length t + 1)%nat with (String.length ("." ++ t))
      by (simpl; lia).
    rewrite drop_last_app. apply int_of_str_decimal5.
Qed.

End MultiplexExtra.

(* ===================================================================== *)
(** * More properties of [delay.variate] *)
(* ===================================================================== *)

Module DelayExtra.
Import Py PyFacts PyExtra Delay DelayFacts.
Local Open Scope Q_scope.

(** ** The override tables *)

Section Tables.
Context {K : Type} (eqb : K -> K -> bool).
Hypothesis eqb_eq : forall a b, eqb a b = true <-> a = b.

Lemma add_override_eq_other (t : overrides K) (o : string) (v x : K) (d : Z) :
  ~ (o = "eq"%string /\ v = x) ->
  eq_entry eqb (add_override eqb t (o, v, d)) x = eq_entry eqb t x.
Proof.
  intros N. unfold add_override, eq_entry.
  destruct (o =? "eq")%string eqn:E; simpl.
  - apply String.eqb_eq in E.
    assert (v <> x) by (intros C; apply N; auto).
    rewrite (dict_get_set_other eqb eqb_eq) by assumption.
    destruct (ov_eq t); reflexivity.
  - destruct (o =? "lt")%string; [reflexivity|].
    destruct (o =? "gt")%string; reflexivity.
Qed.

Lemma fold_eq_untouched (l : list (string * K * Z)) (t : overrides K) (x : K) :
  (forall d, ~ In ("eq"%string, x, d) l) ->
  eq_entry eqb (fold_left (add_override eqb) l t) x = eq_entry eqb t x.
Proof.
  revert t. induction l as [|[[o v] d] l IH]; intros t N; simpl; [reflexivity|].
  rewrite IH by (intros d' I; apply (N d'); right; exact I).
  apply add_override_eq_other. intros [-> ->]. apply (N d). left. reflexivity.
Qed.

(** X14: of the [eq] entries of a [vlist] or [tlist] that name the same
    value, the last one gives the delay; a value that no [eq] entry names
    has none. *)
Theorem X14_last_eq_entry_wins
    (l1 l2 : list (string * K * Z)) (v : K) (d : Z) :
  (forall d', ~ In ("eq"%string, v, d') l2) ->
  eq_entry eqb (build_overrides eqb (l1 ++ ("eq"%string, v, d) :: l2)) v
  = Some d /\
  ((forall d', ~ In ("eq"%string, v, d') l1) ->
   eq_entry eqb (build_overrides eqb (l1 ++ l2)) v = None).
Proof.
  intros N. unfold build_overrides. split.
  - rewrite fold_left_app. simpl. rewrite fold_eq_untouched by exact N.
    unfold add_override, eq_entry. simpl.
    apply (dict_get_set_same eqb eqb_eq).
  - intros N1. rewrite fold_eq_untouched; [reflexivity|].
    intros d' I. apply in_app_or in I. destruct I as [I|I];
      [apply (N1 d' I)|apply (N d' I)].
Qed.

Lemma add_override_not_lt (t : overrides K) (o : string) (v : K) (d : Z) :
  o <> "lt"%string -> ov_lt (add_override eqb t (o, v, d)) = ov_lt t.
Proof.
  intros N. unfold add_override.
  destruct (o =? "eq")%string; [reflexivity|].
  destruct (o =? "lt")%string eqn:E;
    [apply String.eqb_eq in E; contradiction|].
  destruct (o =? "gt")%string; reflexivity.
Qed.

Lemma add_override_not_gt (t : overrides K) (o : string) (v : K) (d : Z) :
  o <> "gt"%string -> ov_gt (add_override eqb t (o, v, d)) = ov_gt t.
Proof.
  intros N. unfold add_override.
  destruct (o =? "eq")%string; [reflexivity|].
  destruct (o =? "lt")%string; [reflexivity|].
  destruct (o =? "gt")%string eqn:E;
    [apply String.eqb_eq in E; contradiction|reflexivity].
Qed.

Lemma fold_lt_untouched (l : list (string * K * Z)) (t : overrides K) :
  (forall e, In e l -> ~ is_op "lt" e) ->
  ov_lt (fold_left (add_override eqb) l t) = ov_lt t.
Proof.
  revert t. induction l as [|[[o v] d] l IH]; intros t N; simpl; [reflexivity|].
  rewrite IH by (intros e I; apply N; right; exact I).
  apply add_override_not_lt. apply (N (o, v, d)). left. reflexivity.
Qed.

Lemma fold_gt_untouched (l : list (string * K * Z)) (t : overrides K) :
  (forall e, In e l -> ~ is_op "gt" e) ->
  ov_gt (fold_left (add_override eqb) l t) = ov_gt t.
Proof.
  revert t. induction l as [|[[o v] d] l IH]; intros t N; simpl; [reflexivity|].
  rewrite IH by (intros e I; apply N; right; exact I).
  apply add_override_not_gt. apply (N (o, v, d)). left. reflexivity.
Qed.

(** X15: a [vlist] or [tlist] keeps one [lt] and one [gt] threshold, those
    of the last [lt] and of the last [gt] entry; an entry whose operator is
    none of [eq], [lt], [gt] leaves the [eq], [lt] and [gt] tables as they
    are. *)
Theorem X15_last_threshold_wins_and_bad_entries_are_skipped
    (l1 l2 : list (string * K * Z)) (o : string) (v : K) (d : Z) :
  ((forall e, In e l2 -> ~ is_op "lt" e) ->
   ov_lt (build_overrides eqb (l1 ++ ("lt"%string, v, d) :: l2))
   = Some (v, d)) /\
  ((forall e, In e l2 -> ~ is_op "gt" e) ->
   ov_gt (build_overrides eqb (l1 ++ ("gt"%string, v, d) :: l2))
   = Some (v, d)) /\
  (o <> "eq"%string -> o <> "lt"%string -> o <> "gt"%string ->
   build_overrides eqb (l1 ++ (o, v, d) :: l2)
   = build_overrides eqb (l1 ++ l2)).
Proof.
  unfold build_overrides. split; [|split].
  - intros N. rewrite fold_left_app. simpl.
    rewrite fold_lt_untouched by exact N. reflexivity.
  - intros N. rewrite fold_left_app. simpl.
    rewrite fold_gt_untouched by exact N. reflexivity.
  - intros Ne Nl Ng. rewrite !fold_left_app. simpl. f_equal.
    unfold add_override.
    apply String.eqb_neq in Ne, Nl, Ng. rewrite Ne, Nl, Ng. reflexivity.
Qed.
End Tables.

Section WithValue.
Context {V : Type} `{SnmpValue V}.

(** ** Selection never fails *)

Lemma select_delay_total (ctx : context V) (s : settings V) (now : Q) :
  exists d ev, select_delay ctx s now = (Ok d, ev) /\ slept ev = [].
Proof.
  unfold select_delay.
  destruct (if setFlag ctx then vlist s else None) as [vl|].
  - eexists _, _. split; reflexivity.
  - destruct (tlist s) as [tl|].
    + rewrite select_tlist_skips_eq. eexists _, _. split; reflexivity.
    + eexists _, _. split; reflexivity.
Qed.

Lemma slept_app (a b : list event) : slept (a ++ b) = slept a ++ slept b.
Proof.
  induction a as [|[| |q] a IH]; simpl; try exact IH.
  - reflexivity.
  - rewrite IH. reflexivity.
Qed.

Lemma variate_past_guard (o : oid) (t : tag) (v : raw V) (ctx : context V)
    (now : Q) (r : N) (rc : option (settings V)) :
  nextFlag ctx || exactMatch ctx = true ->
  variate o t v ctx now r rc
  = (fst (eff_bind (computed_delay ctx (cached rc v) now r)
                   (finish o t ctx (cached rc v))),
     Some (cached rc v),
     snd (eff_bind (computed_delay ctx (cached rc v) now r)
                   (finish o t ctx (cached rc v)))).
Proof.
  intros G. unfold variate.
  replace (negb (nextFlag ctx) && negb (exactMatch ctx)) with false
    by (destruct (nextFlag ctx), (exactMatch ctx); simpl in *; congruence).
  reflexivity.
Qed.

(** X16: a request sleeps at most once, for a time between 0 and 99.999
    seconds, and a request that raises (a drop included) has not slept. *)
Theorem X16_sleeps_at_most_once_and_within_limits
    (o : oid) (t : tag) (v : raw V) (ctx : context V) (now : Q) (r : N)
    (rc : option (settings V)) :
  let out := variate o t v ctx now r rc in
  (slept (snd out) = [] \/
   exists q, slept (snd out) = [q] /\ 0 <= q /\ q <= 99999 / 1000) /\
  (forall e, fst (fst out) = Raise e -> slept (snd out) = []).
Proof.
  cbn zeta. unfold variate.
  destruct (negb (nextFlag ctx) && negb (exactMatch ctx)).
  { simpl. split; [auto|reflexivity]. }
  set (s := cached rc v). cbn [fst snd].
  destruct (select_delay_total ctx s now) as (d0 & ev0 & Sel & Sl0).
  unfold computed_delay, eff_bind. rewrite Sel. cbn [fst snd].
  unfold add_jitter.
  assert (Fin : forall d ev, slept ev = [] ->
            let out := (fst (finish o t ctx s d), ev ++ snd (finish o t ctx s d)) in
            (slept (snd out) = [] \/
             exists q, slept (snd out) = [q] /\ 0 <= q /\ q <= 99999 / 1000) /\
            (forall e, fst out = Raise e -> slept (snd out) = [])).
  { intros d ev Sl. cbn zeta. cbn [fst snd]. rewrite slept_app, Sl.
    rewrite finish_clamped.
    destruct (Qltb 99999 (clamp d)) eqn:L; cbn.
    - split; [auto|reflexivity].
    - apply Qltb_ge in L. split; [|intros e C; discriminate C].
      right. eexists. split; [reflexivity|].
      pose proof (clamp_nonneg d) as P.
      split.
      + apply Qle_shift_div_l; [reflexivity|]. lra.
      + apply Qle_shift_div_r; [reflexivity|].
        setoid_replace (99999 / 1000 * 1000) with 99999 by field. exact L. }
  destruct (truthy_Q (deviation s)).
  - destruct (randrange _ _ r) as [j|e]; cbn [fst snd].
    + specialize (Fin (d0 + inject_Z j) (ev0 ++ [DrewRandom])).
      apply Fin. rewrite slept_app, Sl0. reflexivity.
    + rewrite app_nil_r. split; [left; exact Sl0|]. intros _ _. exact Sl0.
  - cbn [fst snd]. rewrite app_nil_r. apply (Fin d0 ev0 Sl0).
Qed.

(** X17: a deviation below 0, or one that is not a whole number, makes
    every request that is not passed through raise [ValueError], from
    [randrange], without sleeping; the settings stay cached. *)
Theorem X17_bad_deviation_raises_ValueError
    (o : oid) (t : tag) (v : raw V) (ctx : context V) (now : Q) (r : N)
    (rc : option (settings V)) :
  nextFlag ctx || exactMatch ctx = true ->
  deviation (cached rc v) < 0 \/ is_integral (deviation (cached rc v)) = false ->
  fst (variate o t v ctx now r rc)
  = (Raise ValueError, Some (cached rc v)) /\
  slept (snd (variate o t v ctx now r rc)) = [].
Proof.
  intros G B. rewrite (variate_past_guard o t v ctx now r rc G).
  set (s := cached rc v) in *. cbn [fst snd].
  destruct (select_delay_total ctx s now) as (d0 & ev0 & Sel & Sl0).
  assert (T : truthy_Q (deviation s) = true).
  { unfold truthy_Q. destruct (Qeq_bool (deviation s) 0) eqn:E; [|reflexivity].
    apply Qeq_bool_iff in E. destruct B as [B|B].
    - rewrite E in B. discriminate B.
    - rewrite (is_integral_zero E) in B. discriminate B. }
  assert (R : randrange (- deviation s) (deviation s) r = Raise ValueError).
  { unfold randrange.
    destruct (is_integral (- deviation s)) eqn:I1; [|reflexivity].
    destruct (is_integral (deviation s)) eqn:I2; [|reflexivity].
    destruct B as [B|B]; [|congruence]. simpl.
    rewrite py_int_opp.
    pose proof (is_integral_eq _ I2) as E. rewrite E in B.
    change 0 with (inject_Z 0) in B. rewrite <- Zlt_Qlt in B.
    destruct (0 <? py_int (deviation s) - - py_int (deviation s))%Z eqn:W;
      [|reflexivity].
    apply Z.ltb_lt in W. lia. }
  unfold computed_delay, eff_bind. rewrite Sel. cbn [fst snd].
  unfold add_jitter. rewrite T, R. cbn [fst snd].
  split; [reflexivity|]. rewrite app_nil_r. exact Sl0.
Qed.

(** X18: with a deviation of 0 no random number is drawn; a record with
    neither [vlist] nor [tlist] then has every request that is not passed
    through wait exactly its base wait, when that is between 0 and 99999. *)
Theorem X18_no_deviation_no_jitter
    (o : oid) (t : tag) (v : raw V) (ctx : context V) (now : Q) (r : N)
    (rc : option (settings V)) :
  nextFlag ctx || exactMatch ctx = true ->
  deviation (cached rc v) == 0 ->
  ~ In DrewRandom (snd (variate o t v ctx now r rc)) /\
  (vlist (cached rc v) = None -> tlist (cached rc v) = None ->
   0 <= wait (cached rc v) -> wait (cached rc v) <= 99999 ->
   exists ans,
     variate o t v ctx now r rc
     = (Ok ans, Some (cached rc v), [Slept (wait (cached rc v) / 1000)])).
Proof.
  intros G D. rewrite (variate_past_guard o t v ctx now r rc G).
  set (s := cached rc v) in *. cbn [fst snd].
  assert (T : truthy_Q (deviation s) = false).
  { unfold truthy_Q. apply negb_false_iff. apply Qeq_bool_iff. exact D. }
  unfold computed_delay, eff_bind at 2. unfold add_jitter. rewrite T.
  split.
  - unfold eff_bind.
    destruct (select_delay_total ctx s now) as (d0 & ev0 & Sel & Sl0).
    rewrite Sel. cbn [fst snd]. rewrite app_nil_r.
    assert (N0 : ~ In DrewRandom ev0).
    { clear - Sel. unfold select_delay in Sel.
      destruct (if setFlag ctx then vlist s else None).
      - injection Sel as _ <-. intros [].
      - destruct (tlist s).
        + injection Sel as _ <-. intros [C|[]]. discriminate C.
        + injection Sel as _ <-. intros []. }
    rewrite finish_clamped.
    destruct (Qltb 99999 (clamp d0)); cbn; rewrite ?app_nil_r; [exact N0|].
    intros I. apply in_app_or in I. destruct I as [I|[C|[]]];
      [exact (N0 I)|discriminate C].
  - intros Ev Et W0 W9. unfold eff_bind.
    rewrite (select_delay_base ctx s now Ev Et). cbn [fst snd].
    rewrite finish_clamped.
    assert (C : clamp (wait s) = wait s).
    { unfold clamp. destruct (Qltb (wait s) 0) eqn:L; [|reflexivity].
      apply Qltb_lt in L. exfalso. apply (Qlt_not_le _ _ L W0). }
    rewrite C. replace (Qltb 99999 (wait s)) with false
      by (symmetry; apply Qltb_ge; exact W9).
    unfold respond. cbn. eexists. reflexivity.
Qed.

(** X19: a request that is answered gets back the identifier and the tag it
    came with; the value is the one of the request for a write, and for a
    read the bytes of [hexvalue=] if the record has them, else the text of
    [value=] if it has it, else the value of the request. *)
Theorem X19_value_returned
    (o o' : oid) (t t' : tag) (v : raw V) (ctx : context V) (now : Q)
    (r : N) (rv : retval V) (rc' : option (settings V)) (ev : list event) :
  nextFlag ctx || exactMatch ctx = true ->
  variate o t v ctx now r None = (Ok (o', t', rv), rc', ev) ->
  o' = o /\ t' = t /\
  rv = if setFlag ctx then Echo (origValue ctx)
       else match r_hexvalue v, r_value v with
            | Some bytes, _ => Fixed (FixedBytes bytes)
            | None, Some txt => Fixed (FixedText txt)
            | None, None => Echo (origValue ctx)
            end.
Proof.
  intros G. rewrite (variate_past_guard o t v ctx now r None G).
  cbn [cached]. unfold eff_bind.
  destruct (computed_delay ctx (parse v) now r) as [[d|e] ev0]; cbn [fst snd];
    [|discriminate].
  rewrite finish_clamped.
  destruct (Qltb 99999 (clamp d)); [discriminate|].
  unfold respond. cbn [fst snd]. intros E. injection E as <- <- <- _ _.
  split; [reflexivity|]. split; [reflexivity|].
  unfold parse. cbn [value].
  destruct (r_hexvalue v), (r_value v), (setFlag ctx); reflexivity.
Qed.

(** X20: for a write, a configured [vlist] shadows the [tlist]: when the
    written value matches none of its entries the base wait is selected,
    whatever [tlist] entry applies at that time, and the clock is not read;
    a read of the same record, or a write when no [vlist] is configured,
    takes the delay from the [tlist]. *)
Theorem X20_vlist_shadows_tlist_for_writes
    (ctx : context V) (s : settings V) (vl : overrides V) (tl : overrides Z)
    (now : Q) :
  tlist s = Some tl ->
  (setFlag ctx = true -> vlist s = Some vl ->
   eq_entry v_eqb vl (origValue ctx) = None ->
   lt_entry (v_ltb (origValue ctx)) vl = None ->
   gt_entry (v_gtb (origValue ctx)) vl = None ->
   select_delay ctx s now = (Ok (wait s), [])) /\
  (setFlag ctx = false \/ vlist s = None ->
   select_delay ctx s now
   = (Ok (lt_gt_else tl (Z.ltb (py_int now)) (Z.gtb (py_int now)) s),
      [ReadClock])).
Proof.
  intros Et. split.
  - intros S Ev E L G. unfold select_delay. rewrite S, Ev.
    unfold select_vlist. rewrite lt_gt_else_spec.
    fold (eq_entry v_eqb vl (origValue ctx)). rewrite E, L, G. reflexivity.
  - intros C. unfold select_delay.
    replace (if setFlag ctx then vlist s else None) with (@None (overrides V))
      by (destruct C as [-> | ->]; [reflexivity|destruct (setFlag ctx); reflexivity]).
    rewrite Et, select_tlist_skips_eq. reflexivity.
Qed.

(** ** Recording *)

Lemma recorded_wait_bounds (now reqTime : Q) :
  reqTime <= now ->
  (0 <= recorded_wait now reqTime)%Z /\
  inject_Z (recorded_wait now reqTime) / 1000 <= now - reqTime /\
  now - reqTime < (inject_Z (recorded_wait now reqTime) + 1) / 1000.
Proof.
  intros L. unfold recorded_wait.
  assert (P : 0 <= (now - reqTime) * 1000) by lra.
  rewrite (py_int_nonneg P).
  pose proof (Qfloor_le ((now - reqTime) * 1000)) as A.
  pose proof (Qlt_floor ((now - reqTime) * 1000)) as B.
  rewrite inject_Z_plus in B. change (inject_Z 1) with 1 in B.
  split.
  { change 0%Z with (Qfloor 0). apply Qfloor_resp_le. exact P. }
  generalize dependent (inject_Z (Qfloor ((now - reqTime) * 1000))).
  intros w A B. split.
  - apply Qle_shift_div_r; [reflexivity|]. exact A.
  - apply Qlt_shift_div_l; [reflexivity|]. exact B.
Qed.

(** X26: [record] answers every call but the stop signal, adding [:delay]
    to the tag; when the clock has not gone back, the wait it writes is the
    time the request took, in whole milliseconds, rounded down.  Replayed,
    a record with that wait sleeps that long when the request took less than
    100 seconds, and drops the response when it took 100 seconds or more. *)
Theorem X26_recorded_wait_is_replayed
    (o : oid) (t : tag) (v : string) (rctx : record_context) (now : Q)
    (ctx : context V) (now' : Q) (r : N) :
  stopFlag rctx = false -> reqTime rctx <= now ->
  nextFlag ctx || exactMatch ctx = true ->
  let w := recorded_wait now (reqTime rctx) in
  let replay := variate o t (recorded_raw v w) ctx now' r None in
  (exists txt, record o t v rctx now = Ok (o, (t ++ ":delay")%string, txt)) /\
  inject_Z w / 1000 <= now - reqTime rctx /\
  now - reqTime rctx < (inject_Z w + 1) / 1000 /\
  ((w <= 99999)%Z ->
   (exists ans, fst (fst replay) = Ok ans) /\
   slept (snd replay) = [inject_Z w / 1000]) /\
  ((99999 < w)%Z ->
   fst (fst replay) = Raise NoDataNotification /\ slept (snd replay) = []).
Proof.
  intros S L G w replay.
  destruct (recorded_wait_bounds L) as (W0 & A & B). fold w in W0, A, B.
  split.
  { unfold record. rewrite S. eexists. reflexivity. }
  split; [exact A|]. split; [exact B|].
  assert (E : replay
              = (fst (finish o t ctx (parse (recorded_raw v w)) (inject_Z w)),
                 Some (parse (recorded_raw v w)),
                 snd (finish o t ctx (parse (recorded_raw v w)) (inject_Z w)))).
  { unfold replay. rewrite (variate_past_guard o t _ ctx now' r None G).
    unfold cached, computed_delay, select_delay, add_jitter, eff_bind.
    cbn [parse recorded_raw r_vlist r_tlist r_wait r_deviation option_map
         vlist tlist wait deviation fst snd].
    destruct (setFlag ctx); cbn [fst snd app];
      change (truthy_Q 0) with false; cbn [fst snd app]; reflexivity. }
  assert (N0 : Qltb (inject_Z w) 0 = false).
  { apply Qltb_ge. change 0 with (inject_Z 0). rewrite <- Zle_Qle. exact W0. }
  split; intros C; rewrite E; cbn [fst snd]; unfold finish; rewrite N0.
  - assert (N1 : Qltb 99999 (inject_Z w) = false).
    { apply Qltb_ge. change 99999 with (inject_Z 99999).
      rewrite <- Zle_Qle. exact C. }
    rewrite N1. unfold respond. cbn [fst snd slept]. split; [|reflexivity].
    eexists. reflexivity.
  - assert (N1 : Qltb 99999 (inject_Z w) = true).
    { apply Qltb_lt. change 99999 with (inject_Z 99999).
      rewrite <- Zlt_Qlt. exact C. }
    rewrite N1. split; reflexivity.
Qed.

End WithValue.

(** ** The properties on the sample inputs *)

Lemma X14_last_eq_entry_wins_witness :
  eq_entry Z.eqb
    (build_overrides Z.eqb
       ([("eq"%string, 5%Z, 100%Z)]
        ++ ("eq"%string, 5%Z, 200%Z) :: [("lt"%string, 9%Z, 3%Z)])) 5%Z
  = Some 200%Z.
Proof.
  apply (@X14_last_eq_entry_wins Z Z.eqb Z.eqb_eq
           [("eq"%string, 5%Z, 100%Z)] [("lt"%string, 9%Z, 3%Z)] 5%Z 200%Z).
  intros d' [E|[]]. discriminate E.
Defined.

Lemma X15_last_threshold_wins_and_bad_entries_are_skipped_witness :
  ov_lt (build_overrides Z.eqb
           ([("lt"%string, 1%Z, 2%Z)]
            ++ ("lt"%string, 9%Z, 3%Z) :: [("le"%string, 0%Z, 0%Z)]))
  = Some (9%Z, 3%Z) /\
  build_overrides Z.eqb
    ([("lt"%string, 1%Z, 2%Z)] ++ ("le"%string, 0%Z, 0%Z) :: [])
  = build_overrides Z.eqb ([("lt"%string, 1%Z, 2%Z)] ++ []).
Proof.
  split.
  - apply (@X15_last_threshold_wins_and_bad_entries_are_skipped Z Z.eqb
             [("lt"%string, 1%Z, 2%Z)] [("le"%string, 0%Z, 0%Z)]
             "lt"%string 9%Z 3%Z).
    intros e [<-|[]] C. discriminate C.
  - apply (@X15_last_threshold_wins_and_bad_entries_are_skipped Z Z.eqb
             [("lt"%string, 1%Z, 2%Z)] []
             "le"%string 0%Z 0%Z); discriminate.
Defined.

Lemma X17_bad_deviation_raises_ValueError_witness :
  fst (variate sample_oid "2"%string raw_negative_deviation read_request
         0 0%N None)
  = (Raise ValueError, Some (parse raw_negative_deviation)) /\
  slept (snd (variate sample_oid "2"%string raw_negative_deviation
                read_request 0 0%N None)) = [].
Proof.
  apply (@X17_bad_deviation_raises_ValueError Z Z_SnmpValue sample_oid
           "2"%string raw_negative_deviation read_request 0 0%N None eq_refl).
  left. reflexivity.
Defined.

Lemma X18_no_deviation_no_jitter_witness :
  exists ans,
    variate sample_oid "2"%string (sample_raw (Some 100) None None None)
      read_request 0 0%N None
    = (Ok ans, Some (parse (sample_raw (Some 100) None None None)),
       [Slept (100 / 1000)]).
Proof.
  apply (proj2 (@X18_no_deviation_no_jitter Z Z_SnmpValue sample_oid
                  "2"%string (sample_raw (Some 100) None None None)
                  read_request 0 0%N None eq_refl (Qeq_refl 0))
               eq_refl eq_refl); simpl; lra.
Defined.

Lemma X19_value_returned_witness :
  fst (fst (variate sample_oid "2"%string (recorded_raw "up" 5) read_request
              0 0%N None))
  = Ok (sample_oid, "2"%string, Fixed (FixedText "up")).
Proof.
  destruct (@X19_value_returned Z Z_SnmpValue sample_oid sample_oid
              "2"%string "2"%string (recorded_raw "up" 5) read_request 0 0%N
              (Fixed (FixedText "up"))
              (snd (fst (variate sample_oid "2"%string (recorded_raw "up" 5)
                           read_request 0 0%N None)))
              (snd (variate sample_oid "2"%string (recorded_raw "up" 5)
                      read_request 0 0%N None))
              eq_refl eq_refl) as (A & B & C).
  reflexivity.
Defined.

Lemma X20_vlist_shadows_tlist_for_writes_witness :
  select_delay (write_request 20) (parse raw_both_lists) 5 = (Ok 50, []) /\
  select_delay read_request (parse raw_both_lists) 5 = (Ok 9, [ReadClock]).
Proof.
  destruct (@X20_vlist_shadows_tlist_for_writes Z Z_SnmpValue
              (write_request 20) (parse raw_both_lists)
              (build_overrides Z.eqb [("lt"%string, 10%Z, 7%Z)])
              (build_overrides Z.eqb [("gt"%string, 0%Z, 9%Z)])
              5 eq_refl) as (A & _).
  destruct (@X20_vlist_shadows_tlist_for_writes Z Z_SnmpValue
              read_request (parse raw_both_lists)
              (build_overrides Z.eqb [("lt"%string, 10%Z, 7%Z)])
              (build_overrides Z.eqb [("gt"%string, 0%Z, 9%Z)])
              5 eq_refl) as (_ & B).
  split.
  - exact (A eq_refl eq_refl eq_refl eq_refl eq_refl).
  - exact (B (or_introl eq_refl)).
Defined.

Lemma X26_recorded_wait_is_replayed_witness :
  recorded_wait (11234567 / 1000000) 10 = 1234%Z /\
  slept (snd (variate sample_oid "2"%string
                (recorded_raw (V:=Z) "up"
                   (recorded_wait (11234567 / 1000000) 10))
                read_request 0 0%N None))
  = [inject_Z (recorded_wait (11234567 / 1000000) 10) / 1000].
Proof.
  split; [reflexivity|].
  destruct (@X26_recorded_wait_is_replayed Z Z_SnmpValue sample_oid
              "2"%string "up"%string
              {| stopFlag := false; hexvalue := None; reqTime := 10;
                 options := None |}
              (11234567 / 1000000) read_request 0 0%N
              eq_refl ltac:(vm_compute; discriminate) eq_refl) as (_ & _ & _ & A & _).
  apply A. vm_compute. discriminate.
Defined.

End DelayExtra.

(* ===================================================================== *)
(** * Properties of [multiplex.init] and of the capture path *)
(* ===================================================================== *)

Module RecordingExtra.
Import Py PyFacts PyExtra Multiplex MultiplexFacts MultiplexExtra Recording.
Local Open Scope Q_scope.

Section WithRecorder.
Context `{Recorder}.

(** ** The options *)

Lemma set_option_spec (st : module_options) (k v : string) :
  set_option st [k; v]
  = Ok (if (k =? "addon")%string
        then {| addon := Some (match addon st with
                               | Some l => l ++ [v]
                               | None => [v]
                               end);
                texts := texts st |}
        else {| addon := addon st;
                texts := dict_set String.eqb (texts st) k v |}).
Proof. unfold set_option. destruct (k =? "addon")%string; reflexivity. Qed.

Lemma set_options_defined (tokens : list (list string)) (st : module_options) :
  well_formed tokens -> exists st', set_options st tokens = Ok st'.
Proof.
  revert st. induction tokens as [|kv rest IH]; intros st W;
    cbn [set_options]; [eauto|].
  inversion W as [|? ? L W']; subst.
  destruct kv as [|k [|v [|x kv]]]; simpl in L; try discriminate.
  rewrite set_option_spec. cbn [bind]. apply IH. exact W'.
Qed.

Lemma set_options_texts_untouched (tokens : list (list string))
    (st st' : module_options) (k : string) :
  set_options st tokens = Ok st' ->
  k <> "addon"%string ->
  (forall kv, In kv tokens -> ~ sets_key k kv) ->
  dict_get String.eqb (texts st') k = dict_get String.eqb (texts st) k.
Proof.
  revert st. induction tokens as [|kv rest IH]; intros st E Na N;
    cbn [set_options] in E.
  - injection E as <-. reflexivity.
  - destruct kv as [|k0 [|v0 [|x kv]]]; try (cbn in E; discriminate).
    rewrite set_option_spec in E. cbn [bind] in E.
    rewrite (IH _ E Na) by (intros kv' I; apply N; right; exact I).
    destruct (k0 =? "addon")%string eqn:A; simpl; [reflexivity|].
    apply (dict_get_set_other String.eqb String.eqb_eq).
    intros ->. apply (N [k; v0]); [left; reflexivity|]. exists v0. reflexivity.
Qed.

Lemma set_options_addon (tokens : list (list string))
    (st st' : module_options) :
  set_options st tokens = Ok st' ->
  addon st'
  = match addon_values tokens with
    | [] => addon st
    | l => Some (match addon st with Some l0 => l0 | None => [] end ++ l)
    end.
Proof.
  revert st. induction tokens as [|kv rest IH]; intros st E;
    cbn [set_options] in E.
  - injection E as <-. reflexivity.
  - destruct kv as [|k0 [|v0 [|x kv]]]; try (cbn in E; discriminate).
    rewrite set_option_spec in E. cbn [bind] in E. rewrite (IH _ E). simpl.
    destruct (k0 =? "addon")%string; simpl; [|reflexivity].
    destruct (addon st) as [l0|]; simpl.
    + destruct (addon_values rest); [reflexivity|].
      rewrite <- app_assoc. reflexivity.
    + destruct (addon_values rest); reflexivity.
Qed.

(** X21: of the options that [init] reads, the last one given for a key is
    the one kept, except for [addon], whose values are all kept, in the
    order given; an option that is not a [key:value] pair makes [init]
    raise [ValueError]. *)
Theorem X21_options_last_wins_addon_accumulates
    (tokens : list (list string)) :
  (well_formed tokens ->
   exists opts,
     set_options no_options tokens = Ok opts /\
     addon opts = match addon_values tokens with
                  | [] => None
                  | l => Some l
                  end /\
     (forall l1 l2 k v,
        tokens = l1 ++ [k; v] :: l2 -> k <> "addon"%string ->
        (forall kv, In kv l2 -> ~ sets_key k kv) ->
        dict_get String.eqb (texts opts) k = Some v)) /\
  (forall l1 l2 kv mode now,
     tokens = l1 ++ kv :: l2 -> well_formed l1 -> List.length kv <> 2%nat ->
     init tokens mode now = (Raise ValueError, None)).
Proof.
  split.
  - intros W. destruct (set_options_defined no_options W) as [opts E].
    exists opts. split; [exact E|]. split.
    + rewrite (set_options_addon _ _ E). simpl.
      destruct (addon_values tokens); reflexivity.
    + intros l1 l2 k v -> Na N.
      assert (S : exists st1, set_options no_options l1 = Ok st1 /\
                   set_options (if (k =? "addon")%string
                                then {| addon := Some (match addon st1 with
                                                       | Some l => l ++ [v]
                                                       | None => [v]
                                                       end);
                                        texts := texts st1 |}
                                else {| addon := addon st1;
                                        texts := dict_set String.eqb (texts st1) k v |})
                               l2 = Ok opts).
      { clear - E. revert E. generalize no_options.
        induction l1 as [|kv l1 IH]; intros st E;
          cbn [app set_options] in *.
        - rewrite set_option_spec in E. cbn [bind] in E. eauto.
        - destruct (set_option st kv) as [st0|e]; cbn [bind] in *;
            [|discriminate].
          destruct (IH _ E) as (st1 & E1 & E2). eauto. }
      destruct S as (st1 & _ & E2).
      apply String.eqb_neq in Na. rewrite Na in E2.
      rewrite (set_options_texts_untouched _ _ E2) by
        (try (apply String.eqb_neq; exact Na); exact N).
      simpl. apply (dict_get_set_same String.eqb String.eqb_eq).
  - intros l1 l2 kv mode now -> W L. unfold init.
    assert (E : set_options no_options (l1 ++ kv :: l2) = Raise ValueError).
    { generalize no_options. induction l1 as [|kv1 l1 IH]; intros st;
        cbn [app set_options].
      - destruct kv as [|k [|v [|x kv]]]; simpl in *; try reflexivity.
        contradiction.
      - inversion W as [|? ? L1 W1]; subst.
        destruct kv1 as [|k [|v [|x kv1]]]; simpl in L1; try discriminate.
        rewrite set_option_spec. cbn [bind]. apply IH. exact W1. }
    rewrite E. reflexivity.
Qed.

(** ** [init] in recording mode *)

Lemma init_recording_inv (tokens : list (list string)) (now : Q)
    (mc : moduleContext) (created : option string) :
  init tokens "recording" now = (Ok mc, created) ->
  set_options no_options tokens = Ok (m_options mc) /\
  m_ready mc = true /\
  (exists d, dict_get String.eqb (texts (m_options mc)) "dir"%string = Some d /\
             created = if path_exists d then None else Some d) /\
  match dict_get String.eqb (texts (m_options mc)) "iterations"%string with
  | Some txt => exists n, int_of_text txt = Ok n /\
                          m_iterations mc = Some (Z.max 0 (n - 1))
  | None => m_iterations mc = None
  end /\
  match dict_get String.eqb (texts (m_options mc)) "period"%string with
  | Some txt => exists p, float_of_text txt = Ok p /\ m_period mc = Some p
  | None => m_period mc = Some 10
  end.
Proof.
  unfold init. destruct (set_options no_options tokens) as [opts|e];
    [|discriminate].
  change ("recording" =? "variating")%string with false.
  change ("recording" =? "recording")%string with true. cbv iota.
  destruct (dict_get String.eqb (texts opts) "dir"%string) as [d|] eqn:Ed;
    [|discriminate].
  destruct (dict_get String.eqb (texts opts) "iterations"%string) as [it|]
    eqn:Ei; simpl.
  - destruct (int_of_text it) as [n|e] eqn:En; simpl; [|discriminate].
    destruct (dict_get String.eqb (texts opts) "period"%string) as [pt|]
      eqn:Ep; simpl.
    + destruct (float_of_text pt) as [p|e] eqn:Ef; simpl; [|discriminate].
      intros E. injection E as <- <-. simpl. rewrite Ed, Ei, Ep.
      repeat split; eauto.
    + intros E. injection E as <- <-. simpl. rewrite Ed, Ei, Ep.
      repeat split; eauto.
  - destruct (dict_get String.eqb (texts opts) "period"%string) as [pt|]
      eqn:Ep; simpl.
    + destruct (float_of_text pt) as [p|e] eqn:Ef; simpl; [|discriminate].
      intros E. injection E as <- <-. simpl. rewrite Ed, Ei, Ep.
      repeat split; eauto.
    + intros E. injection E as <- <-. simpl. rewrite Ed, Ei, Ep.
      repeat split; eauto.
Qed.

(** X22: in recording mode [init] raises [SnmpsimError], and creates no
    directory, when no option names the directory; when it goes through,
    the module is ready, with the period of the options or 10 seconds. *)
Theorem X22_init_recording_needs_a_directory
    (tokens : list (list string)) (now : Q) :
  well_formed tokens ->
  ((forall kv, In kv tokens -> ~ sets_key "dir" kv) ->
   init tokens "recording" now = (Raise SnmpsimError, None)) /\
  (forall mc created,
     init tokens "recording" now = (Ok mc, created) ->
     m_ready mc = true /\
     (exists d, c_dir (handed_over mc) = Some d) /\
     ((forall kv, In kv tokens -> ~ sets_key "period" kv) ->
      rec_period (rec (handed_over mc)) = Some 10)).
Proof.
  intros W. split.
  - intros N. unfold init.
    destruct (set_options_defined no_options W) as [opts E]. rewrite E.
    change ("recording" =? "variating")%string with false.
    change ("recording" =? "recording")%string with true. cbv iota.
    rewrite (set_options_texts_untouched _ _ E) by (try discriminate; exact N).
    reflexivity.
  - intros mc created E.
    destruct (init_recording_inv _ _ E) as (Eo & R & (d & Ed & _) & _ & P).
    split; [exact R|]. split; [exists d; exact Ed|].
    intros N. simpl.
    rewrite (set_options_texts_untouched _ _ Eo) in P
      by (try discriminate; exact N).
    exact P.
Qed.

(** X23: with the option [iterations] read as the number [n], the capture
    that [init] sets up makes [n] passes: the stop signals that end the
    first [n - 1] passes raise [MoreDataNotification], and every stop signal
    after them raises [NoDataNotification]. *)
Theorem X23_iterations_is_the_number_of_passes
    (tokens : list (list string)) (now : Q) (mc : moduleContext)
    (created : option string) (txt : string) (n : Z)
    (clocks : list (nat -> Q)) :
  init tokens "recording" now = (Ok mc, created) ->
  dict_get String.eqb (texts (m_options mc)) "iterations"%string = Some txt ->
  int_of_text txt = Ok n ->
  forall i, (i < List.length clocks)%nat ->
    ((Z.of_nat i < n - 1)%Z ->
     exists w, nth_error (stop_signals clocks (rec (handed_over mc))) i
               = Some (MoreDataNotification w)) /\
    ((n - 1 <= Z.of_nat i)%Z ->
     nth_error (stop_signals clocks (rec (handed_over mc))) i
     = Some NoDataNotification).
Proof.
  intros E Et En i L.
  destruct (init_recording_inv _ _ E) as (_ & R & _ & I & P).
  rewrite Et in I. destruct I as (n' & En' & I).
  assert (n' = n) by congruence. subst n'.
  assert (Pp : exists p, m_period mc = Some p).
  { destruct (dict_get String.eqb (texts (m_options mc)) "period"%string);
      [destruct P as (p & _ & P)|]; eauto. }
  destruct Pp as [p Pp].
  destruct (@stop_signals_count clocks
              (rec (handed_over mc)) (Z.to_nat (Z.max 0 (n - 1))) p)
    with (i := i) as [A B]; simpl; try assumption.
  - rewrite I. f_equal. lia.
  - intros C. exfalso. apply C. reflexivity.
  - split; intros X; [apply A|apply B]; lia.
Qed.

(** ** The calls of a pass *)

(** A call without the stop signal, on an open file: one record is written
    to it. *)
Lemma record_on_open_file (ctx : context) (clock : nat -> Q) (st : capturing)
    (path : string) (c : codec) :
  stopFlag ctx = false -> open_on st path c ->
  snd (record ctx clock st)
  = [Wrote path (format c (origOid ctx) (origValue ctx))] /\
  open_on (snd (fst (record ctx clock st))) path c /\
  same_setup st (snd (fst (record ctx clock st))) /\
  filenum (rec (snd (fst (record ctx clock st)))) = filenum (rec st).
Proof.
  intros S (R & F & P). unfold record. rewrite S, R. cbn [negb].
  unfold capture, with_rec. cbn [rec file c_parser]. rewrite F, P.
  destruct (total ctx =? 0)%Z.
  - destruct (descriptor _);
      (split; [reflexivity|]; split; [|split; [|reflexivity]];
       [repeat split; assumption|repeat split; reflexivity]).
  - split; [reflexivity|]. split; [|split; [|reflexivity]];
      [repeat split; assumption|repeat split; reflexivity].
Qed.

(** The first call of a pass: the file is opened, then written. *)
Lemma record_opens_file (ctx : context) (clock : nat -> Q) (st : capturing)
    (d : string) (c : codec) :
  stopFlag ctx = false -> ready (rec st) = true -> file (rec st) = None ->
  c_dir st = Some d ->
  dict_get String.eqb RECORD_SET (record_type st) = Some c ->
  let n := match filenum (rec st) with Some n => n | None => 0%Z end in
  let path := snmprecfile d (record_type st) n in
  snd (record ctx clock st)
  = [Opened path; Wrote path (format c (origOid ctx) (origValue ctx))] /\
  open_on (snd (fst (record ctx clock st))) path c /\
  same_setup st (snd (fst (record ctx clock st))) /\
  filenum (rec (snd (fst (record ctx clock st)))) = Some n.
Proof.
  intros S R F D T n path. unfold record. rewrite S, R. cbn [negb].
  unfold capture, with_rec. cbn [rec file filenum c_dir c_recordtype].
  rewrite F, D. fold (record_type st). rewrite T. fold n. fold path.
  assert (G : forall r : result (string * string * string),
            let out := (r,
                        {| rec := {| ready := true;
                                     started := match started (rec st) with
                                                | Some t0 => Some t0
                                                | None => Some (clock 0%nat)
                                                end;
                                     file := Some path; filenum := Some n;
                                     iterations := iterations (rec st);
                                     rec_period := rec_period (rec st) |};
                           c_dir := Some d; c_recordtype := c_recordtype st;
                           c_addon := c_addon st; c_parser := Some c |},
                        [Opened path;
                         Wrote path (format c (origOid ctx) (origValue ctx))]) in
            snd out = [Opened path;
                       Wrote path (format c (origOid ctx) (origValue ctx))] /\
            open_on (snd (fst out)) path c /\
            same_setup st (snd (fst out)) /\
            filenum (rec (snd (fst out))) = Some n).
  { intros r. cbn. split; [reflexivity|]. split; [repeat split|].
    split; [|reflexivity]. unfold same_setup. cbn. rewrite D.
    repeat split. }
  destruct (total ctx =? 0)%Z; [destruct (descriptor _)|]; apply G.
Qed.

Lemma records_on_open_file (calls : list (context * (nat -> Q)))
    (st : capturing) (path : string) (c : codec) :
  no_stop calls -> open_on st path c ->
  fst (records calls st) = writes c path calls /\
  open_on (snd (records calls st)) path c /\
  same_setup st (snd (records calls st)) /\
  filenum (rec (snd (records calls st))) = filenum (rec st).
Proof.
  revert st. induction calls as [|[ctx clock] rest IH]; intros st N O.
  - simpl. repeat split; try apply O.
  - inversion N as [|? ? S N']; subst. simpl in S.
    destruct (@record_on_open_file ctx clock st path c S O) as (E & O1 & (A1 & A2 & A3 & A4 & A5) & F1).
    destruct (IH _ N' O1)
      as (E' & O2 & (B1 & B2 & B3 & B4 & B5) & F2).
    cbn [records writes map fst snd]. rewrite E, E'.
    split; [reflexivity|]. split; [exact O2|].
    split; [|congruence]. repeat split; congruence.
Qed.

Lemma records_app (l1 l2 : list (context * (nat -> Q))) (st : capturing) :
  records (l1 ++ l2) st
  = (fst (records l1 st) ++ fst (records l2 (snd (records l1 st))),
     snd (records l2 (snd (records l1 st)))).
Proof.
  revert st. induction l1 as [|[ctx clock] l1 IH]; intros st.
  - simpl. destruct (records l2 st); reflexivity.
  - cbn [app records fst snd]. rewrite IH. cbn [fst snd].
    rewrite app_assoc. reflexivity.
Qed.

Lemma records_pass (calls : list (context * (nat -> Q))) (st : capturing)
    (d : string) (c : codec) :
  calls <> [] -> no_stop calls ->
  ready (rec st) = true -> file (rec st) = None -> c_dir st = Some d ->
  dict_get String.eqb RECORD_SET (record_type st) = Some c ->
  let n := match filenum (rec st) with Some n => n | None => 0%Z end in
  let path := snmprecfile d (record_type st) n in
  fst (records calls st) = Opened path :: writes c path calls /\
  open_on (snd (records calls st)) path c /\
  same_setup st (snd (records calls st)) /\
  filenum (rec (snd (records calls st))) = Some n.
Proof.
  intros Ne N R F D T n path.
  destruct calls as [|[ctx clock] rest]; [contradiction|].
  inversion N as [|? ? S N']; subst. simpl in S.
  destruct (@record_opens_file ctx clock st d c S R F D T)
    as (E & O1 & (A1 & A2 & A3 & A4 & A5) & F1).
  fold n in E, O1, F1. fold path in E, O1.
  destruct (@records_on_open_file rest _ path c N' O1)
    as (E' & O2 & (B1 & B2 & B3 & B4 & B5) & F2).
  cbn [records writes map fst snd]. rewrite E, E'.
  split; [reflexivity|]. split; [exact O2|].
  split; [|congruence]. repeat split; congruence.
Qed.

(** X24: the calls of a pass, none with the stop signal, made while no file
    is open, open one file, numbered as [filenum] says (0 when unset), and
    write one record for each call into it, in order, whatever the calls
    return; the file stays open and the numbering is kept. *)
Theorem X24_a_pass_writes_one_record_per_call
    (calls : list (context * (nat -> Q))) (st : capturing)
    (d : string) (c : codec) :
  calls <> [] -> no_stop calls ->
  ready (rec st) = true -> file (rec st) = None -> c_dir st = Some d ->
  dict_get String.eqb RECORD_SET (record_type st) = Some c ->
  let n := match filenum (rec st) with Some n => n | None => 0%Z end in
  let path := snmprecfile d (record_type st) n in
  fst (records calls st) = Opened path :: writes c path calls /\
  file (rec (snd (records calls st))) = Some path /\
  filenum (rec (snd (records calls st))) = Some n.
Proof.
  intros Ne N R F D T n path.
  destruct (@records_pass calls st d c Ne N R F D T)
    as (E & (_ & O & _) & _ & Fn).
  split; [exact E|]. split; [exact O|exact Fn].
Qed.

(** X25: a stop signal between two passes, with iterations remaining,
    closes the file of the first pass, and the second pass writes into a new
    file whose number is one more. *)
Theorem X25_stop_signal_rotates_the_file
    (calls1 calls2 : list (context * (nat -> Q)))
    (stop : context * (nat -> Q)) (st : capturing)
    (d : string) (c : codec) (m : Z) (p : Q) :
  calls1 <> [] -> calls2 <> [] -> no_stop calls1 -> no_stop calls2 ->
  stopFlag (fst stop) = true ->
  ready (rec st) = true -> file (rec st) = None -> c_dir st = Some d ->
  dict_get String.eqb RECORD_SET (record_type st) = Some c ->
  iterations (rec st) = Some m -> m <> 0%Z -> rec_period (rec st) = Some p ->
  let n := match filenum (rec st) with Some n => n | None => 0%Z end in
  let path := snmprecfile d (record_type st) n in
  let path' := snmprecfile d (record_type st) (n + 1) in
  fst (records (calls1 ++ stop :: calls2) st)
  = Opened path :: writes c path calls1
    ++ Closed path :: Opened path' :: writes c path' calls2.
Proof.
  intros Ne1 Ne2 N1 N2 S R F D T I Mz P n path path'.
  destruct (@records_pass calls1 st d c Ne1 N1 R F D T)
    as (E1 & (R1 & F1 & P1) & (A1 & A2 & A3 & A4 & A5) & Fn1).
  fold n in E1, Fn1, F1. fold path in E1, F1.
  set (st1 := snd (records calls1 st)) in *.
  rewrite records_app. cbn [fst]. rewrite E1. fold st1.
  destruct stop as [sctx sclock]. simpl in S.
  cbn [records fst snd].
  assert (Rs : record sctx sclock st1
               = (Raise (fst (fst (record_stop sclock (rec st1)))),
                  with_rec st1 (snd (fst (record_stop sclock (rec st1)))),
                  map Closed (snd (record_stop sclock (rec st1)))))
    by (unfold record; rewrite S; reflexivity).
  rewrite Rs. cbn [fst snd].
  (* the stop signal *)
  assert (I1 : iterations (rec st1) = Some m) by congruence.
  assert (Pp : rec_period (rec st1) = Some p) by congruence.
  destruct (record_stop_step sclock (rec st1) R1 I1 Pp
              ltac:(rewrite Fn1; discriminate))
    as (R2 & P2 & F2 & _ & Zn).
  destruct (Zn Mz) as (_ & I2 & Fn2). rewrite F1, Fn1 in Fn2. simpl in Fn2.
  assert (Cl : snd (record_stop sclock (rec st1)) = [path]).
  { unfold record_stop. rewrite R1, I1, Pp, F1, Fn1. cbn [negb].
    destruct (m =? 0)%Z; reflexivity. }
  rewrite Cl. cbn [map].
  set (st2 := with_rec st1 (snd (fst (record_stop sclock (rec st1))))) in *.
  assert (T2 : record_type st2 = record_type st).
  { unfold record_type, st2, with_rec. cbn. rewrite A2. reflexivity. }
  destruct (@records_pass calls2 st2 d c Ne2 N2) as (E2 & _).
  - exact R2.
  - exact F2.
  - unfold st2, with_rec. cbn. congruence.
  - rewrite T2. exact T.
  - cbn zeta in E2. rewrite T2 in E2.
    replace (filenum (rec st2)) with (Some (Z.succ n)) in E2
      by (symmetry; exact Fn2).
    replace (Z.succ n) with (n + 1)%Z in E2 by lia. fold path' in E2.
    rewrite E2. cbn [app]. reflexivity.
Qed.

(** ** The names of the files *)

(** X27: the name that [record] gives a file has two separators between the
    number and the extension; the scan of [variate] takes such a name, as it
    ends in the extension, and then fails to read its number: the text left
    of the extension is the number followed by a separator, on which [int]
    raises [ValueError]. *)
Theorem X27_recorded_files_are_not_read_back (t : string) (n : Z) :
  extsep = "."%string ->
  endswith (snmprecFile t n) t = true /\
  drop_last (String.length t + 1) (snmprecFile t n)
  = (decimal5 n ++ ".")%string /\
  ident (snmprecFile t n) t = Raise ValueError.
Proof.
  intros E. unfold snmprecFile. rewrite E.
  assert (A : (decimal5 n ++ "." ++ "." ++ t
               = (decimal5 n ++ ".") ++ ("." ++ t))%string)
    by (rewrite app_assoc_str; reflexivity).
  assert (B : (decimal5 n ++ "." ++ "." ++ t
               = (decimal5 n ++ "." ++ ".") ++ t)%string)
    by (rewrite !app_assoc_str; reflexivity).
  assert (D : drop_last (String.length t + 1) (decimal5 n ++ "." ++ "." ++ t)
              = (decimal5 n ++ ".")%string).
  { rewrite A.
    replace (String.length t + 1)%nat with (String.length ("." ++ t))
      by (simpl; lia).
    apply drop_last_app. }
  split; [rewrite B; apply endswith_app|]. split; [exact D|].
  unfold ident. rewrite D.
  apply (@int_of_str_rejects "."%char _); try reflexivity; try discriminate.
  rewrite list_ascii_app. apply in_or_app. right. left. reflexivity.
Qed.

End WithRecorder.

Section Served.
Context `{Host} `{Recorder}.
Variable RS : dict (K:=string) (V:=parser).
Variable join : string -> string -> string.

(** X29: a directory that holds a file written by [record] is not served:
    the scan of the first request of [variate] raises [ValueError],
    whatever the other names of the listing are, as long as no extension
    longer than the file's own matches the name of that file. *)
Theorem X29_a_recorded_directory_is_not_served
    (s : Multiplex.settings) (d : string) (l1 l2 : list string)
    (t : string) (n : Z) :
  extsep = "."%string ->
  In t (dict_keys RS) ->
  (forall e, In e (dict_keys RS) -> endswith (snmprecFile t n) e = true ->
             (String.length e <= String.length t)%nat) ->
  scan_listing RS join s d (l1 ++ snmprecFile t n :: l2) = Raise ValueError.
Proof.
  intros E It Le. unfold scan_listing. rewrite listed_app.
  destruct (listed RS join d l1 []) as [files|e] eqn:L1; cbn [bind listed].
  2:{ rewrite (listed_exn _ _ _ _ _ L1). reflexivity. }
  rewrite register_raises; [reflexivity| |].
  - exists t. split; [exact It|]. unfold snmprecFile. rewrite E.
    rewrite <- !app_assoc_str. apply endswith_app.
  - intros e Ie Ee. specialize (Le e Ie Ee). unfold ident, snmprecFile.
    rewrite E. rewrite <- (app_assoc_str (decimal5 n) "." ("." ++ t)).
    apply int_of_str_rejects_dot. lia.
Qed.
End Served.

(** ** The properties on the sample inputs *)

Lemma X21_options_last_wins_addon_accumulates_witness :
  exists opts,
    set_options no_options sample_tokens = Ok opts /\
    addon opts = Some ["a=1"; "b=2"]%string /\
    dict_get String.eqb (texts opts) "period"%string = Some "7"%string.
Proof.
  destruct (proj1 (@X21_options_last_wins_addon_accumulates sample_recorder
                     sample_tokens))
    as (opts & E & A & L).
  { repeat constructor. }
  exists opts. split; [exact E|]. split; [exact A|].
  apply (L [["dir"; "out"]; ["iterations"; "3"]; ["addon"; "a=1"];
            ["period"; "5"]; ["addon"; "b=2"]]%string
           [] "period"%string "7"%string eq_refl).
  - discriminate.
  - intros kv [].
Defined.

Lemma X22_init_recording_needs_a_directory_witness :
  @init sample_recorder [["iterations"; "3"]]%string "recording" 0
  = (Raise SnmpsimError, None).
Proof.
  apply (proj1 (@X22_init_recording_needs_a_directory sample_recorder
                  [["iterations"; "3"]]%string 0
                  ltac:(repeat constructor))).
  intros kv [<-|[]] [v E]. discriminate E.
Defined.

Lemma X23_iterations_is_the_number_of_passes_witness :
  (exists w,
     nth_error (stop_signals [fun _ => 3; fun _ => 15; fun _ => 27]
                  (rec sample_capturing)) 1
     = Some (MoreDataNotification w)) /\
  nth_error (stop_signals [fun _ => 3; fun _ => 15; fun _ => 27]
               (rec sample_capturing)) 2
  = Some NoDataNotification.
Proof.
  pose proof (@X23_iterations_is_the_number_of_passes sample_recorder
                sample_tokens 0
                {| m_options :=
                     {| addon := Some ["a=1"; "b=2"]%string;
                        texts := [("dir", "out"); ("iterations", "3");
                                  ("period", "7")]%string |};
                   m_booted := None; m_iterations := Some 2%Z;
                   m_period := Some 7; m_ready := true |}
                None "3"%string 3%Z
                [fun _ => 3; fun _ => 15; fun _ => 27]
                eq_refl eq_refl eq_refl) as W.
  split.
  - apply (@W 1%nat); simpl; lia.
  - apply (@W 2%nat); simpl; lia.
Defined.

Lemma X24_a_pass_writes_one_record_per_call_witness :
  fst (records [sample_call 1 0; sample_call 2 1] sample_capturing)
  = [Opened "out/00000..snmprec";
     Wrote "out/00000..snmprec" "1.3.6.1.2.1.1.3.0|2|1";
     Wrote "out/00000..snmprec" "1.3.6.1.2.1.1.3.0|2|2"]%string.
Proof.
  apply (@X24_a_pass_writes_one_record_per_call sample_recorder
           [sample_call 1 0; sample_call 2 1] sample_capturing
           "out"%string "snmprec"%string);
    try reflexivity; [discriminate | repeat constructor].
Defined.

Lemma X25_stop_signal_rotates_the_file_witness :
  fst (records ([sample_call 1 0] ++ sample_stop :: [sample_call 2 0])
         sample_capturing)
  = [Opened "out/00000..snmprec";
     Wrote "out/00000..snmprec" "1.3.6.1.2.1.1.3.0|2|1";
     Closed "out/00000..snmprec";
     Opened "out/00001..snmprec";
     Wrote "out/00001..snmprec" "1.3.6.1.2.1.1.3.0|2|2"]%string.
Proof.
  apply (@X25_stop_signal_rotates_the_file sample_recorder
           [sample_call 1 0] [sample_call 2 0] sample_stop sample_capturing
           "out"%string "snmprec"%string 2%Z 7);
    try reflexivity; try discriminate; repeat constructor.
Defined.

Lemma X27_recorded_files_are_not_read_back_witness :
  @snmprecFile sample_recorder "snmprec" 0 = "00000..snmprec"%string /\
  ident (@snmprecFile sample_recorder "snmprec" 0) "snmprec"
  = Raise ValueError.
Proof.
  split; [reflexivity|].
  apply (@X27_recorded_files_are_not_read_back sample_recorder
           "snmprec"%string 0%Z eq_refl).
Defined.

Lemma X29_a_recorded_directory_is_not_served_witness :
  @scan_listing sample_host
    [("snmprec", "snmprec"); ("snmpwalk", "snmpwalk")]%string
    (fun a b => (a ++ "/" ++ b)%string) (sample_settings None) "out"%string
    (["00000.snmprec"%string] ++ @snmprecFile sample_recorder "snmprec" 1 :: [])
  = Raise ValueError.
Proof.
  apply (@X29_a_recorded_directory_is_not_served sample_host sample_recorder
           [("snmprec", "snmprec"); ("snmpwalk", "snmpwalk")]%string
           (fun a b => (a ++ "/" ++ b)%string) (sample_settings None)
           "out"%string ["00000.snmprec"%string] [] "snmprec"%string 1%Z
           eq_refl).
  - left. reflexivity.
  - intros e [<-|[<-|[]]] E; [simpl; lia|].
    vm_compute in E. discriminate E.
Defined.

End RecordingExtra.
